(** * OpenClaw identity, scope and persistence extensions: a shallow embedding

    The development follows the TypeScript sources of three extensions:
    - [persist-postgres] ([src/db.ts], [src/index.ts]): modules [Pg],
      [Ledger] and [LedgerQueries];
    - [persist-user-identity] ([src/db.ts], [src/jwt.ts], [src/index.ts]):
      modules [IdentityDb], [Jwt], [SessionKey], [Commands] and
      [IdentityPlugin];
    - [auth-memory-gate] ([src/scope.ts], [src/index.ts]): modules
      [SessionKey], [Scope] and [MemoryGate];
    - the scope-key resolution of the memory plugin ([identity.ts], which
      reads the same two tables): module [GroupIdentity].
    What the sources take from the platform ([JSON.parse], [Buffer],
    [createHmac], [timingSafeEqual]) is modelled in [Js], [Json] and
    [NodeCrypto].

    Conventions of the embedding:
    - a JavaScript string is the [string] of its UTF-8 bytes: white space
      ([Js.trim], [Commands.split_ws]) and lengths ([Pg.fits]) are taken
      by character, and a text holds no NUL character;
    - a nullable or optional field [T | null], [T?] is an [option T];
    - JavaScript numbers that hold integers (timestamps, counters, indices)
      are [Z];
    - the casts of the sources are not checked at run time: where a value
      comes from outside (the claims of a token, the answer of the
      verification endpoint, the content of a message), the embedding
      follows the value that is there, not its declared type, and marks
      the values that it does not represent ([Js.Beyond],
      [Pg.Unmodelled]);
    - a PostgreSQL table is the list of its rows, in insertion order; a
      statement that the schema refuses throws and leaves the store as it
      was;
    - asynchronous functions are run to completion one after the other: the
      store is threaded explicitly through every statement.

    Part I holds the embedding, Part II the properties. *)

From Stdlib Require Import ZArith List String Ascii Bool Lia Arith.
From Stdlib Require Import DecimalString DecimalNat Permutation Sorted.
Import ListNotations.

Local Open Scope list_scope.
Local Open Scope string_scope.

(* ====================================================================== *)
(** * Part I. The embedding                                                 *)
(* ====================================================================== *)

(** ** JavaScript string and array primitives used by the sources *)

Module Js.

(** ["\n"] *)
Definition nl : string := String (ascii_of_nat 10) EmptyString.

(** [s.split(sep)] for a one-character separator: never the empty array,
    [''.split(':')] is [['']]. *)
Fixpoint split (sep : ascii) (s : string) : list string :=
  match s with
  | EmptyString => [EmptyString]
  | String c rest =>
      if Ascii.eqb c sep then EmptyString :: split sep rest
      else match split sep rest with
           | seg :: segs => String c seg :: segs
           | [] => [String c EmptyString]
           end
  end.

(** [xs.join(sep)] *)
Definition join (sep : string) (xs : list string) : string :=
  String.concat sep xs.

(** [xs.indexOf(x)]: the first index holding [x], or [-1]. *)
Fixpoint indexOf (x : string) (xs : list string) : Z :=
  match xs with
  | [] => (-1)%Z
  | y :: ys =>
      if String.eqb y x then 0%Z
      else let i := indexOf x ys in
           if (i <? 0)%Z then (-1)%Z else (i + 1)%Z
  end.

(** [xs.slice(i)] for [0 <= i]. *)
Definition slice {A : Type} (i : Z) (xs : list A) : list A :=
  skipn (Z.to_nat i) xs.

(** [xs.length] *)
Definition len {A : Type} (xs : list A) : Z := Z.of_nat (List.length xs).

(** [xs[i] === x] on an array of strings ([xs[i]] is [undefined] past the
    end). *)
Definition at_is (i : nat) (xs : list string) (x : string) : bool :=
  match nth_error xs i with
  | Some y => String.eqb y x
  | None => false
  end.

(** White space, as [String.prototype.trim] removes it and [\s] matches
    it: the WhiteSpace and LineTerminator code points, in UTF-8.
    In one byte: TAB, LF, VT, FF, CR and SPACE. *)
Definition is_space (c : ascii) : bool :=
  let n := nat_of_ascii c in
  ((9 <=? n)%nat && (n <=? 13)%nat) || (n =? 32)%nat.

(** In two bytes: U+00A0 ([C2 A0]). *)
Definition is_space2 (a b : ascii) : bool :=
  (nat_of_ascii a =? 194)%nat && (nat_of_ascii b =? 160)%nat.

(** In three bytes: U+1680 ([E1 9A 80]), U+2000 to U+200A ([E2 80 80] to
    [E2 80 8A]), U+2028, U+2029 and U+202F ([E2 80 A8], [A9], [AF]), U+205F
    ([E2 81 9F]), U+3000 ([E3 80 80]) and U+FEFF ([EF BB BF]). *)
Definition is_space3 (a b c : ascii) : bool :=
  let a := nat_of_ascii a in
  let b := nat_of_ascii b in
  let c := nat_of_ascii c in
  ((a =? 225) && (b =? 154) && (c =? 128))%nat
  || ((a =? 226) && (b =? 128)
      && (((128 <=? c) && (c <=? 138)) || (c =? 168) || (c =? 169)
          || (c =? 175)))%nat
  || ((a =? 226) && (b =? 129) && (c =? 159))%nat
  || ((a =? 227) && (b =? 128) && (c =? 128))%nat
  || ((a =? 239) && (b =? 187) && (c =? 191))%nat.

(** U+00A0, NO-BREAK SPACE. *)
Definition nbsp : string :=
  String (ascii_of_nat 194) (String (ascii_of_nat 160) EmptyString).

(** [s] starts with a white-space character. *)
Definition white_head (s : string) : bool :=
  match s with
  | EmptyString => false
  | String a r =>
      is_space a
      || match r with
         | EmptyString => false
         | String b r' =>
             is_space2 a b
             || match r' with
                | EmptyString => false
                | String c _ => is_space3 a b c
                end
         end
  end.

Fixpoint trimStart (s : string) : string :=
  match s with
  | EmptyString => EmptyString
  | String a r =>
      if is_space a then trimStart r
      else
        match r with
        | EmptyString => s
        | String b r' =>
            if is_space2 a b then trimStart r'
            else
              match r' with
              | EmptyString => s
              | String c r'' => if is_space3 a b c then trimStart r'' else s
              end
        end
  end.

(** [s] holds white space only. *)
Definition blank (s : string) : bool := String.eqb (trimStart s) EmptyString.

(** Drops the trailing white space: what is left of [s] is dropped from
    the point where it holds white space only. *)
Fixpoint trimEnd (s : string) : string :=
  match s with
  | EmptyString => EmptyString
  | String a r => if blank s then EmptyString else String a (trimEnd r)
  end.

(** [s.trim()] *)
Definition trim (s : string) : string := trimEnd (trimStart s).

(** Truthiness of a string: the empty string is falsy. *)
Definition truthy_str (s : string) : bool := negb (String.eqb s EmptyString).

(** Truthiness of an optional string ([undefined] and [null] are falsy). *)
Definition truthy_ostr (s : option string) : bool :=
  match s with Some s => truthy_str s | None => false end.

(** [s.includes(sub)] on strings (what the tests' [toContain] checks). *)
Fixpoint includes (s sub : string) : bool :=
  String.prefix sub s ||
  match s with
  | EmptyString => false
  | String _ rest => includes rest sub
  end.

(** [a ?? b] *)
Definition nullish {A : Type} (a : option A) (b : A) : A :=
  match a with Some x => x | None => b end.

(** [`${b}`] for a boolean *)
Definition string_of_bool (b : bool) : string :=
  if b then "true" else "false".

(** [`${n}`] for a number that holds an integer *)
Definition string_of_Z (n : Z) : string :=
  NilEmpty.string_of_int (Z.to_int n).

(** The exceptions of the run time that the sources meet. *)
Inductive JsError := SyntaxError | TypeError.

(** How the evaluation of an expression ends: with a value or with an
    exception. [Beyond] is not an ending of the program: it marks an
    evaluation that meets a value which the embedding does not represent
    (a number that is not an integer, a claim of an unexpected type that
    the program passes on, text that is not well-formed UTF-8); nothing
    is stated about the program from there on. *)
Inductive Completion (A : Type) :=
| Returns (a : A)
| Throws (e : JsError)
| Beyond.
Arguments Returns {A} a.
Arguments Throws {A} e.
Arguments Beyond {A}.

End Js.

(** ** Session-key parsing ([auth-memory-gate/src/scope.ts] and, verbatim,
     [persist-user-identity/src/index.ts]) *)

Module SessionKey.
Import Js.

Definition deriveChannel (sessionKey : string) : string :=
  let parts := split ":" sessionKey in
  if (3 <=? len parts)%Z && at_is 0 parts "agent"
  then match nth_error parts 2 with
       | Some channel => channel
       | None => "unknown"
       end
  else "unknown".

Definition derivePeerId (sessionKey : string) : string :=
  let parts := split ":" sessionKey in
  if (len parts <? 3)%Z || negb (at_is 0 parts "agent")
  then sessionKey
  else
    let rest := slice 2 parts in
    let directIdx := indexOf "direct" rest in
    if (0 <=? directIdx)%Z && (directIdx <? len rest - 1)%Z
    then join ":" (slice (directIdx + 1) rest)
    else if (2 <=? len rest)%Z
    then join ":" (slice 1 rest)
    else match nth_error rest 0 with
         | Some r => r
         | None => sessionKey
         end.

(** The session keys of the form [agent:{a}:{c}:{p1}:{p2}]. *)
Definition sessionKey4 (a c p1 p2 : string) : string :=
  "agent:" ++ a ++ ":" ++ c ++ ":" ++ p1 ++ ":" ++ p2.

(** A segment is a string without the separator. *)
Fixpoint segment (s : string) : bool :=
  match s with
  | EmptyString => true
  | String c rest => negb (Ascii.eqb c ":") && segment rest
  end.

End SessionKey.

(** ** Scope derivation ([auth-memory-gate/src/scope.ts]) *)

Module Scope.
Import Js.

Record ScopeConfig := {
  requireVerified : option bool;
  gateMessage : option string
}.

Record ScopeResult := {
  userId : string;
  externalId : option string;
  scopeKey : string;
  verified : bool;
  channel : string;
  peerId : string
}.

(** Minimal identity row from the [lp_users] + [lp_user_channels] join
    (its [channel] and [verified] fields are [row_channel] and
    [row_verified] here, the names being taken by [ScopeResult]). *)
Record IdentityRow := {
  id : string;
  external_id : option string;
  first_name : option string;
  last_name : option string;
  row_channel : string;
  channel_peer_id : string;
  row_verified : bool
}.

Definition resolveScope (identity : IdentityRow) (channel peerId : string)
  : ScopeResult :=
  let scopeKey := nullish (external_id identity) (id identity) in
  {| userId := id identity;
     externalId := external_id identity;
     scopeKey := scopeKey;
     verified := row_verified identity;
     channel := channel;
     peerId := peerId |}.

(** Truthiness of [config.requireVerified]. *)
Definition truthy_obool (b : option bool) : bool :=
  match b with Some true => true | _ => false end.

Definition formatGatedMessage (config : ScopeConfig) : string :=
  let customMsg := option_map trim (gateMessage config) in
  let lines := ["[MEMORY_SCOPE]"; "gated: true"; "[/MEMORY_SCOPE]"; EmptyString] in
  let lines :=
    if truthy_ostr customMsg
    then (lines ++ [nullish customMsg EmptyString])%list
    else (lines ++
          ["Memory retrieval is not available until identity is verified.";
           "The user can verify by typing: /verify <token>"])%list in
  join nl lines.

Definition formatScopeBlock (scope : ScopeResult) (config : ScopeConfig)
  : string :=
  if truthy_obool (requireVerified config) && negb (verified scope)
  then formatGatedMessage config
  else
    join nl
      ["[MEMORY_SCOPE]";
       "scope_key: " ++ scopeKey scope;
       "user_id: " ++ userId scope;
       "external_id: " ++ nullish (externalId scope) "none";
       "verified: " ++ string_of_bool (verified scope);
       "gated: false";
       "[/MEMORY_SCOPE]"].

(** The gated block, from its opening to its closing marker. *)
Definition gatedBlock : string :=
  join nl ["[MEMORY_SCOPE]"; "gated: true"; "[/MEMORY_SCOPE]"].

End Scope.

(** ** JSON values and [JSON.parse] *)

Module Json.
Import Js.

#[local] Set Warnings "-register-all".

Inductive json : Type :=
| JNull
| JBool (b : bool)
| JNum (n : Z)
| JStr (s : string)
| JArr (items : list json)
| JObj (members : list (string * json)).

Definition dquote : ascii := ascii_of_nat 34.
Definition backslash : ascii := ascii_of_nat 92.

(** JSON white space: SPACE, TAB, LF, CR. *)
Definition is_ws (c : ascii) : bool :=
  let n := nat_of_ascii c in
  (n =? 32)%nat || (n =? 9)%nat || (n =? 10)%nat || (n =? 13)%nat.

Fixpoint skip_ws (s : string) : string :=
  match s with
  | String c rest => if is_ws c then skip_ws rest else s
  | EmptyString => EmptyString
  end.

Definition digit_of (c : ascii) : option Z :=
  let n := nat_of_ascii c in
  if (48 <=? n)%nat && (n <=? 57)%nat then Some (Z.of_nat (n - 48)) else None.

(** The digits at the head of [s], accumulated in base ten. *)
Fixpoint parse_digits (s : string) (acc : Z) : Z * string :=
  match s with
  | String c rest =>
      match digit_of c with
      | Some d => parse_digits rest (10 * acc + d)%Z
      | None => (acc, s)
      end
  | EmptyString => (acc, s)
  end.

(** The largest integer up to which every integer is a number of
    JavaScript: [2^53]. *)
Definition max_exact : Z := 9007199254740992.

(** An integer literal: [0] or a non-zero digit followed by digits. A
    fraction, an exponent, and an integer above [2^53], which
    [JSON.parse] rounds, are not represented. *)
Definition parse_nat_literal (s : string) : Completion (Z * string) :=
  match s with
  | String c rest =>
      match digit_of c with
      | Some d =>
          let '(n, rest') :=
            if (d =? 0)%Z then (0%Z, rest) else parse_digits rest d in
          match rest' with
          | String c' _ =>
              if match digit_of c' with Some _ => true | None => false end
              then Throws SyntaxError
              else if Ascii.eqb c' "." || Ascii.eqb c' "e" || Ascii.eqb c' "E"
              then Beyond
              else if (max_exact <? n)%Z then Beyond
              else Returns (n, rest')
          | EmptyString =>
              if (max_exact <? n)%Z then Beyond else Returns (n, rest')
          end
      | None => Throws SyntaxError
      end
  | EmptyString => Throws SyntaxError
  end.

(** The characters of a string literal after its opening quote, up to
    the closing quote. The two-character escapes are decoded; a [\u]
    escape is not represented; a raw control character is an error. *)
Fixpoint parse_string_body (s : string) : Completion (string * string) :=
  match s with
  | EmptyString => Throws SyntaxError
  | String c rest =>
      if Ascii.eqb c dquote then Returns (EmptyString, rest)
      else if Ascii.eqb c backslash then
        match rest with
        | String e rest' =>
            let unescaped :=
              if Ascii.eqb e dquote then Returns dquote
              else if Ascii.eqb e backslash then Returns backslash
              else if Ascii.eqb e "/" then Returns "/"%char
              else if Ascii.eqb e "b" then Returns (ascii_of_nat 8)
              else if Ascii.eqb e "f" then Returns (ascii_of_nat 12)
              else if Ascii.eqb e "n" then Returns (ascii_of_nat 10)
              else if Ascii.eqb e "r" then Returns (ascii_of_nat 13)
              else if Ascii.eqb e "t" then Returns (ascii_of_nat 9)
              else if Ascii.eqb e "u" then Beyond
              else Throws SyntaxError in
            match unescaped with
            | Returns u =>
                match parse_string_body rest' with
                | Returns (str, rest'') => Returns (String u str, rest'')
                | Throws e => Throws e
                | Beyond => Beyond
                end
            | Throws e => Throws e
            | Beyond => Beyond
            end
        | EmptyString => Throws SyntaxError
        end
      else if (nat_of_ascii c <? 32)%nat then Throws SyntaxError
      else match parse_string_body rest with
           | Returns (str, rest') => Returns (String c str, rest')
           | Throws e => Throws e
           | Beyond => Beyond
           end
  end.

(** [expect w s]: [s] without its prefix [w]. *)
Fixpoint expect (w s : string) : option string :=
  match w, s with
  | EmptyString, _ => Some s
  | String a w', String b s' => if Ascii.eqb a b then expect w' s' else None
  | String _ _, EmptyString => None
  end.

(** The literal [w] of value [v], its first character being read. *)
Definition literal (v : json) (w s : string) : Completion (json * string) :=
  match expect w s with
  | Some rest => Returns (v, rest)
  | None => Throws SyntaxError
  end.

(** A value at the head of [s] (after white space) and the rest of [s].
    [fuel] bounds the number of nested or consecutive values; a text that
    needs more is not represented. *)
Fixpoint parse_value (fuel : nat) (s : string) : Completion (json * string) :=
  match fuel with
  | O => Beyond
  | S fuel' =>
      match skip_ws s with
      | EmptyString => Throws SyntaxError
      | String c rest =>
          if Ascii.eqb c "n" then literal JNull "ull" rest
          else if Ascii.eqb c "t" then literal (JBool true) "rue" rest
          else if Ascii.eqb c "f" then literal (JBool false) "alse" rest
          else if Ascii.eqb c dquote then
            match parse_string_body rest with
            | Returns (str, rest') => Returns (JStr str, rest')
            | Throws e => Throws e
            | Beyond => Beyond
            end
          else if Ascii.eqb c "-" then
            match parse_nat_literal rest with
            | Returns (n, rest') => Returns (JNum (- n), rest')
            | Throws e => Throws e
            | Beyond => Beyond
            end
          else if Ascii.eqb c "[" then
            match skip_ws rest with
            | String c' rest' =>
                if Ascii.eqb c' "]" then Returns (JArr [], rest')
                else parse_items fuel' rest []
            | EmptyString => Throws SyntaxError
            end
          else if Ascii.eqb c "{" then
            match skip_ws rest with
            | String c' rest' =>
                if Ascii.eqb c' "}" then Returns (JObj [], rest')
                else parse_members fuel' rest []
            | EmptyString => Throws SyntaxError
            end
          else
            match parse_nat_literal (String c rest) with
            | Returns (n, rest') => Returns (JNum n, rest')
            | Throws e => Throws e
            | Beyond => Beyond
            end
      end
  end

with parse_items (fuel : nat) (s : string) (acc : list json)
  : Completion (json * string) :=
  match fuel with
  | O => Beyond
  | S fuel' =>
      match parse_value fuel' s with
      | Returns (v, rest) =>
          match skip_ws rest with
          | String c rest' =>
              if Ascii.eqb c "," then parse_items fuel' rest' (v :: acc)
              else if Ascii.eqb c "]"
              then Returns (JArr (rev (v :: acc)), rest')
              else Throws SyntaxError
          | EmptyString => Throws SyntaxError
          end
      | Throws e => Throws e
      | Beyond => Beyond
      end
  end

with parse_members (fuel : nat) (s : string) (acc : list (string * json))
  : Completion (json * string) :=
  match fuel with
  | O => Beyond
  | S fuel' =>
      match skip_ws s with
      | String q rest =>
          if Ascii.eqb q dquote then
            match parse_string_body rest with
            | Returns (key, rest1) =>
                match skip_ws rest1 with
                | String colon rest2 =>
                    if Ascii.eqb colon ":" then
                      match parse_value fuel' rest2 with
                      | Returns (v, rest3) =>
                          match skip_ws rest3 with
                          | String c rest4 =>
                              if Ascii.eqb c "," then
                                parse_members fuel' rest4 ((key, v) :: acc)
                              else if Ascii.eqb c "}" then
                                Returns (JObj (rev ((key, v) :: acc)), rest4)
                              else Throws SyntaxError
                          | EmptyString => Throws SyntaxError
                          end
                      | Throws e => Throws e
                      | Beyond => Beyond
                      end
                    else Throws SyntaxError
                | EmptyString => Throws SyntaxError
                end
            | Throws e => Throws e
            | Beyond => Beyond
            end
          else Throws SyntaxError
      | EmptyString => Throws SyntaxError
      end
  end.

(** [JSON.parse(text)]. The represented texts are made of objects,
    arrays, strings with two-character escapes, integers up to [2^53],
    [true], [false] and [null]. *)
Definition JSON_parse (text : string) : Completion json :=
  match parse_value (2 * String.length text + 2) text with
  | Returns (v, rest) =>
      match skip_ws rest with
      | EmptyString => Returns v
      | String _ _ => Throws SyntaxError
      end
  | Throws e => Throws e
  | Beyond => Beyond
  end.

(** [obj[key]]: the last member of that name ([undefined] is [None]). *)
Fixpoint lookup_last (key : string) (members : list (string * json))
  : option json :=
  match members with
  | [] => None
  | (k, v) :: rest =>
      match lookup_last key rest with
      | Some v' => Some v'
      | None => if String.eqb k key then Some v else None
      end
  end.

Definition get (key : string) (j : json) : option json :=
  match j with
  | JObj members => lookup_last key members
  | _ => None
  end.

End Json.

(** ** Node's [Buffer], [base64url] and [createHmac("sha256", _)] *)

Module NodeCrypto.
Local Open Scope list_scope.

(** A [Buffer] is the list of its bytes, each in [0, 256). *)
Definition Buffer := list Z.

Definition byte_of_ascii (c : ascii) : Z := Z.of_N (N_of_ascii c).
Definition ascii_of_byte (b : Z) : ascii := ascii_of_N (Z.to_N b).

(** [Buffer.from(s)] (the UTF-8 bytes of [s]) and [buf.toString()] for
    bytes that are well-formed UTF-8 (see [utf8_valid]). *)
Definition Buffer_from (s : string) : Buffer :=
  map byte_of_ascii (list_ascii_of_string s).
Definition Buffer_toString (b : Buffer) : string :=
  string_of_list_ascii (map ascii_of_byte b).

Definition between (lo hi : nat) (c : ascii) : bool :=
  (lo <=? nat_of_ascii c)%nat && (nat_of_ascii c <=? hi)%nat.

(** Well-formed UTF-8 (no overlong form, no surrogate, nothing above
    U+10FFFF): the bytes that [buf.toString()] decodes as they are. It
    replaces any other byte by U+FFFD, which is not represented. *)
Fixpoint utf8_valid (s : string) : bool :=
  match s with
  | EmptyString => true
  | String a r =>
      if between 0 127 a then utf8_valid r
      else if between 194 223 a then
        match r with
        | String b r1 => between 128 191 b && utf8_valid r1
        | _ => false
        end
      else if between 224 239 a then
        match r with
        | String b (String c r2) =>
            between (if between 224 224 a then 160 else 128)
                    (if between 237 237 a then 159 else 191) b
            && between 128 191 c && utf8_valid r2
        | _ => false
        end
      else if between 240 244 a then
        match r with
        | String b (String c (String d r3)) =>
            between (if between 240 240 a then 144 else 128)
                    (if between 244 244 a then 143 else 191) b
            && between 128 191 c && between 128 191 d && utf8_valid r3
        | _ => false
        end
      else false
  end.

(** *** base64url *)

Definition b64url_alphabet : string :=
  "ABCDEFGHIJKLMNOPQRSTUVWXYZabcdefghijklmnopqrstuvwxyz0123456789-_".

Definition b64url_char (v : Z) : ascii :=
  match String.get (Z.to_nat v) b64url_alphabet with
  | Some c => c
  | None => "A"%char
  end.

(** The four 6-bit values of three bytes [b0 b1 b2]. *)
Definition enc0 (b0 : Z) : Z := Z.shiftr b0 2.
Definition enc1 (b0 b1 : Z) : Z :=
  Z.lor (Z.shiftl (Z.land b0 3) 4) (Z.shiftr b1 4).
Definition enc2 (b1 b2 : Z) : Z :=
  Z.lor (Z.shiftl (Z.land b1 15) 2) (Z.shiftr b2 6).
Definition enc3 (b2 : Z) : Z := Z.land b2 63.

(** Three bytes give four 6-bit values; a last group of two bytes gives
    three and of one byte gives two, the missing byte counting as zero. *)
Fixpoint b64_encode_sextets (bs : Buffer) : list Z :=
  match bs with
  | b0 :: b1 :: b2 :: rest =>
      enc0 b0 :: enc1 b0 b1 :: enc2 b1 b2 :: enc3 b2 :: b64_encode_sextets rest
  | [b0; b1] => [enc0 b0; enc1 b0 b1; enc2 b1 0]
  | [b0] => [enc0 b0; enc1 b0 0]
  | [] => []
  end.

(** The encoder behind [digest("base64url")]: no padding. *)
Definition b64url_encode (bs : Buffer) : string :=
  string_of_list_ascii (map b64url_char (b64_encode_sextets bs)).

(** The decoding table of Node ([unbase64]): it takes both the standard
    and the URL-safe alphabet. *)
Definition unbase64 (c : ascii) : option Z :=
  let n := byte_of_ascii c in
  if (65 <=? n)%Z && (n <=? 90)%Z then Some (n - 65)%Z
  else if (97 <=? n)%Z && (n <=? 122)%Z then Some (n - 71)%Z
  else if (48 <=? n)%Z && (n <=? 57)%Z then Some (n + 4)%Z
  else if (n =? 43)%Z || (n =? 45)%Z then Some 62%Z
  else if (n =? 47)%Z || (n =? 95)%Z then Some 63%Z
  else None.

(** The legal characters of the input, as 6-bit values: Node's decoder
    skips a character outside the alphabets and stops at the first [=]. *)
Fixpoint b64_sextets (s : string) : list Z :=
  match s with
  | EmptyString => []
  | String c rest =>
      if Ascii.eqb c "=" then []
      else match unbase64 c with
           | Some v => v :: b64_sextets rest
           | None => b64_sextets rest
           end
  end.

(** The three bytes of four 6-bit values [v0 v1 v2 v3]. *)
Definition dec0 (v0 v1 : Z) : Z := Z.lor (Z.shiftl v0 2) (Z.shiftr v1 4).
Definition dec1 (v1 v2 : Z) : Z :=
  Z.lor (Z.shiftl (Z.land v1 15) 4) (Z.shiftr v2 2).
Definition dec2 (v2 v3 : Z) : Z := Z.lor (Z.shiftl (Z.land v2 3) 6) v3.

(** Four sextets give three bytes; a last group of three gives two bytes
    and of two gives one byte, its low bits being dropped; a single
    left-over sextet gives nothing. *)
Fixpoint b64_bytes (vs : list Z) : Buffer :=
  match vs with
  | v0 :: v1 :: v2 :: v3 :: rest =>
      dec0 v0 v1 :: dec1 v1 v2 :: dec2 v2 v3 :: b64_bytes rest
  | [v0; v1; v2] => [dec0 v0 v1; dec1 v1 v2]
  | [v0; v1] => [dec0 v0 v1]
  | _ => []
  end.

(** [Buffer.from(s, "base64url")] *)
Definition Buffer_from_base64url (s : string) : Buffer :=
  b64_bytes (b64_sextets s).

(** [timingSafeEqual(a, b)] on buffers of one length: byte-wise
    equality (the running time is not modelled). *)
Fixpoint timingSafeEqual (a b : Buffer) : bool :=
  match a, b with
  | [], [] => true
  | x :: a', y :: b' => Z.eqb x y && timingSafeEqual a' b'
  | _, _ => false
  end.

(** *** SHA-256 (FIPS 180-4) on 32-bit words held in [Z] *)

Definition w32 (x : Z) : Z := x mod 4294967296.
Definition add32 (x y : Z) : Z := w32 (x + y).
Definition rotr (n x : Z) : Z :=
  w32 (Z.lor (Z.shiftr x n) (Z.shiftl x (32 - n))).
Definition not32 (x : Z) : Z := Z.lxor x 4294967295.

Definition Ch (x y z : Z) : Z := Z.lxor (Z.land x y) (Z.land (not32 x) z).
Definition Maj (x y z : Z) : Z :=
  Z.lxor (Z.lxor (Z.land x y) (Z.land x z)) (Z.land y z).
Definition Sigma0 (x : Z) : Z := Z.lxor (Z.lxor (rotr 2 x) (rotr 13 x)) (rotr 22 x).
Definition Sigma1 (x : Z) : Z := Z.lxor (Z.lxor (rotr 6 x) (rotr 11 x)) (rotr 25 x).
Definition sigma0 (x : Z) : Z := Z.lxor (Z.lxor (rotr 7 x) (rotr 18 x)) (Z.shiftr x 3).
Definition sigma1 (x : Z) : Z := Z.lxor (Z.lxor (rotr 17 x) (rotr 19 x)) (Z.shiftr x 10).

(** The first [n] primes, by trial division. *)
Fixpoint primes_from (fuel : nat) (n : nat) (candidate : Z) (found : list Z)
  : list Z :=
  match fuel, n with
  | _, O => rev found
  | O, _ => rev found
  | S fuel', S n' =>
      if forallb (fun p => negb (candidate mod p =? 0)%Z) found
      then primes_from fuel' n' (candidate + 1) (candidate :: found)
      else primes_from fuel' n (candidate + 1) found
  end.

Definition first_primes (n : nat) : list Z := primes_from 400 n 2 [].

(** The integer cube root of [x < 2^(3 * bits)], one bit at a time. *)
Fixpoint cube_root_bits (bits : nat) (x root : Z) : Z :=
  match bits with
  | O => root
  | S bits' =>
      let r := (root + 2 ^ Z.of_nat bits')%Z in
      cube_root_bits bits' x (if (r * r * r <=? x)%Z then r else root)
  end.

(** The round constants: the first 32 bits of the fractional parts of the
    cube roots of the first 64 primes. *)
Definition K256 : list Z :=
  Eval vm_compute in
    map (fun p => w32 (cube_root_bits 36 (p * 2 ^ 96) 0)) (first_primes 64).

(** The initial hash value: the first 32 bits of the fractional parts of
    the square roots of the first 8 primes. *)
Definition H256 : list Z :=
  Eval vm_compute in
    map (fun p => w32 (Z.sqrt (p * 2 ^ 64))) (first_primes 8).

(** Big-endian bytes of a word and back. *)
Definition be_bytes (n : nat) (x : Z) : list Z :=
  map (fun i => Z.land (Z.shiftr x (8 * Z.of_nat i)) 255) (rev (seq 0 n)).

Fixpoint be_words (bs : list Z) : list Z :=
  match bs with
  | b0 :: b1 :: b2 :: b3 :: rest =>
      (Z.lor (Z.lor (Z.shiftl b0 24) (Z.shiftl b1 16))
             (Z.lor (Z.shiftl b2 8) b3))
      :: be_words rest
  | _ => []
  end.

(** The message followed by the bit 1, zeros, and its length in bits on
    64 bits: a whole number of 64-byte blocks. *)
Definition sha256_pad (msg : list Z) : list Z :=
  let l := Z.of_nat (List.length msg) in
  let zeros := Z.to_nat ((55 - l) mod 64) in
  msg ++ [128%Z] ++ repeat 0%Z zeros ++ be_bytes 8 (8 * l).

(** The message schedule: the last 16 words give the next one. *)
Fixpoint schedule (n : nat) (window : list Z) : list Z :=
  match n with
  | O => []
  | S n' =>
      match window with
      | w0 :: tl =>
          let w1 := nth 0 tl 0%Z in
          let w9 := nth 8 tl 0%Z in
          let w14 := nth 13 tl 0%Z in
          let w := add32 (add32 (sigma1 w14) w9) (add32 (sigma0 w1) w0) in
          w :: schedule n' (tl ++ [w])
      | [] => []
      end
  end.

Definition round (st : list Z) (kw : Z * Z) : list Z :=
  match st with
  | [a; b; c; d; e; f; g; h] =>
      let t1 := add32 (add32 (add32 h (Sigma1 e)) (add32 (Ch e f g) (fst kw)))
                      (snd kw) in
      let t2 := add32 (Sigma0 a) (Maj a b c) in
      [add32 t1 t2; a; b; c; add32 d t1; e; f; g]
  | _ => st
  end.

Definition compress (h : list Z) (block : list Z) : list Z :=
  let w16 := be_words block in
  let w := w16 ++ schedule 48 w16 in
  let st := fold_left round (combine K256 w) h in
  map (fun p => add32 (fst p) (snd p)) (combine h st).

Fixpoint blocks (n : nat) (bs : list Z) : list (list Z) :=
  match n with
  | O => []
  | S n' => firstn 64 bs :: blocks n' (skipn 64 bs)
  end.

Definition sha256 (msg : list Z) : list Z :=
  let padded := sha256_pad msg in
  let bl := blocks (List.length padded / 64) padded in
  flat_map (be_bytes 4) (fold_left compress bl H256).

(** *** HMAC (RFC 2104) with SHA-256, block size 64 *)

Definition hmac_sha256 (key msg : list Z) : list Z :=
  let key0 := if (64 <? Z.of_nat (List.length key))%Z then sha256 key else key in
  let key64 := key0 ++ repeat 0%Z (64 - List.length key0) in
  let ipad := map (fun k => Z.lxor k 54) key64 in
  let opad := map (fun k => Z.lxor k 92) key64 in
  sha256 (opad ++ sha256 (ipad ++ msg)).

(** [createHmac("sha256", secret).update(data).digest("base64url")] *)
Definition createHmac_sha256_base64url (secret data : string) : string :=
  b64url_encode (hmac_sha256 (Buffer_from secret) (Buffer_from data)).

Definition hex_of (bs : list Z) : string :=
  let hexd (v : Z) : ascii :=
    match String.get (Z.to_nat v) "0123456789abcdef" with
    | Some c => c
    | None => "?"%char
    end in
  string_of_list_ascii
    (flat_map (fun b => [hexd (Z.shiftr b 4); hexd (Z.land b 15)]) bs).

(** *** Ranges, and the values below a bound *)

Definition is_byte (b : Z) : Prop := (0 <= b < 256)%Z.
Definition is_sextet (v : Z) : Prop := (0 <= v < 64)%Z.
Definition in_range (n v : Z) : bool := ((0 <=? v) && (v <? n))%Z.

(** [0, 1, ..., n - 1] *)
Definition below (n : nat) : list Z := map Z.of_nat (seq 0 n).

End NodeCrypto.

(** ** Token verification ([persist-user-identity/src/jwt.ts]) *)

Module Jwt.
Import Js Json NodeCrypto.

Inductive AuthMode := jwt_hs256 | verify_endpoint.

Record AuthConfig := {
  mode : AuthMode;
  jwtSecret : option string;
  verifyEndpoint : option string;
  issuer : option string;
  audience : option string
}.

(** The decoded claim set, at the declared type [JWTPayload]: the claims
    that the type declares as strings or as a number are held at that
    type, [iss] and [aud] are only compared and stay JSON values, and
    [claims] is the whole decoded object. *)
Record JWTPayload := {
  sub : option string;
  given_name : option string;
  family_name : option string;
  name : option string;
  email : option string;
  exp : option Z;
  iss : option json;
  aud : option json;
  claims : json
}.

(** An external id as the verifier returns it. Its declared type is
    [string]; the casts of the source are not checked, so at run time it
    is what the token or the endpoint holds: a string or a number. *)
Inductive IdValue :=
| IdString (s : string)
| IdNumber (n : Z).

(** The text of an id: what a template literal shows and what the store
    receives as a parameter. *)
Definition id_text (v : IdValue) : string :=
  match v with
  | IdString s => s
  | IdNumber n => string_of_Z n
  end.

(** Normalized result from any verification method (its [email] field is
    [emailAddress] here, the name being taken by [JWTPayload]). *)
Record VerifiedIdentity := {
  externalIdValue : IdValue;
  firstName : option string;
  lastName : option string;
  emailAddress : option string;
  raw : json
}.

(** The external id, as a text. *)
Definition externalId (v : VerifiedIdentity) : string :=
  id_text (externalIdValue v).

(** *** The values of claims at run time *)

(** Truthiness of [obj.key]. *)
Definition truthy (v : option json) : bool :=
  match v with
  | None | Some JNull | Some (JBool false) => false
  | Some (JBool true) => true
  | Some (JNum n) => negb (n =? 0)%Z
  | Some (JStr s) => truthy_str s
  | Some (JArr _) | Some (JObj _) => true
  end.

(** A value used where a string or nothing is expected: absent or [null]
    is [Some None], a string is [Some (Some s)]; a value of another type
    is passed on as it is by the program and is not represented
    ([None]). *)
Definition text_value (v : option json) : option (option string) :=
  match v with
  | None | Some JNull => Some None
  | Some (JStr s) => Some (Some s)
  | Some _ => None
  end.

(** A truthy value used as an external id: a string or a number; a value
    of another type is not represented. *)
Definition id_value (v : option json) : option IdValue :=
  match v with
  | Some (JStr s) => Some (IdString s)
  | Some (JNum n) => Some (IdNumber n)
  | _ => None
  end.

(** A member declared [string]: absent or [null] is [Some None], a string
    is [Some (Some s)], a value of another type is [None]. *)
Definition string_member (key : string) (j : json) : option (option string) :=
  text_value (get key j).

(** A member declared [number], likewise. *)
Definition number_member (key : string) (j : json) : option (option Z) :=
  match get key j with
  | None | Some JNull => Some None
  | Some (JNum n) => Some (Some n)
  | Some _ => None
  end.

(** The typed view of a decoded value that inhabits the declared type
    [JWTPayload]: an object, an array, a number or a boolean whose
    declared claims, where present, have their declared types. The cast
    [as JWTPayload] of the source is the identity: this view is used to
    state properties, [verifyHS256] below reads the decoded value
    itself. *)
Definition asJWTPayload (j : json) : option JWTPayload :=
  match j with
  | JNull | JStr _ => None
  | _ =>
      match string_member "sub" j, string_member "given_name" j,
            string_member "family_name" j, string_member "name" j,
            string_member "email" j, number_member "exp" j with
      | Some s, Some g, Some f, Some n, Some e, Some x =>
          Some {| sub := s; given_name := g; family_name := f; name := n;
                  email := e; exp := x;
                  iss := get "iss" j; aud := get "aud" j; claims := j |}
      | _, _, _, _, _, _ => None
      end
  end.

(** The text of the payload segment:
    [Buffer.from(payload, "base64url").toString()]. *)
Definition payloadText (payload : string) : string :=
  Buffer_toString (Buffer_from_base64url payload).

(** [JSON.parse(Buffer.from(payload, "base64url").toString())] *)
Definition parsePayload (payload : string) : Completion json :=
  if utf8_valid (payloadText payload)
  then JSON_parse (payloadText payload)
  else Beyond.

(** The payload segments that decode to a claim set of the declared
    type. *)
Definition decodePayload (payload : string) : option JWTPayload :=
  match parsePayload payload with
  | Returns j => asJWTPayload j
  | _ => None
  end.

(** [Math.floor(Date.now() / 1000)] *)
Definition nowSeconds (nowMs : Z) : Z := (nowMs / 1000)%Z.

(** [decoded.exp && decoded.exp < now] for a number: a missing [exp] and
    [exp = 0] are falsy. *)
Definition expired (x : option Z) (now : Z) : bool :=
  match x with
  | Some e => negb (e =? 0)%Z && (e <? now)%Z
  | None => false
  end.

(** [decoded.exp && decoded.exp < now] for any value of [decoded.exp]:
    [true] compares as 1; the comparison of a non-empty string, an array
    or an object with a number is not represented ([None]). *)
Definition exp_expired (v : option json) (now : Z) : option bool :=
  match v with
  | None | Some JNull | Some (JBool false) => Some false
  | Some (JBool true) => Some (1 <? now)%Z
  | Some (JNum n) => Some (expired (Some n) now)
  | Some (JStr s) => if truthy_str s then None else Some false
  | Some (JArr _) | Some (JObj _) => None
  end.

(** [config.issuer && iss !== config.issuer] *)
Definition iss_differs (config : AuthConfig) (iss : option json) : bool :=
  match issuer config with
  | Some i =>
      truthy_str i &&
      negb (match iss with
            | Some (JStr s) => String.eqb s i
            | _ => false
            end)
  | None => false
  end.

Definition issuer_mismatch (config : AuthConfig) (decoded : JWTPayload) : bool :=
  iss_differs config (iss decoded).

(** [Array.isArray(aud) ? aud : [aud]], then
    [aud.includes(config.audience)]: only a string element can equal the
    configured audience. *)
Definition aud_lacks (config : AuthConfig) (aud : option json) : bool :=
  match audience config with
  | Some a =>
      truthy_str a &&
      let auds := match aud with
                  | Some (JArr items) => items
                  | Some v => [v]
                  | None => []
                  end in
      negb (existsb (fun v => match v with
                              | JStr s => String.eqb s a
                              | _ => false
                              end) auds)
  | None => false
  end.

Definition audience_mismatch (config : AuthConfig) (decoded : JWTPayload) : bool :=
  aud_lacks config (aud decoded).

(** The identity returned for an id, the name claims, the parts of the
    display name, the email and the decoded value. *)
Definition identityOf (id : IdValue) (given family : option string)
  (nameParts : list string) (email : option string) (decoded : json)
  : VerifiedIdentity :=
  {| externalIdValue := id;
     firstName := match given with
                  | Some g => Some g
                  | None => nth_error nameParts 0
                  end;
     lastName := match family with
                 | Some f => Some f
                 | None =>
                     let l := join " " (slice 1 nameParts) in
                     if truthy_str l then Some l else None
                 end;
     emailAddress := email;
     raw := decoded |}.

(** [decoded.name?.split(" ") ?? []] *)
Definition nameParts_of (name : option string) : list string :=
  match name with
  | Some n => split " " n
  | None => []
  end.

Definition identityOfClaims (decoded : JWTPayload) (subject : string)
  : VerifiedIdentity :=
  identityOf (IdString subject) (given_name decoded) (family_name decoded)
    (nameParts_of (name decoded)) (email decoded) (claims decoded).

(** The checks of [verifyHS256] on the decoded value, from the expiry
    check on. A decoded [null] makes [decoded.exp] throw; of a decoded
    string, [decoded.sub] is the method [String.prototype.sub], which is
    truthy and is returned as the external id (not represented); a
    [name] that is neither a string nor [null] has no [split] method, so
    the call throws. *)
Definition verifyClaims (decoded : json) (config : AuthConfig) (nowMs : Z)
  : Completion (option VerifiedIdentity) :=
  match decoded with
  | JNull => Throws TypeError
  | _ =>
      (* Check expiry *)
      match exp_expired (get "exp" decoded) (nowSeconds nowMs) with
      | None => Beyond
      | Some true => Returns None
      | Some false =>
          (* Check issuer *)
          if iss_differs config (get "iss" decoded) then Returns None
          (* Check audience *)
          else if aud_lacks config (get "aud" decoded) then Returns None
          else
            (* Extract identity: require the sub claim *)
            match decoded with
            | JStr _ => Beyond
            | _ =>
                if negb (truthy (get "sub" decoded)) then Returns None
                else
                  match text_value (get "name" decoded) with
                  | None => Throws TypeError
                  | Some name =>
                      match id_value (get "sub" decoded),
                            text_value (get "given_name" decoded),
                            text_value (get "family_name" decoded),
                            text_value (get "email" decoded) with
                      | Some id, Some given, Some family, Some email =>
                          Returns (Some (identityOf id given family
                                           (nameParts_of name) email decoded))
                      | _, _, _, _ => Beyond
                      end
                  end
            end
      end
  end.

(** [Returns None] is the [null] of the source. [verifyToken] calls this
    function with a secret. *)
Definition verifyHS256 (token : string) (config : AuthConfig) (nowMs : Z)
  : Completion (option VerifiedIdentity) :=
  match split "." token, jwtSecret config with
  | [header; payload; signature], Some secret =>
      (* Verify signature *)
      let expected := createHmac_sha256_base64url secret (header ++ "." ++ payload) in
      let sigBuf := Buffer_from_base64url signature in
      let expBuf := Buffer_from_base64url expected in
      if negb (len sigBuf =? len expBuf)%Z || negb (timingSafeEqual sigBuf expBuf)
      then Returns None
      else
        match parsePayload payload with
        | Throws _ => Returns None
        | Beyond => Beyond
        | Returns decoded => verifyClaims decoded config nowMs
        end
  | _, _ => Returns None
  end.

(** What [fetch(endpoint, { method: "POST", body: { token }, signal:
    AbortSignal.timeout(10_000) })] settles to: a rejection (transport
    failure or time-out) or a response with its [ok] flag and the text of
    its body, as [res.json()] decodes it before parsing. *)
Inductive FetchResult :=
| FetchRejected
| FetchResponse (ok : bool) (body : string).

(** The remote verification peer: endpoint and posted token to result. *)
Definition Fetch := string -> string -> FetchResult.

(** The whole body of the function is in a [try] whose [catch] returns
    [null]: a body that does not parse and a body [null], of which
    [data.user_id] throws, give [null]. Of a body that is a string,
    [data.sub] is the method [String.prototype.sub] (not represented). *)
Definition verifyViaEndpoint (fetch : Fetch) (token endpoint : string)
  : Completion (option VerifiedIdentity) :=
  match fetch endpoint token with
  | FetchRejected => Returns None
  | FetchResponse ok body =>
      if negb ok then Returns None
      else
        match JSON_parse body with
        | Throws _ => Returns None
        | Beyond => Beyond
        | Returns JNull => Returns None
        | Returns (JStr _) => Beyond
        | Returns data =>
            let externalId := match get "user_id" data with
                              | None | Some JNull => get "sub" data
                              | Some v => Some v
                              end in
            if negb (truthy externalId) then Returns None
            else
              match id_value externalId,
                    text_value (get "first_name" data),
                    text_value (get "last_name" data),
                    text_value (get "email" data) with
              | Some id, Some fn, Some ln, Some em =>
                  Returns (Some {| externalIdValue := id; firstName := fn;
                                   lastName := ln; emailAddress := em;
                                   raw := data |})
              | _, _, _, _ => Beyond
              end
        end
  end.

Definition verifyToken (fetch : Fetch) (token : string) (config : AuthConfig)
  (nowMs : Z) : Completion (option VerifiedIdentity) :=
  match mode config with
  | jwt_hs256 =>
      if truthy_ostr (jwtSecret config) then verifyHS256 token config nowMs
      else Returns None
  | verify_endpoint =>
      match verifyEndpoint config with
      | Some endpoint =>
          if truthy_str endpoint then verifyViaEndpoint fetch token endpoint
          else Returns None
      | None => Returns None
      end
  end.

(** *** Notions used to state the properties of [verifyHS256] *)

(** A token that passes every check of [verifyHS256] but, possibly, the
    expiry one: three segments, a signature that decodes to the keyed hash
    of [header.payload], a payload that decodes to [decoded], no issuer or
    audience mismatch, and a non-empty subject. *)
Inductive otherwise_valid (token : string) (config : AuthConfig)
  (decoded : JWTPayload) (subject : string) : Prop :=
| OtherwiseValid (header payload signature secret : string) :
    split "." token = [header; payload; signature] ->
    jwtSecret config = Some secret ->
    Buffer_from_base64url signature =
      hmac_sha256 (Buffer_from secret) (Buffer_from (header ++ "." ++ payload)) ->
    decodePayload payload = Some decoded ->
    issuer_mismatch config decoded = false ->
    audience_mismatch config decoded = false ->
    sub decoded = Some subject ->
    truthy_str subject = true ->
    otherwise_valid token config decoded subject.

(** [t] is [s] with exactly one character replaced by another one. *)
Fixpoint one_char_changed (s t : string) : bool :=
  match s, t with
  | String a s', String b t' =>
      if Ascii.eqb a b then one_char_changed s' t' else String.eqb s' t'
  | _, _ => false
  end.

End Jwt.

(** ** The PostgreSQL store: statements as state transformers that may throw *)

Module Pg.

(** A UUID in its text form. *)
Definition uuid := string.

(** [gen_random_uuid()]: the store is taken never to draw the same value
    twice, which a counter kept in the store gives; the [n]-th draw is
    rendered as a distinct text. *)
Definition gen_random_uuid (n : nat) : uuid :=
  "uuid-" ++ NilEmpty.string_of_uint (Nat.to_uint n).

(** The errors that the schemas of the two extensions can raise. *)
Inductive PgError :=
| unique_violation
| foreign_key_violation
| string_data_right_truncation
| numeric_value_out_of_range.

(** What a handler or a hook can throw: an error of the store, the error
    of the client for a parameter that is [undefined], or an exception of
    the run time. [Unmodelled] is no exception of the program: it marks a
    run that reaches a value which the embedding does not represent (see
    [Js.Completion]); nothing is stated about the program on such a
    run. *)
Inductive Exception :=
| Postgres (e : PgError)
| UndefinedValue
| Javascript (e : Js.JsError)
| Unmodelled.
Coercion Postgres : PgError >-> Exception.

(** A statement either returns a value or throws; both leave a store. *)
Inductive Outcome (S A : Type) :=
| Returned (a : A) (s : S)
| Thrown (e : Exception) (s : S).
Arguments Returned {S A} a s.
Arguments Thrown {S A} e s.

Definition M (S A : Type) : Type := S -> Outcome S A.

Definition ret {S A} (a : A) : M S A := fun s => Returned a s.
Definition throw {S A} (e : Exception) : M S A := fun s => Thrown e s.
Definition bind {S A B} (m : M S A) (k : A -> M S B) : M S B :=
  fun s => match m s with
           | Returned a s' => k a s'
           | Thrown e s' => Thrown e s'
           end.
Definition get {S} : M S S := fun s => Returned s s.
Definition put {S} (s : S) : M S unit := fun _ => Returned tt s.

(** The store left by an outcome. *)
Definition store_of {S A} (o : Outcome S A) : S :=
  match o with Returned _ s => s | Thrown _ s => s end.

(** *** [VARCHAR(n)]

    The length of a value is counted in characters. A value of more than
    [n] characters is refused (error 22001) unless the characters in
    excess are all spaces, in which case it is stored cut to [n]
    characters. *)

(** A byte that continues a character of UTF-8 ([10xxxxxx]). *)
Definition is_continuation (c : ascii) : bool :=
  let n := nat_of_ascii c in (128 <=? n)%nat && (n <? 192)%nat.

(** The number of characters: the bytes that start one. *)
Fixpoint char_length (s : string) : nat :=
  match s with
  | EmptyString => 0
  | String c rest =>
      if is_continuation c then char_length rest else S (char_length rest)
  end.

(** The first [n] characters of [s], and what follows them. *)
Fixpoint take_chars (n : nat) (s : string) : string :=
  match s with
  | EmptyString => EmptyString
  | String c rest =>
      if is_continuation c then String c (take_chars n rest)
      else match n with
           | O => EmptyString
           | S n' => String c (take_chars n' rest)
           end
  end.

Fixpoint drop_chars (n : nat) (s : string) : string :=
  match s with
  | EmptyString => EmptyString
  | String c rest =>
      if is_continuation c then drop_chars n rest
      else match n with
           | O => s
           | S n' => drop_chars n' rest
           end
  end.

Fixpoint all_spaces (s : string) : bool :=
  match s with
  | EmptyString => true
  | String c rest => Ascii.eqb c " " && all_spaces rest
  end.

(** A text without NUL character. The server refuses a parameter that
    holds one (error 22021); the statements of the store are modelled for
    parameters without one. *)
Fixpoint no_nul (s : string) : bool :=
  match s with
  | EmptyString => true
  | String c rest => negb (Ascii.eqb c Ascii.zero) && no_nul rest
  end.

(** The value fits the column as it is. *)
Definition fits (n : nat) (s : string) : bool := (char_length s <=? n)%nat.
Definition fits_opt (n : nat) (s : option string) : bool :=
  match s with Some s => fits n s | None => true end.

(** What a column of type [VARCHAR(n)] stores when it is assigned [s];
    [None] when the value is refused. *)
Definition varchar (n : nat) (s : string) : option string :=
  if fits n s then Some s
  else if all_spaces (drop_chars n s) then Some (take_chars n s)
  else None.

(** Likewise for a value that may be [NULL]. *)
Definition varchar_opt (n : nat) (s : option string) : option (option string) :=
  match s with
  | Some s => option_map Some (varchar n s)
  | None => Some None
  end.

(** The largest [INTEGER]. *)
Definition int4_max : Z := 2147483647.

End Pg.

Declare Scope pg_scope.
Delimit Scope pg_scope with pg.
Notation "x <- m ;; k" := (Pg.bind m (fun x => k))
(at level 61, m at next level, right associativity) : pg_scope.
Notation "m ;;; k" := (Pg.bind m (fun _ => k))
(at level 61, right associativity) : pg_scope.

(** ** The message ledger ([persist-postgres/src/db.ts] and [index.ts]) *)

Module Ledger.
Import Js Json Pg.
Local Open Scope pg_scope.

(** A row of [lp_conversations]. *)
Record PgSessionRow := {
  id : uuid;
  session_key : string;
  channel : string;
  started_at : Z;
  last_message_at : Z;
  message_count : Z
}.

(** A row of [lp_messages]. *)
Record PgMessageRow := {
  message_id : uuid;
  conversation_id : uuid;
  role : string;
  content : string;
  created_at : Z;
  metadata : json
}.

Record Db := {
  lp_conversations : list PgSessionRow;
  lp_messages : list PgMessageRow;
  uuid_seq : nat
}.

Definition empty : Db :=
  {| lp_conversations := []; lp_messages := []; uuid_seq := 0 |}.

Record UpsertOpts := {
  sessionKey : string;
  opt_channel : string;
  startedAt : option Z;
  lastMessageAt : option Z
}.

Record InsertOpts := {
  conversationId : uuid;
  opt_role : string;
  opt_content : string;
  opt_metadata : option json
}.

(** The [DO UPDATE SET] of the upsert, on the row in conflict. *)
Definition on_conflict_update (excluded_last_message_at : Z) (r : PgSessionRow)
  : PgSessionRow :=
  {| id := id r;
     session_key := session_key r;
     channel := channel r;
     started_at := started_at r;
     last_message_at := excluded_last_message_at;
     message_count := message_count r + 1 |}.

(** [INSERT INTO lp_conversations ... ON CONFLICT (session_key) DO UPDATE
    SET last_message_at = EXCLUDED.last_message_at, message_count =
    lp_conversations.message_count + 1 RETURNING *]; [now] is the
    [new Date()] taken by the function. *)
Definition upsertConversation (opts : UpsertOpts) (now : Z) : M Db PgSessionRow :=
  db <- get ;;
  match varchar 512 (sessionKey opts), varchar 50 (opt_channel opts) with
  | Some key, Some chan =>
      match find (fun r => String.eqb (session_key r) key)
                 (lp_conversations db) with
      | Some r =>
          let r' := on_conflict_update (nullish (lastMessageAt opts) now) r in
          if (int4_max <? message_count r')%Z
          then throw numeric_value_out_of_range
          else
            put {| lp_conversations :=
                     map (fun x => if String.eqb (session_key x) key
                                   then r' else x)
                         (lp_conversations db);
                   lp_messages := lp_messages db;
                   uuid_seq := uuid_seq db |} ;;;
            ret r'
      | None =>
          let r := {| id := gen_random_uuid (uuid_seq db);
                      session_key := key;
                      channel := chan;
                      started_at := nullish (startedAt opts) now;
                      last_message_at := nullish (lastMessageAt opts) now;
                      message_count := 0 |} in
          put {| lp_conversations := lp_conversations db ++ [r];
                 lp_messages := lp_messages db;
                 uuid_seq := S (uuid_seq db) |} ;;;
          ret r
      end
  | _, _ => throw string_data_right_truncation
  end.

(** [INSERT INTO lp_messages (conversation_id, role, content, metadata)
    ... RETURNING *]; [dbNow] is the store's [now()], the default of
    [created_at]. *)
Definition insertMessage (opts : InsertOpts) (dbNow : Z) : M Db PgMessageRow :=
  db <- get ;;
  match varchar 20 (opt_role opts) with
  | None => throw string_data_right_truncation
  | Some stored_role =>
      if negb (existsb (fun r => String.eqb (id r) (conversationId opts))
                       (lp_conversations db))
      then throw foreign_key_violation
      else
        let m := {| message_id := gen_random_uuid (uuid_seq db);
                    conversation_id := conversationId opts;
                    role := stored_role;
                    content := opt_content opts;
                    created_at := dbNow;
                    metadata := nullish (opt_metadata opts) (JObj []) |} in
        put {| lp_conversations := lp_conversations db;
               lp_messages := lp_messages db ++ [m];
               uuid_seq := S (uuid_seq db) |} ;;;
        ret m
  end.

(** The message rows attached to a conversation. *)
Definition messages_of (db : Db) (conv : uuid) : list PgMessageRow :=
  filter (fun m => String.eqb (conversation_id m) conv) (lp_messages db).

(** The conversation row of a session key. *)
Definition conversation (db : Db) (key : string) : option PgSessionRow :=
  find (fun r => String.eqb (session_key r) key) (lp_conversations db).

(** *** The hooks of [index.ts] that persist a turn of the agent *)

(** A [content] of type [unknown]: a string, or a value of another type,
    of which the hook takes [JSON.stringify(content)]. That is a text, or
    no text: [undefined] for a content that is [undefined], a function or
    a symbol, which the client then refuses as a parameter, or an
    exception for a cyclic value. Either error is caught by the hook. *)
Inductive Content :=
| Text (s : string)
| Other (stringified : option string).
Coercion Text : string >-> Content.

(** [typeof content === "string" ? content : JSON.stringify(content)] *)
Definition content_text (c : Content) : option string :=
  match c with
  | Text s => Some s
  | Other stringified => stringified
  end.

(** An entry of [event.messages]. *)
Record AgentMessage := { msg_role : option string; msg_content : Content }.

(** [try { ... } catch (err) { api.logger.error(...) }]: the store as the
    hook leaves it, whether its body returned or threw. *)
Definition caught {A} (body : M Db A) (db : Db) : Db := store_of (body db).

(** The [before_agent_start] hook: persist the user prompt. *)
Definition before_agent_start (sessionKey : option string)
  (prompt : option string) (now : Z) : Db -> Db :=
  caught (
    conv <- upsertConversation
              {| sessionKey := nullish sessionKey "unknown";
                 opt_channel := "gateway";
                 startedAt := None;
                 lastMessageAt := Some now |} now ;;
    if truthy_ostr prompt
    then insertMessage {| conversationId := id conv;
                          opt_role := "user";
                          opt_content := nullish prompt EmptyString;
                          opt_metadata := None |} now ;;; ret tt
    else ret tt).

(** The [agent_end] hook: persist the last assistant message, if any. *)
Definition agent_end (sessionKey : option string)
  (messages : list AgentMessage) (now : Z) : Db -> Db :=
  caught (
    conv <- upsertConversation
              {| sessionKey := nullish sessionKey "unknown";
                 opt_channel := "gateway";
                 startedAt := None;
                 lastMessageAt := Some now |} now ;;
    let lastAssistant :=
      find (fun m => match msg_role m with
                     | Some r => String.eqb r "assistant"
                     | None => false
                     end) (rev messages) in
    match lastAssistant with
    | Some m =>
        match content_text (msg_content m) with
        | Some content =>
            insertMessage {| conversationId := id conv;
                             opt_role := "assistant";
                             opt_content := content;
                             opt_metadata := None |} now ;;; ret tt
        | None => throw UndefinedValue
        end
    | None => ret tt
    end).

End Ledger.

(** ** The identity store ([persist-user-identity/src/db.ts]) *)

Module IdentityDb.
Import Js Pg.
Local Open Scope pg_scope.

(** A row of [lp_users]. *)
Record UserRow := {
  id : uuid;
  external_id : option string;
  first_name : option string;
  last_name : option string;
  created_at : Z;
  updated_at : Z
}.

(** A row of [lp_user_channels]. *)
Record UserChannelRow := {
  link_id : uuid;
  user_id : uuid;
  channel : string;
  channel_peer_id : string;
  linked_at : Z
}.

(** Joined result from user + channel lookup: [UserRow & { channel,
    channel_peer_id, verified }]. *)
Record ResolvedIdentity := {
  user : UserRow;
  resolved_channel : string;
  resolved_peer_id : string;
  verified : bool
}.

Record Db := {
  lp_users : list UserRow;
  lp_user_channels : list UserChannelRow;
  uuid_seq : nat
}.

Definition empty : Db :=
  {| lp_users := []; lp_user_channels := []; uuid_seq := 0 |}.

Definition is_some {A} (o : option A) : bool :=
  match o with Some _ => true | None => false end.

Definition same_peer (channel channelPeerId : string) (uc : UserChannelRow)
  : bool :=
  String.eqb (IdentityDb.channel uc) channel
  && String.eqb (channel_peer_id uc) channelPeerId.

(** [SELECT u.*, uc.channel, uc.channel_peer_id, (u.external_id IS NOT
    NULL) AS verified FROM lp_users u JOIN lp_user_channels uc ON
    uc.user_id = u.id WHERE uc.channel = .. AND uc.channel_peer_id = ..
    LIMIT 1] *)
Definition findUserByChannelPeer (db : Db) (channel channelPeerId : string)
  : option ResolvedIdentity :=
  hd_error
    (flat_map
       (fun u =>
          map (fun uc => {| user := u;
                            resolved_channel := IdentityDb.channel uc;
                            resolved_peer_id := channel_peer_id uc;
                            verified := is_some (external_id u) |})
              (filter (fun uc => String.eqb (user_id uc) (id u)
                                 && same_peer channel channelPeerId uc)
                      (lp_user_channels db)))
       (lp_users db)).

Definition has_external_id (externalId : string) (u : UserRow) : bool :=
  match external_id u with
  | Some e => String.eqb e externalId
  | None => false
  end.

(** [SELECT * FROM lp_users WHERE external_id = .. LIMIT 1] *)
Definition findUserByExternalId (db : Db) (externalId : string)
  : option UserRow :=
  find (has_external_id externalId) (lp_users db).

Record CreateUserOpts := {
  firstName : option string;
  lastName : option string;
  externalId : option string
}.

(** [INSERT INTO lp_users (first_name, last_name, external_id) VALUES
    (..) RETURNING *]; [external_id] is [UNIQUE]. *)
Definition createUser (opts : CreateUserOpts) (dbNow : Z) : M Db UserRow :=
  db <- get ;;
  match varchar_opt 128 (firstName opts), varchar_opt 128 (lastName opts),
        varchar_opt 256 (externalId opts) with
  | Some first, Some last, Some ext =>
      if match ext with
         | Some e => existsb (has_external_id e) (lp_users db)
         | None => false
         end
      then throw unique_violation
      else
        let u := {| id := gen_random_uuid (uuid_seq db);
                    external_id := ext;
                    first_name := first;
                    last_name := last;
                    created_at := dbNow;
                    updated_at := dbNow |} in
        put {| lp_users := lp_users db ++ [u];
               lp_user_channels := lp_user_channels db;
               uuid_seq := S (uuid_seq db) |} ;;;
        ret u
  | _, _, _ => throw string_data_right_truncation
  end.

(** The [DO UPDATE SET user_id = EXCLUDED.user_id, linked_at = now()] of
    the link upsert, on the row in conflict. *)
Definition relink (userId : uuid) (dbNow : Z) (uc : UserChannelRow)
  : UserChannelRow :=
  {| link_id := link_id uc;
     user_id := userId;
     channel := channel uc;
     channel_peer_id := channel_peer_id uc;
     linked_at := dbNow |}.

(** [INSERT INTO lp_user_channels (user_id, channel, channel_peer_id)
    VALUES (..) ON CONFLICT (channel, channel_peer_id) DO UPDATE SET
    user_id = EXCLUDED.user_id, linked_at = now() RETURNING *];
    [user_id] references [lp_users(id)]. *)
Definition linkChannelToUser (userId : uuid) (channel channelPeerId : string)
  (dbNow : Z) : M Db UserChannelRow :=
  db <- get ;;
  match varchar 50 channel, varchar 512 channelPeerId with
  | Some chan, Some peer =>
      if negb (existsb (fun u => String.eqb (id u) userId) (lp_users db))
      then throw foreign_key_violation
      else
        match find (same_peer chan peer) (lp_user_channels db) with
        | Some uc =>
            let uc' := relink userId dbNow uc in
            put {| lp_users := lp_users db;
                   lp_user_channels :=
                     map (fun x => if same_peer chan peer x
                                   then relink userId dbNow x else x)
                         (lp_user_channels db);
                   uuid_seq := uuid_seq db |} ;;;
            ret uc'
        | None =>
            let uc := {| link_id := gen_random_uuid (uuid_seq db);
                         user_id := userId;
                         channel := chan;
                         channel_peer_id := peer;
                         linked_at := dbNow |} in
            put {| lp_users := lp_users db;
                   lp_user_channels := lp_user_channels db ++ [uc];
                   uuid_seq := S (uuid_seq db) |} ;;;
            ret uc
        end
  | _, _ => throw string_data_right_truncation
  end.

(** [UPDATE lp_users SET first_name = .., last_name = .., updated_at =
    now() WHERE id = .. RETURNING *]; [rows[0]] is [undefined] when no row
    has that id. *)
Definition updateUserName (userId : uuid) (firstName lastName : string)
  (dbNow : Z) : M Db (option UserRow) :=
  db <- get ;;
  if negb (existsb (fun u => String.eqb (id u) userId) (lp_users db))
  then ret None
  else
    match varchar 128 firstName, varchar 128 lastName with
    | Some first, Some last =>
        let upd u := {| id := id u; external_id := external_id u;
                        first_name := Some first;
                        last_name := Some last;
                        created_at := created_at u;
                        updated_at := dbNow |} in
        put {| lp_users := map (fun u => if String.eqb (id u) userId
                                         then upd u else u) (lp_users db);
               lp_user_channels := lp_user_channels db;
               uuid_seq := uuid_seq db |} ;;;
        ret (option_map upd
               (find (fun u => String.eqb (id u) userId) (lp_users db)))
    | _, _ => throw string_data_right_truncation
    end.

(** The [UPDATE lp_users SET external_id = .., updated_at = now() WHERE
    id = ..] of [linkExternalId], on one row. *)
Definition set_external_id (externalId : string) (dbNow : Z) (u : UserRow)
  : UserRow :=
  {| id := id u; external_id := Some externalId;
     first_name := first_name u; last_name := last_name u;
     created_at := created_at u; updated_at := dbNow |}.

(** Upgrade a channel-only user to a verified user by setting their
    external_id. If a user with that external_id already exists, merges by
    re-linking the channel identity to the existing verified user. *)
Definition linkExternalId (userId : uuid) (externalId : string)
  (channel channelPeerId : string) (dbNow : Z) : M Db (option UserRow) :=
  db <- get ;;
  match findUserByExternalId db externalId with
  | Some existing =>
      (* Verified user already exists: re-link this channel to them *)
      linkChannelToUser (id existing) channel channelPeerId dbNow ;;;
      ret (Some existing)
  | None =>
      (* Upgrade current user to verified *)
      if negb (existsb (fun u => String.eqb (id u) userId) (lp_users db))
      then ret None
      else
        match varchar 256 externalId with
        | None => throw string_data_right_truncation
        | Some ext =>
            if existsb (fun u => has_external_id ext u
                                 && negb (String.eqb (id u) userId))
                       (lp_users db)
            then throw unique_violation
            else
              put {| lp_users :=
                       map (fun u => if String.eqb (id u) userId
                                     then set_external_id ext dbNow u
                                     else u) (lp_users db);
                     lp_user_channels := lp_user_channels db;
                     uuid_seq := uuid_seq db |} ;;;
              ret (option_map (set_external_id ext dbNow)
                     (find (fun u => String.eqb (id u) userId) (lp_users db)))
        end
  end.

(** Stable insertion by [linked_at], for [ORDER BY linked_at]. *)
Fixpoint insert_by_linked_at (uc : UserChannelRow) (l : list UserChannelRow)
  : list UserChannelRow :=
  match l with
  | [] => [uc]
  | x :: rest =>
      if (linked_at uc <=? linked_at x)%Z then uc :: l
      else x :: insert_by_linked_at uc rest
  end.

(** [SELECT * FROM lp_user_channels WHERE user_id = .. ORDER BY linked_at]
    (rows linked at the same time are kept in table order). *)
Definition listUserChannels (db : Db) (userId : uuid) : list UserChannelRow :=
  fold_right insert_by_linked_at []
    (filter (fun uc => String.eqb (user_id uc) userId) (lp_user_channels db)).

(** *** The constraints of the schema, as a property of a store *)

(** Primary keys of [lp_users] are distinct draws, [external_id] is
    unique where present, [(channel, channel_peer_id)] is unique, and
    every link references a user. *)
Record constraints_hold (db : Db) : Prop := {
  users_drawn : forall u, In u (lp_users db) ->
                  exists k, (k < uuid_seq db)%nat /\ id u = gen_random_uuid k;
  users_pk : NoDup (map id (lp_users db));
  external_id_unique :
    forall u u' e, In u (lp_users db) -> In u' (lp_users db) ->
      external_id u = Some e -> external_id u' = Some e -> u = u';
  peer_unique :
    NoDup (map (fun uc => (channel uc, channel_peer_id uc))
               (lp_user_channels db));
  links_fk : forall uc, In uc (lp_user_channels db) ->
               exists u, In u (lp_users db) /\ id u = user_id uc
}.

(** The link rows of a peer and the user rows of an external id. *)
Definition links_of_peer (db : Db) (channel channelPeerId : string)
  : list UserChannelRow :=
  filter (same_peer channel channelPeerId) (lp_user_channels db).

Definition users_with_external_id (db : Db) (externalId : string)
  : list UserRow :=
  filter (has_external_id externalId) (lp_users db).

(** The peer is linked to the user [u] of the store. *)
Definition linked_to (d : Db) (c p : string) (u : UserRow) : Prop :=
  In u (lp_users d) /\
  exists uc, In uc (lp_user_channels d) /\ same_peer c p uc = true /\
             user_id uc = id u.

End IdentityDb.

(** ** The [/verify] and [/register] commands
     ([persist-user-identity/src/index.ts]) *)

Module Commands.
Import Js Pg Jwt IdentityDb.
Local Open Scope pg_scope.

(** What the host passes to a command handler. *)
Record CommandCtx := {
  args : option string;
  ctx_channel : option string;
  senderId : option string;
  from : option string
}.

(** The state closed over by [register(api)]: the lazy-initialisation
    flags ([initError] holds whether an error is kept, not the error) and
    the store behind [sql]. *)
Record PluginState := {
  schemaReady : bool;
  initError : bool;
  db : Db
}.

(** What a run of a handler sees of the outside: whether the store
    answers [SELECT 1], the store's [now()], [Date.now()], and the remote
    verification peer. *)
Record Env := {
  reachable : bool;
  dbNow : Z;
  nowMs : Z;
  fetch : Fetch
}.

Record Reply := { text : string }.

(** [ensureReady()]: [true] when it returns, [false] when it throws. A
    failed initialisation is kept and thrown again without a new try;
    [ensureUserSchema] creates the two tables when they are missing and
    leaves their rows alone. *)
Definition ensureReady (env : Env) (st : PluginState) : bool * PluginState :=
  if schemaReady st then (true, st)
  else if initError st then (false, st)
  else if reachable env
  then (true, {| schemaReady := true; initError := initError st; db := db st |})
  else (false, {| schemaReady := schemaReady st; initError := true; db := db st |}).

Definition with_db (st : PluginState) (d : Db) : PluginState :=
  {| schemaReady := schemaReady st; initError := initError st; db := d |}.

(** A statement of the store, run by a handler. *)
Definition run {A} (m : M Db A) : M PluginState A :=
  fun st =>
    match m (db st) with
    | Returned a d => Returned a (with_db st d)
    | Thrown e d => Thrown e (with_db st d)
    end.

(** A query of the store, which leaves it as it is. *)
Definition query {A} (q : Db -> A) : M PluginState A :=
  fun st => Returned (q (db st)) st.

Definition verify_usage : string := "Usage: /verify <authorization_token>".
Definition verify_not_configured : string :=
  "Token verification is not configured on this agent. Please contact the administrator.".
Definition service_unavailable : string :=
  "Identity service is temporarily unavailable.".
Definition verify_failed : string :=
  "Token verification failed. Please check your token and try again.".

Definition already_verified (existingLink : ResolvedIdentity) : string :=
  trim ("You're already verified as "
        ++ nullish (first_name (user existingLink)) EmptyString ++ " "
        ++ nullish (last_name (user existingLink)) EmptyString
        ++ ". No changes made.").

Definition or_else {A} (a b : option A) : option A :=
  match a with Some _ => a | None => b end.

Definition verified_text (u : UserRow) (v : VerifiedIdentity)
  (channels : list UserChannelRow) : string :=
  let channelList :=
    join ", " (map (fun c => channel c ++ ":" ++ channel_peer_id c) channels) in
  let name :=
    trim (nullish (or_else (first_name u) (Jwt.firstName v)) EmptyString ++ " "
          ++ nullish (or_else (last_name u) (Jwt.lastName v)) EmptyString) in
  "Identity verified! Welcome"
  ++ (if truthy_str name then ", " ++ name else EmptyString) ++ "." ++ nl
  ++ "Your user ID: " ++ id u ++ nl
  ++ "Linked channels: " ++ channelList.

(** [existingLink?.external_id === verified.externalId]: a stored
    external id is a string, which an id that is a number never equals. *)
Definition same_external_id (verified : VerifiedIdentity) (u : UserRow) : bool :=
  match externalIdValue verified with
  | IdString e => has_external_id e u
  | IdNumber _ => false
  end.

(** The handler of [/verify <token>], from the point where the token is
    verified: find or create the user of the verified identity and link
    the peer to it. In the statements of the store the external id is a
    parameter, which the client sends as its text. *)
Definition linkVerifiedIdentity (env : Env) (verified : VerifiedIdentity)
  (channel peerId : string) : M PluginState Reply :=
  (* Check if this channel identity is already linked to a user *)
  existingLink <- query (fun d => findUserByChannelPeer d channel peerId) ;;
  if match existingLink with
     | Some l => same_external_id verified (user l)
     | None => false
     end
  then ret {| text := match existingLink with
                      | Some l => already_verified l
                      | None => EmptyString
                      end |}
  else
    (* Find or create the verified user *)
    found <- query (fun d => findUserByExternalId d (Jwt.externalId verified)) ;;
    u <- match found with
         | Some u => ret u
         | None =>
             run (createUser
                    {| externalId := Some (Jwt.externalId verified);
                       firstName := Jwt.firstName verified;
                       lastName := Jwt.lastName verified |}
                    (dbNow env))
         end ;;
    (* Link this channel identity to the user *)
    run (linkChannelToUser (id u) channel peerId (dbNow env)) ;;;
    (* If existing unverified user was linked here, merge *)
    match existingLink with
    | Some l =>
        if negb (truthy_ostr (external_id (user l)))
        then run (linkExternalId (id (user l))
                    (Jwt.externalId verified) channel peerId
                    (dbNow env)) ;;; ret tt
        else ret tt
    | None => ret tt
    end ;;;
    channels <- query (fun d => listUserChannels d (id u)) ;;
    ret {| text := verified_text u verified channels |}.

(** The handler of [/verify <token>]. *)
Definition verify (authConfig : option AuthConfig) (env : Env)
  (ctx : CommandCtx) : M PluginState Reply :=
  let token := option_map trim (args ctx) in
  if negb (truthy_ostr token) then ret {| text := verify_usage |}
  else
    match authConfig with
    | None => ret {| text := verify_not_configured |}
    | Some authConfig =>
        fun st =>
        let (ready, st) := ensureReady env st in
        if negb ready then Returned {| text := service_unavailable |} st
        else
          let channel := nullish (ctx_channel ctx) "unknown" in
          let peerId := nullish (senderId ctx) (nullish (from ctx) "unknown") in
          match verifyToken (fetch env) (nullish token EmptyString)
                            authConfig (nowMs env) with
          | Returns None => Returned {| text := verify_failed |} st
          | Returns (Some verified) =>
              linkVerifiedIdentity env verified channel peerId st
          | Throws e => Thrown (Javascript e) st
          | Beyond => Thrown Unmodelled st
          end
    end.

(** [args.split(/\s+/)]: the pieces between the runs of white space. *)
Fixpoint split_ws_from (skipping : bool) (s : string) : list string :=
  match s with
  | EmptyString => [EmptyString]
  | String a r =>
      let piece_from (pieces : list string) :=
        match pieces with
        | piece :: pieces => String a piece :: pieces
        | [] => [String a EmptyString]
        end in
      if is_space a
      then (if skipping then split_ws_from true r
            else EmptyString :: split_ws_from true r)
      else
        match r with
        | EmptyString => piece_from (split_ws_from false r)
        | String b r' =>
            if is_space2 a b
            then (if skipping then split_ws_from true r'
                  else EmptyString :: split_ws_from true r')
            else
              match r' with
              | EmptyString => piece_from (split_ws_from false r)
              | String c r'' =>
                  if is_space3 a b c
                  then (if skipping then split_ws_from true r''
                        else EmptyString :: split_ws_from true r'')
                  else piece_from (split_ws_from false r)
              end
        end
  end.

Definition split_ws (s : string) : list string := split_ws_from false s.

Definition register_usage : string :=
  "Usage: /register <first_name> <last_name>".
Definition register_no_first_name : string :=
  "Please provide at least a first name: /register <first_name> <last_name>".
Definition verify_tip : string :=
  "Tip: Use /verify <token> to link your app account for cross-channel access.".

(** The handler of [/register <first_name> <last_name>]. *)
Definition register (env : Env) (ctx : CommandCtx) : M PluginState Reply :=
  let args := option_map trim (args ctx) in
  if negb (truthy_ostr args) then ret {| text := register_usage |}
  else
    let parts := split_ws (nullish args EmptyString) in
    let firstName := nullish (nth_error parts 0) EmptyString in
    let lastName := join " " (slice 1 parts) in
    if negb (truthy_str firstName)
    then ret {| text := register_no_first_name |}
    else
      fun st =>
      let (ready, st) := ensureReady env st in
      if negb ready then Returned {| text := service_unavailable |} st
      else
        let channel := nullish (ctx_channel ctx) "unknown" in
        let peerId := nullish (senderId ctx) (nullish (from ctx) "unknown") in
        (* Check if already registered *)
        (existing <- query (fun d => findUserByChannelPeer d channel peerId) ;;
         match existing with
         | Some e =>
             (* Update name on existing user *)
             run (updateUserName (id (user e)) firstName lastName (dbNow env)) ;;;
             ret {| text := "Updated your name to " ++ firstName ++ " "
                            ++ lastName ++ "."
                            ++ (if truthy_ostr (external_id (user e))
                                then EmptyString
                                else nl ++ verify_tip) |}
         | None =>
             (* Create new user with channel-only identity *)
             u <- run (createUser {| firstName := Some firstName;
                                     lastName := Some lastName;
                                     externalId := None |} (dbNow env)) ;;
             run (linkChannelToUser (id u) channel peerId (dbNow env)) ;;;
             ret {| text := "Registered as " ++ firstName ++ " " ++ lastName
                            ++ "." ++ nl
                            ++ "Your user ID: " ++ id u ++ nl
                            ++ verify_tip |}
         end) st.

(** The states of the plugin that the two commands can reach from an
    empty store. *)
Inductive reachable_state : PluginState -> Prop :=
| reach_empty ready failed :
    reachable_state {| schemaReady := ready; initError := failed;
                       db := IdentityDb.empty |}
| reach_verify authConfig env ctx st :
    reachable_state st ->
    reachable_state (store_of (verify authConfig env ctx st))
| reach_register env ctx st :
    reachable_state st ->
    reachable_state (store_of (register env ctx st)).

(** A computation keeps the constraints when the store it leaves, whether
    it returns or throws, satisfies them as soon as the store it starts
    from does. *)
Definition keeps {A} (m : M PluginState A) : Prop :=
  forall st, constraints_hold (db st) -> constraints_hold (db (store_of (m st))).

End Commands.

(** ** Sample data: the fixtures of the unit tests and signed tokens *)

Module Samples.
Import Json Jwt.

(** The scopes of [scope.test.ts]. *)
Definition verifiedScope : Scope.ScopeResult :=
  {| Scope.userId := "uuid-123"; Scope.externalId := Some "ext-abc";
     Scope.scopeKey := "ext-abc"; Scope.verified := true;
     Scope.channel := "telegram"; Scope.peerId := "tg-user" |}.

Definition unverifiedScope : Scope.ScopeResult :=
  {| Scope.userId := "uuid-456"; Scope.externalId := None;
     Scope.scopeKey := "uuid-456"; Scope.verified := false;
     Scope.channel := "whatsapp"; Scope.peerId := "+1234567890" |}.

Definition requireVerifiedConfig : Scope.ScopeConfig :=
  {| Scope.requireVerified := Some true; Scope.gateMessage := None |}.

Definition defaultConfig : Scope.ScopeConfig :=
  {| Scope.requireVerified := None; Scope.gateMessage := None |}.

Definition hs256 : AuthConfig :=
  {| mode := jwt_hs256; jwtSecret := Some "s3cret"; verifyEndpoint := None;
     issuer := None; audience := None |}.

(** The header [{"alg":"HS256","typ":"JWT"}]. *)
Definition header_b64 : string := "eyJhbGciOiJIUzI1NiIsInR5cCI6IkpXVCJ9".

(** The claims [{"sub":"ext-42"}] and their token under the key [s3cret]. *)
Definition claims_sub : JWTPayload :=
  {| sub := Some "ext-42"; given_name := None; family_name := None;
     name := None; email := None; exp := None; iss := None; aud := None;
     claims := JObj [("sub", JStr "ext-42")] |}.
Definition payload_sub : string := "eyJzdWIiOiJleHQtNDIifQ".
Definition signature_sub : string :=
  "39YxJxORR0iJiq6lhlTgt-tz47Oj4oS-z3VPyeJzQnc".
Definition token_sub : string :=
  header_b64 ++ "." ++ payload_sub ++ "." ++ signature_sub.

(** The same signature with its last character changed from [c] to [d],
    and with its second character changed from [9] to [8]. *)
Definition signature_sub_last_changed : string :=
  "39YxJxORR0iJiq6lhlTgt-tz47Oj4oS-z3VPyeJzQnd".
Definition signature_sub_second_changed : string :=
  "38YxJxORR0iJiq6lhlTgt-tz47Oj4oS-z3VPyeJzQnc".

(** A token with the claims [sub], [name], [email], [iss], [aud] and
    [exp = 1700000600], and a configuration that expects its issuer and
    audience. *)
Definition token_full : string :=
  header_b64
  ++ ".eyJzdWIiOiJleHQtNDIiLCJuYW1lIjoiQW5hIE1hcmlhIExvcGV6IiwiZW1haWwiOiJhbmFAZXhhbXBsZS5jb20iLCJpc3MiOiJodHRwczovL215YXBwLmNvbSIsImF1ZCI6WyJvcGVuY2xhdy1hZ2VudCIsIm90aGVyIl0sImV4cCI6MTcwMDAwMDYwMH0"
  ++ ".egZb1bgswWKM92Zatucg9FXHgfUVXh2r6ef8PqSGTiI".

Definition hs256_issuer_audience : AuthConfig :=
  {| mode := jwt_hs256; jwtSecret := Some "s3cret"; verifyEndpoint := None;
     issuer := Some "https://myapp.com"; audience := Some "openclaw-agent" |}.

(** The claims [{"sub":"ext-42","exp":0}] and their token. *)
Definition claims_exp0 : JWTPayload :=
  {| sub := Some "ext-42"; given_name := None; family_name := None;
     name := None; email := None; exp := Some 0%Z; iss := None; aud := None;
     claims := JObj [("sub", JStr "ext-42"); ("exp", JNum 0)] |}.
Definition token_exp0 : string :=
  header_b64 ++ ".eyJzdWIiOiJleHQtNDIiLCJleHAiOjB9"
  ++ ".UfkdXCwxvvoyN5WemJg7J6I04w6UUBsH39MEBZre15s".

(** The claims [{"sub":"ext-42","exp":1700000001}] and their token. *)
Definition claims_exp_later : JWTPayload :=
  {| sub := Some "ext-42"; given_name := None; family_name := None;
     name := None; email := None; exp := Some 1700000001%Z; iss := None;
     aud := None;
     claims := JObj [("sub", JStr "ext-42"); ("exp", JNum 1700000001)] |}.
Definition token_exp_later : string :=
  header_b64 ++ ".eyJzdWIiOiJleHQtNDIiLCJleHAiOjE3MDAwMDAwMDF9"
  ++ ".ZUKOLJz5nyKZ5Oil3p8D4QBi3X0dGMZ_QCZ9CAGUlL8".

(** The claims [{"sub":"ext-42","exp":1699999999}] and their token. *)
Definition claims_exp_earlier : JWTPayload :=
  {| sub := Some "ext-42"; given_name := None; family_name := None;
     name := None; email := None; exp := Some 1699999999%Z; iss := None;
     aud := None;
     claims := JObj [("sub", JStr "ext-42"); ("exp", JNum 1699999999)] |}.
Definition token_exp_earlier : string :=
  header_b64 ++ ".eyJzdWIiOiJleHQtNDIiLCJleHAiOjE2OTk5OTk5OTl9"
  ++ ".HmdI5BPhBwh7D0_5ABIdBeN-2W6g7ee1j3rZpBaftAQ".

(** A signed token whose payload is the JSON text [null]. *)
Definition token_null : string :=
  header_b64 ++ ".bnVsbA" ++ ".wZD00OrXB_6Ak2kXf87-8sNwiBrVZpccJGO66-1ousw".


(** A signed token with the claims [{"sub":"ext-42","name":7}]: a display
    name that is a number. *)
Definition token_name_number : string :=
  header_b64 ++ ".eyJzdWIiOiJleHQtNDIiLCJuYW1lIjo3fQ"
  ++ ".7VljdzJwKl-FtJIiOT91PsiYOYU-_efNVbTNyyfdff0".

(** A plugin that has not touched its store yet, and a run of a handler
    against a reachable store, with no remote verification peer. *)
Definition fresh : Commands.PluginState :=
  {| Commands.schemaReady := false; Commands.initError := false;
     Commands.db := IdentityDb.empty |}.

Definition offline : Fetch := fun _ _ => FetchRejected.

Definition sample_env : Commands.Env :=
  {| Commands.reachable := true; Commands.dbNow := 1000;
     Commands.nowMs := 1700000000000; Commands.fetch := offline |}.

Definition endpoint_config : AuthConfig :=
  {| mode := verify_endpoint; jwtSecret := None;
     verifyEndpoint := Some "https://myapp.com/api/verify";
     issuer := None; audience := None |}.

(** The peer [("whatsapp", "+15551230000")] typing [/register Ana Lopez]
    and then [/verify <token>] with the token of subject [ext-42]. *)
Definition whatsapp_register : Commands.CommandCtx :=
  {| Commands.args := Some "Ana Lopez";
     Commands.ctx_channel := Some "whatsapp";
     Commands.senderId := Some "+15551230000";
     Commands.from := None |}.

Definition whatsapp_verify : Commands.CommandCtx :=
  {| Commands.args := Some token_sub;
     Commands.ctx_channel := Some "whatsapp";
     Commands.senderId := Some "+15551230000";
     Commands.from := None |}.

(** The same peer typing [/verify <token>] with another token. *)
Definition whatsapp_verify_with (token : string) : Commands.CommandCtx :=
  {| Commands.args := Some token;
     Commands.ctx_channel := Some "whatsapp";
     Commands.senderId := Some "+15551230000";
     Commands.from := None |}.


(** The store after the registration. *)
Definition registered : Commands.PluginState :=
  Pg.store_of (Commands.register sample_env whatsapp_register fresh).

End Samples.

(** ** Forms of session keys, for the properties of the parser *)

Module SessionKeyForms.
Import Js SessionKey.

(** One of the colon-separated segments of [p] is the marker "direct". *)
Definition has_direct_segment (p : string) : bool :=
  existsb (fun s => String.eqb s "direct") (split ":" p).

End SessionKeyForms.

(** ** The lookup hook and [/whoami]
     ([persist-user-identity/src/index.ts]) *)

Module IdentityPlugin.
Import Js SessionKey Pg IdentityDb Commands.
Local Open Scope pg_scope.

(** What the host passes to a [before_agent_start] hook beside the
    event; the hooks read it as [ctx?.sessionKey] and
    [ctx?.messageProvider]. *)
Record HookCtx := {
  sessionKey : option string;
  messageProvider : option string
}.

Definition ctx_sessionKey (ctx : option HookCtx) : option string :=
  match ctx with Some c => sessionKey c | None => None end.

Definition ctx_messageProvider (ctx : option HookCtx) : option string :=
  match ctx with Some c => messageProvider c | None => None end.

(** Format the identity block injected into [prependContext]. *)
Definition formatIdentityContext (identity : ResolvedIdentity)
  (status : string) : string :=
  let name :=
    if truthy_ostr (first_name (user identity))
       || truthy_ostr (last_name (user identity))
    then trim (nullish (first_name (user identity)) EmptyString ++ " "
               ++ nullish (last_name (user identity)) EmptyString)
    else "unknown" in
  join nl
    ["[USER_IDENTITY]";
     "user_id: " ++ id (user identity);
     "external_id: " ++ nullish (external_id (user identity)) "none";
     "name: " ++ name;
     "channel: " ++ resolved_channel identity;
     "channel_peer_id: " ++ resolved_peer_id identity;
     "verified: " ++ string_of_bool (verified identity);
     "status: " ++ status;
     "[/USER_IDENTITY]"].

Definition formatUnknownUserContext (channel peerId : string) : string :=
  join nl
    ["[USER_IDENTITY]";
     "user_id: none";
     "external_id: none";
     "name: unknown";
     "channel: " ++ channel;
     "channel_peer_id: " ++ peerId;
     "verified: false";
     "status: unregistered";
     "[/USER_IDENTITY]";
     EmptyString;
     "This user is not registered. You may ask for their name.";
     "If they have an authorization token from the app, they can type: /verify <token>";
     "To register with just a name: /register <first_name> <last_name>"].

(** The [before_agent_start] hook: resolve identity and inject context.
    The result is the [prependContext] of the returned object, [None] for
    the object without it; an error of [ensureReady] is caught and gives
    that object too. *)
Definition before_agent_start (env : Env) (ctx : option HookCtx)
  (st : PluginState) : option string * PluginState :=
  let (ready, st) := ensureReady env st in
  if negb ready then (None, st)
  else
    let sessionKey := nullish (ctx_sessionKey ctx) EmptyString in
    let channel := nullish (ctx_messageProvider ctx) (deriveChannel sessionKey) in
    let peerId := derivePeerId sessionKey in
    if negb (truthy_str peerId) || String.eqb peerId "main"
       || String.eqb peerId "unknown"
    then (None, st)
    else
      match findUserByChannelPeer (db st) channel peerId with
      | Some identity => (Some (formatIdentityContext identity "new_session"), st)
      | None => (Some (formatUnknownUserContext channel peerId), st)
      end.

(** The sessions that carry no peer, which both [before_agent_start]
    hooks skip: [!peerId || peerId === "main" || peerId === "unknown"]. *)
Definition no_peer (peerId : string) : bool :=
  negb (truthy_str peerId) || String.eqb peerId "main"
  || String.eqb peerId "unknown".

Definition whoami_not_registered (channel peerId : string) : string :=
  "You are not registered." ++ nl
  ++ "Current channel: " ++ channel ++ nl
  ++ "Channel ID: " ++ peerId ++ nl ++ nl
  ++ "Use /register <first_name> <last_name> or /verify <token> to set up your identity.".

(** The handler of [/whoami]. *)
Definition whoami (env : Env) (ctx : CommandCtx) : M PluginState Reply :=
  fun st =>
  let (ready, st) := ensureReady env st in
  if negb ready then Returned {| text := service_unavailable |} st
  else
    let channel := nullish (ctx_channel ctx) "unknown" in
    let peerId := nullish (senderId ctx) (nullish (from ctx) "unknown") in
    (identity <- query (fun d => findUserByChannelPeer d channel peerId) ;;
     match identity with
     | None => ret {| text := whoami_not_registered channel peerId |}
     | Some identity =>
         channels <- query (fun d => listUserChannels d (id (user identity))) ;;
         let channelList :=
           join nl (map (fun c => "  - " ++ IdentityDb.channel c ++ ": "
                                  ++ channel_peer_id c) channels) in
         let name :=
           trim (nullish (first_name (user identity)) EmptyString ++ " "
                 ++ nullish (last_name (user identity)) EmptyString) in
         ret {| text :=
                  "User ID: " ++ id (user identity) ++ nl
                  ++ (if truthy_str name then "Name: " ++ name ++ nl
                      else EmptyString)
                  ++ "Verified: " ++ (if verified identity then "yes" else "no")
                  ++ nl
                  ++ (if truthy_ostr (external_id (user identity))
                      then "External ID: "
                           ++ nullish (external_id (user identity)) EmptyString
                           ++ nl
                      else EmptyString)
                  ++ "Linked channels:" ++ nl ++ channelList |}
     end) st.

End IdentityPlugin.

(** ** The memory scope gate ([auth-memory-gate/src/scope.ts] and
     [index.ts]) *)

Module MemoryGate.
Import Js SessionKey Scope.

(** Look up a user by their channel-specific peer identifier, in the
    tables of the identity store: [SELECT u.id, u.external_id,
    u.first_name, u.last_name, uc.channel, uc.channel_peer_id,
    (u.external_id IS NOT NULL) AS verified FROM lp_users u JOIN
    lp_user_channels uc ON uc.user_id = u.id WHERE uc.channel = .. AND
    uc.channel_peer_id = .. LIMIT 1]. *)
Definition findUserByChannelPeer (d : IdentityDb.Db)
  (channel channelPeerId : string) : option IdentityRow :=
  hd_error
    (flat_map
       (fun u =>
          map (fun uc =>
                 {| id := IdentityDb.id u;
                    external_id := IdentityDb.external_id u;
                    first_name := IdentityDb.first_name u;
                    last_name := IdentityDb.last_name u;
                    row_channel := IdentityDb.channel uc;
                    channel_peer_id := IdentityDb.channel_peer_id uc;
                    row_verified :=
                      IdentityDb.is_some (IdentityDb.external_id u) |})
              (filter (fun uc =>
                         String.eqb (IdentityDb.user_id uc) (IdentityDb.id u)
                         && IdentityDb.same_peer channel channelPeerId uc)
                      (IdentityDb.lp_user_channels d)))
       (IdentityDb.lp_users d)).

(** [scopeConfig], as [register(api)] builds it from the plugin
    configuration. *)
Definition scopeConfigOf (requireVerified : option bool)
  (gateMessage : option string) : ScopeConfig :=
  {| Scope.requireVerified := Some (nullish requireVerified false);
     Scope.gateMessage := gateMessage |}.

(** The lazy-initialisation flags closed over by [register(api)]
    ([initError] holds whether an error is kept). *)
Record GateState := {
  dbReady : bool;
  initError : bool
}.

(** [ensureReady()]: [true] when it returns, [false] when it throws;
    [reachable] is whether the store answers [SELECT 1]. *)
Definition ensureReady (reachable : bool) (st : GateState) : bool * GateState :=
  if dbReady st then (true, st)
  else if initError st then (false, st)
  else if reachable
  then (true, {| dbReady := true; initError := initError st |})
  else (false, {| dbReady := dbReady st; initError := true |}).

(** The [before_agent_start] hook: resolve identity and inject scope.
    [d] is the identity store that [sql] reads. The result is the
    [prependContext] of the returned object, [None] for the empty
    object. Before the identity plugin has created the two tables the
    query throws, which the hook catches to return the empty object: the
    result on a store without rows. *)
Definition before_agent_start (scopeConfig : ScopeConfig) (reachable : bool)
  (d : IdentityDb.Db) (ctx : option IdentityPlugin.HookCtx) (st : GateState)
  : option string * GateState :=
  let (ready, st) := ensureReady reachable st in
  if negb ready then (None, st)
  else
    let sessionKey := nullish (IdentityPlugin.ctx_sessionKey ctx) EmptyString in
    let channel := nullish (IdentityPlugin.ctx_messageProvider ctx)
                           (deriveChannel sessionKey) in
    let peerId := derivePeerId sessionKey in
    if negb (truthy_str peerId) || String.eqb peerId "main"
       || String.eqb peerId "unknown"
    then (None, st)
    else
      match findUserByChannelPeer d channel peerId with
      | None =>
          (* User not registered: persist-user-identity handles this case *)
          (None, st)
      | Some identity =>
          let scope := resolveScope identity channel peerId in
          (Some (formatScopeBlock scope scopeConfig), st)
      end.

End MemoryGate.

(** ** More sample data: a second peer of the same person *)

Module Peers.
Import Jwt.

(** The peer [("telegram", "tg-77")] of a direct session, typing
    [/register Ana Lopez], [/verify <token>] and [/whoami]. *)
Definition telegram_hook : IdentityPlugin.HookCtx :=
  {| IdentityPlugin.sessionKey := Some "agent:main:telegram:direct:tg-77";
     IdentityPlugin.messageProvider := None |}.

Definition telegram_register : Commands.CommandCtx :=
  {| Commands.args := Some "  Ana   Lopez ";
     Commands.ctx_channel := Some "telegram";
     Commands.senderId := Some "tg-77";
     Commands.from := None |}.

Definition telegram_verify : Commands.CommandCtx :=
  {| Commands.args := Some Samples.token_sub;
     Commands.ctx_channel := Some "telegram";
     Commands.senderId := Some "tg-77";
     Commands.from := None |}.

Definition telegram_whoami : Commands.CommandCtx :=
  {| Commands.args := None;
     Commands.ctx_channel := Some "telegram";
     Commands.senderId := Some "tg-77";
     Commands.from := None |}.

(** The store after the WhatsApp peer of [Samples] has registered and
    verified. *)
Definition verified_on_whatsapp : Commands.PluginState :=
  Eval vm_compute in
  Pg.store_of (Commands.verify (Some Samples.hs256) Samples.sample_env
                 Samples.whatsapp_verify Samples.registered).

(** A store that does not answer. *)
Definition unreachable_env : Commands.Env :=
  {| Commands.reachable := false; Commands.dbNow := 1000;
     Commands.nowMs := 1700000000000; Commands.fetch := Samples.offline |}.


(** A word of 129 letters and a peer id of 513, one more than their
    columns hold. *)
Definition long_word : string :=
  string_of_list_ascii (List.repeat "x"%char 129).

Definition long_peer_id : string :=
  string_of_list_ascii (List.repeat "9"%char 513).

(** 512 digits, and the same followed by a space: 513 characters, of which
    a column of 512 stores the digits. *)
Definition digits_512 : string :=
  string_of_list_ascii (List.repeat "9"%char 512).
Definition padded_digits : string := digits_512 ++ " ".

End Peers.

(** ** Forms of display names, for the properties of the name split *)

Module DisplayName.

(** A word is a string without a space. *)
Fixpoint word (s : string) : bool :=
  match s with
  | EmptyString => true
  | String c rest => negb (Ascii.eqb c " ") && word rest
  end.

End DisplayName.

(** ** The ledger: the channel hooks and the query of conversations
     ([persist-postgres/src/index.ts] and [db.ts]) *)

Module LedgerQueries.
Import Js Json Pg Ledger.
Local Open Scope pg_scope.

(** The [message_received] hook: persist an inbound channel message under
    the sender as session key. [content] is the text that is stored: the
    content of the event, or its JSON rendering when it is no string. *)
Definition message_received (from : string) (content : string) (now : Z)
  : Db -> Db :=
  caught (
    conv <- upsertConversation
              {| sessionKey := from;
                 opt_channel := "gateway";
                 startedAt := None;
                 lastMessageAt := Some now |} now ;;
    insertMessage {| conversationId := id conv;
                     opt_role := "user";
                     opt_content := content;
                     opt_metadata := None |} now ;;; ret tt).

(** The [message_sent] hook: persist an outbound channel message under
    the recipient as session key. *)
Definition message_sent (to : string) (content : string) (now : Z)
  : Db -> Db :=
  caught (
    conv <- upsertConversation
              {| sessionKey := to;
                 opt_channel := "gateway";
                 startedAt := None;
                 lastMessageAt := Some now |} now ;;
    insertMessage {| conversationId := id conv;
                     opt_role := "assistant";
                     opt_content := content;
                     opt_metadata := None |} now ;;; ret tt).










(** Map a conversation row to a [SessionEntry]-compatible object. *)
Record SessionEntry := {
  sessionId : uuid;
  createdAt : Z;
  updatedAt : Z;
  entry_channel : string;
  displayName : string
}.

Definition pgRowToSessionEntry (row : PgSessionRow) : SessionEntry :=
  {| sessionId := id row;
     createdAt := started_at row;
     updatedAt := last_message_at row;
     entry_channel := channel row;
     displayName := channel row ++ ":" ++ session_key row |}.

End LedgerQueries.

(** ** Sample ledgers *)

Module LedgerSamples.
Import Ledger LedgerQueries.

(** A ledger whose only conversation has reached the largest counter. *)
Definition full_ledger : Db :=
  {| lp_conversations :=
       [{| id := "uuid-0"; session_key := "agent:main:telegram:user123";
           channel := "gateway"; started_at := 1000;
           last_message_at := 2000; message_count := Pg.int4_max |}];
     lp_messages := [];
     uuid_seq := 1 |}.



(** A session key of 512 digits, and the same followed by a space. *)
Definition key_512 : string :=
  string_of_list_ascii (List.repeat "7"%char 512).
Definition padded_key : string := key_512 ++ " ".

End LedgerSamples.

(** ** The scope key of the memory plugin
     ([identity.ts] of the "identity" group-id strategy, which mirrors the
     session-key parsing of the two plugins above) *)

Module GroupIdentity.
Import Js SessionKey.

(** The fields of [GroupIdContext] that the function reads. *)
Record GroupIdContext := {
  sessionKey : option string;
  messageProvider : option string
}.

(** Resolve the canonical scope key for a session by querying the
    identity store: [SELECT u.id, u.external_id FROM lp_users u JOIN
    lp_user_channels uc ON uc.user_id = u.id WHERE uc.channel = .. AND
    uc.channel_peer_id = .. LIMIT 1]. *)
Definition resolveIdentityScopeKey (d : IdentityDb.Db) (ctx : GroupIdContext)
  : option string :=
  let sessionKey := nullish (sessionKey ctx) EmptyString in
  let channel := nullish (messageProvider ctx) (deriveChannel sessionKey) in
  let peerId := derivePeerId sessionKey in
  if negb (truthy_str peerId) || String.eqb peerId "main"
     || String.eqb peerId "unknown"
  then None
  else
    let rows :=
      flat_map
        (fun u =>
           map (fun uc => (IdentityDb.id u, IdentityDb.external_id u))
               (filter (fun uc =>
                          String.eqb (IdentityDb.user_id uc) (IdentityDb.id u)
                          && IdentityDb.same_peer channel peerId uc)
                       (IdentityDb.lp_user_channels d)))
        (IdentityDb.lp_users d) in
    match hd_error rows with
    | None => None
    | Some (user_id, user_external_id) =>
        Some (nullish user_external_id user_id)
    end.

End GroupIdentity.

(* ====================================================================== *)
(** * Part II. Properties                                                   *)
(* ====================================================================== *)

(** ** White space *)

Module JsFacts.
Import Js.









Lemma trimStart_head_bounded n : forall s,
  (String.length s <= n)%nat -> white_head (trimStart s) = false.
Proof.
  induction n as [|n IH]; intros s Hn.
  - destruct s; [reflexivity|simpl in Hn; lia].
  - destruct s as [|a r]; [reflexivity|].
    cbn [trimStart]. destruct (is_space a) eqn:E1.
    { apply IH. simpl in Hn. lia. }
    destruct r as [|b r'].
    { cbn [white_head]. rewrite E1. reflexivity. }
    destruct (is_space2 a b) eqn:E2.
    { apply IH. simpl in Hn. lia. }
    destruct r' as [|c r''].
    { cbn [white_head]. rewrite E1, E2. reflexivity. }
    destruct (is_space3 a b c) eqn:E3.
    { apply IH. simpl in Hn. lia. }
    cbn [white_head]. rewrite E1, E2, E3. reflexivity.
Qed.

(** What [trimStart] leaves does not start with white space. *)
Lemma trimStart_head s : white_head (trimStart s) = false.
Proof. exact (trimStart_head_bounded (String.length s) s (Nat.le_refl _)). Qed.

(** Nor does what [trimEnd] leaves of such a text. *)
Lemma trimEnd_head x : white_head x = false -> white_head (trimEnd x) = false.
Proof.
  destruct x as [|a r]; [reflexivity|].
  cbn [white_head trimEnd]. intros H.
  apply orb_false_elim in H. destruct H as [E1 H].
  destruct (blank (String a r)); [reflexivity|].
  cbn [white_head]. rewrite E1. cbn [orb].
  destruct r as [|b r']; [reflexivity|].
  apply orb_false_elim in H. destruct H as [E2 H].
  cbn [trimEnd]. destruct (blank (String b r')); [reflexivity|].
  rewrite E2. cbn [orb].
  destruct r' as [|c r'']; [reflexivity|].
  cbn [trimEnd]. destruct (blank (String c r'')); [reflexivity|exact H].
Qed.

Lemma trim_head s : white_head (trim s) = false.
Proof. unfold trim. apply trimEnd_head, trimStart_head. Qed.

Lemma trim_blank s : blank s = true -> trim s = EmptyString.
Proof.
  unfold blank, trim. intros H. apply String.eqb_eq in H. rewrite H.
  reflexivity.
Qed.

(** A text that is not blank is not trimmed to nothing. *)
Lemma trim_not_blank s : blank s = false -> trim s <> EmptyString.
Proof.
  intros Hs. unfold trim. unfold blank in Hs. apply String.eqb_neq in Hs.
  pose proof (trimStart_head s) as Hw.
  destruct (trimStart s) as [|a r]; [contradiction Hs; reflexivity|].
  cbn [trimEnd].
  destruct (blank (String a r)) eqn:Hb; [|discriminate].
  exfalso. unfold blank in Hb. apply String.eqb_eq in Hb.
  revert Hw Hb. clear. cbn [white_head trimStart].
  destruct (is_space a); [discriminate|]. cbn [orb].
  destruct r as [|b r']; [discriminate|].
  destruct (is_space2 a b); [discriminate|]. cbn [orb].
  destruct r' as [|c r'']; [discriminate|].
  destruct (is_space3 a b c); discriminate.
Qed.

End JsFacts.

Module SessionKeyFacts.
Import Js SessionKey.

Example deriveChannel_telegram :
  deriveChannel "agent:main:telegram:user123" = "telegram".
Proof. reflexivity. Qed.

Example deriveChannel_short : deriveChannel "agent:main" = "unknown".
Proof. reflexivity. Qed.

Example derivePeerId_compound :
  derivePeerId "agent:main:whatsapp:+1:234:5678" = "+1:234:5678".
Proof. reflexivity. Qed.

Example derivePeerId_channel_direct :
  derivePeerId "agent:main:telegram:direct:peer1" = "peer1".
Proof. reflexivity. Qed.

Example derivePeerId_main : derivePeerId "agent:main:main" = "main".
Proof. reflexivity. Qed.

Example derivePeerId_other : derivePeerId "some-other-key" = "some-other-key".
Proof. reflexivity. Qed.

(** [split] never returns the empty array. *)
Lemma split_nonempty sep s : split sep s <> [].
Proof.
  destruct s as [|c rest]; simpl; [discriminate|].
  destruct (Ascii.eqb c sep); [discriminate|].
  destruct (split sep rest); discriminate.
Qed.

(** A segment is not split. *)
Lemma split_segment s : segment s = true -> split ":" s = [s].
Proof.
  induction s as [|c rest IH]; simpl; intros H; [reflexivity|].
  apply andb_prop in H as [Hc Hrest].
  apply negb_true_iff in Hc. rewrite Hc, (IH Hrest). reflexivity.
Qed.

(** Splitting cuts at the first separator after a segment. *)
Lemma split_segment_app s t :
  segment s = true ->
  split ":" (s ++ String ":" t) = s :: split ":" t.
Proof.
  induction s as [|c rest IH]; simpl; intros H; [reflexivity|].
  apply andb_prop in H as [Hc Hrest].
  apply negb_true_iff in Hc. rewrite Hc, (IH Hrest). reflexivity.
Qed.

Lemma sessionKey4_unfold a c p1 p2 :
  sessionKey4 a c p1 p2 =
  "agent" ++ String ":" (a ++ String ":" (c ++ String ":" (p1 ++ String ":" p2))).
Proof. reflexivity. Qed.

(** The five parts of a key [agent:{a}:{c}:{p1}:{p2}]. *)
Lemma split_sessionKey4 a c p1 p2 :
  segment a = true -> segment c = true ->
  segment p1 = true -> segment p2 = true ->
  split ":" (sessionKey4 a c p1 p2) = ["agent"; a; c; p1; p2].
Proof.
  intros Ha Hc H1 H2. rewrite sessionKey4_unfold.
  rewrite (split_segment_app "agent") by reflexivity.
  rewrite (split_segment_app a), (split_segment_app c),
    (split_segment_app p1), (split_segment p2); auto.
Qed.

Lemma derivePeerId_of_rest key a rest :
  split ":" key = "agent" :: a :: rest ->
  rest <> [] ->
  derivePeerId key =
    let directIdx := indexOf "direct" rest in
    if (0 <=? directIdx)%Z && (directIdx <? len rest - 1)%Z
    then join ":" (slice (directIdx + 1) rest)
    else if (2 <=? len rest)%Z
    then join ":" (slice 1 rest)
    else match nth_error rest 0 with
         | Some r => r
         | None => key
         end.
Proof.
  intros Hs Hne. unfold derivePeerId. rewrite Hs.
  change (slice 2 ("agent" :: a :: rest)) with rest.
  replace (len ("agent" :: a :: rest) <? 3)%Z with false.
  - reflexivity.
  - symmetry. apply Z.ltb_ge. unfold len.
    destruct rest; [contradiction|]. simpl List.length. lia.
Qed.

(** C5, as stated, fails on the channel+direct form of the key: the
    parser drops a "direct" marker that follows the channel. *)
Lemma C5_direct_marker_counterexample :
  ~ (forall a c p1 p2,
        segment a = true -> segment c = true ->
        segment p1 = true -> segment p2 = true ->
        deriveChannel (sessionKey4 a c p1 p2) = c /\
        derivePeerId (sessionKey4 a c p1 p2) = p1 ++ ":" ++ p2).
Proof.
  intros H.
  destruct (H "main" "telegram" "direct" "peer1") as [_ Hp];
    try reflexivity.
  vm_compute in Hp. discriminate Hp.
Qed.

(** C5 (amended): for segments [a], [c], [p1], [p2], the key
    [agent:{a}:{c}:{p1}:{p2}] parses to channel [c]; its peer id is the
    re-joined ["{p1}:{p2}"] unless [p1] is the "direct" marker after a
    channel other than "direct", and then the peer id is [p2]. *)
Theorem C5_parse_sessionKey4 a c p1 p2 :
  segment a = true -> segment c = true ->
  segment p1 = true -> segment p2 = true ->
  deriveChannel (sessionKey4 a c p1 p2) = c /\
  (c = "direct" \/ p1 <> "direct" ->
     derivePeerId (sessionKey4 a c p1 p2) = p1 ++ ":" ++ p2) /\
  (c <> "direct" -> p1 = "direct" ->
     derivePeerId (sessionKey4 a c p1 p2) = p2).
Proof.
  intros Ha Hc H1 H2.
  pose proof (split_sessionKey4 a c p1 p2 Ha Hc H1 H2) as Hs.
  split; [|split].
  - unfold deriveChannel. rewrite Hs. reflexivity.
  - intros Hcase.
    rewrite (derivePeerId_of_rest _ a [c; p1; p2] Hs) by discriminate.
    simpl indexOf.
    destruct (String.eqb c "direct") eqn:Ec.
    + reflexivity.
    + destruct (String.eqb p1 "direct") eqn:E1.
      * apply String.eqb_eq in E1. apply String.eqb_neq in Ec.
        destruct Hcase; contradiction.
      * destruct (String.eqb p2 "direct"); reflexivity.
  - intros Hcn Hp1. subst p1.
    rewrite (derivePeerId_of_rest _ a [c; "direct"; p2] Hs) by discriminate.
    simpl indexOf.
    apply String.eqb_neq in Hcn. rewrite Hcn. reflexivity.
Qed.

Lemma C5_parse_sessionKey4_witness :
  deriveChannel (sessionKey4 "main" "whatsapp" "+1" "234") = "whatsapp" /\
  derivePeerId (sessionKey4 "main" "whatsapp" "+1" "234") = "+1:234" /\
  derivePeerId (sessionKey4 "main" "telegram" "direct" "peer1") = "peer1".
Proof.
  destruct (C5_parse_sessionKey4 "main" "whatsapp" "+1" "234")
    as [Hc [Hp _]]; try reflexivity.
  destruct (C5_parse_sessionKey4 "main" "telegram" "direct" "peer1")
    as [_ [_ Hd]]; try reflexivity.
  split; [exact Hc|split].
  - apply Hp. right. discriminate.
  - apply Hd; [discriminate|reflexivity].
Defined.

End SessionKeyFacts.

Module ScopeFacts.
Import Js Scope Samples.

(** C4: the scope key of a resolved identity is its external id when it
    has one and its user id otherwise; the result carries both unchanged,
    so the same holds between the fields of the scope result. *)
Theorem C4_scopeKey_selection identity channel peerId :
  let r := resolveScope identity channel peerId in
  scopeKey r = match external_id identity with
               | Some e => e
               | None => id identity
               end /\
  userId r = id identity /\
  externalId r = external_id identity /\
  scopeKey r = match externalId r with
               | Some e => e
               | None => userId r
               end.
Proof.
  unfold resolveScope, nullish. simpl.
  destruct (external_id identity); auto.
Qed.

Example resolveScope_verified :
  scopeKey (resolveScope
    {| id := "uuid-123"; external_id := Some "ext-abc";
       first_name := Some "Jane"; last_name := Some "Doe";
       row_channel := "telegram"; channel_peer_id := "tg-user";
       row_verified := true |} "telegram" "tg-user") = "ext-abc".
Proof. reflexivity. Qed.

Example resolveScope_unverified :
  scopeKey (resolveScope
    {| id := "uuid-456"; external_id := None;
       first_name := Some "John"; last_name := None;
       row_channel := "whatsapp"; channel_peer_id := "+1234567890";
       row_verified := false |} "whatsapp" "+1234567890") = "uuid-456".
Proof. reflexivity. Qed.

(** *** Substrings of joined lines *)

Lemma prefix_app_l sub s t :
  String.prefix sub s = true -> String.prefix sub (s ++ t) = true.
Proof.
  revert s. induction sub as [|c sub IH]; intros s H.
  { destruct (s ++ t); reflexivity. }
  destruct s as [|d s]; simpl in *; [discriminate|].
  destruct (ascii_dec c d); [auto|discriminate].
Qed.

Lemma prefix_refl_app sub t : String.prefix sub (sub ++ t) = true.
Proof.
  induction sub as [|c sub IH]; simpl; [destruct t; reflexivity|].
  destruct (ascii_dec c c); [assumption|contradiction].
Qed.

Lemma includes_prefix s sub :
  String.prefix sub s = true -> includes s sub = true.
Proof. intros H. destruct s; simpl in *; rewrite H; reflexivity. Qed.

Lemma includes_app_l s t sub :
  includes s sub = true -> includes (s ++ t) sub = true.
Proof.
  induction s as [|c s IH]; simpl; intros H.
  - rewrite orb_false_r in H. destruct sub; [|discriminate].
    destruct t; reflexivity.
  - apply orb_true_iff in H as [H|H].
    + pose proof (prefix_app_l sub (String c s) t H) as E.
      simpl in E. rewrite E. reflexivity.
    + rewrite (IH H). apply orb_true_r.
Qed.

Lemma includes_app_r s t sub :
  includes t sub = true -> includes (s ++ t) sub = true.
Proof.
  intros H. induction s as [|c s IH]; simpl; [assumption|].
  rewrite IH. apply orb_true_r.
Qed.

Lemma prefix_refl s : String.prefix s s = true.
Proof.
  induction s as [|c s IH]; simpl; [reflexivity|].
  destruct (ascii_dec c c); [assumption|contradiction].
Qed.

Lemma includes_self s : includes s s = true.
Proof. apply includes_prefix, prefix_refl. Qed.

(** Every joined line is a substring of the joined text. *)
Lemma includes_join_line sep line lines :
  In line lines -> includes (join sep lines) line = true.
Proof.
  unfold join. induction lines as [|x xs IH]; intros Hin; [destruct Hin|].
  destruct xs as [|y ys].
  - destruct Hin as [->|[]]. apply includes_self.
  - change (String.concat sep (x :: y :: ys))
      with (x ++ sep ++ String.concat sep (y :: ys)).
    destruct Hin as [->|Hin].
    + apply includes_app_l, includes_self.
    + apply includes_app_r, includes_app_r, IH, Hin.
Qed.

Lemma formatGatedMessage_block config :
  String.prefix (gatedBlock ++ nl) (formatGatedMessage config) = true.
Proof.
  unfold formatGatedMessage.
  destruct (truthy_ostr (option_map trim (gateMessage config)));
    vm_compute; reflexivity.
Qed.

(** C8: with [requireVerified] set and an unverified identity the result
    is the gated message: it opens with the block whose only field is
    [gated: true] (no [scope_key], [user_id], [external_id] or [verified]
    line) and it is the same text for every unverified scope, so that no
    field of the scope reaches it; otherwise the result is the scope block
    with [scope_key], [user_id], [external_id], [verified] and
    [gated: false]. *)
Theorem C8_formatScopeBlock_gating scope config :
  (truthy_obool (requireVerified config) = true ->
   verified scope = false ->
     formatScopeBlock scope config = formatGatedMessage config /\
     String.prefix (gatedBlock ++ nl) (formatScopeBlock scope config) = true /\
     includes gatedBlock "gated: true" = true /\
     includes gatedBlock "scope_key" = false /\
     includes gatedBlock "user_id" = false /\
     includes gatedBlock "external_id" = false /\
     includes gatedBlock "verified" = false /\
     forall scope', verified scope' = false ->
       formatScopeBlock scope' config = formatScopeBlock scope config) /\
  (truthy_obool (requireVerified config) = false \/ verified scope = true ->
     let out := formatScopeBlock scope config in
     out = join nl
             ["[MEMORY_SCOPE]";
              "scope_key: " ++ scopeKey scope;
              "user_id: " ++ userId scope;
              "external_id: " ++ nullish (externalId scope) "none";
              "verified: " ++ string_of_bool (verified scope);
              "gated: false";
              "[/MEMORY_SCOPE]"] /\
     includes out ("scope_key: " ++ scopeKey scope) = true /\
     includes out ("user_id: " ++ userId scope) = true /\
     includes out ("external_id: " ++ nullish (externalId scope) "none") = true /\
     includes out ("verified: " ++ string_of_bool (verified scope)) = true /\
     includes out "gated: false" = true).
Proof.
  split.
  - intros Hreq Hunv.
    assert (Hg : forall sc, verified sc = false ->
              formatScopeBlock sc config = formatGatedMessage config).
    { intros sc Hsc. unfold formatScopeBlock. rewrite Hreq, Hsc. reflexivity. }
    rewrite (Hg scope Hunv).
    split; [reflexivity|]. split; [apply formatGatedMessage_block|].
    do 5 (split; [reflexivity|]).
    intros sc Hsc. apply Hg, Hsc.
  - intros Hcase. cbv zeta.
    assert (Hout : formatScopeBlock scope config = join nl
             ["[MEMORY_SCOPE]";
              "scope_key: " ++ scopeKey scope;
              "user_id: " ++ userId scope;
              "external_id: " ++ nullish (externalId scope) "none";
              "verified: " ++ string_of_bool (verified scope);
              "gated: false";
              "[/MEMORY_SCOPE]"]).
    { unfold formatScopeBlock.
      destruct Hcase as [H|H]; rewrite H; [reflexivity|].
      rewrite andb_false_r. reflexivity. }
    rewrite Hout.
    repeat split; apply includes_join_line; simpl; tauto.
Qed.

Lemma C8_formatScopeBlock_gating_witness :
  formatScopeBlock unverifiedScope requireVerifiedConfig
    = formatGatedMessage requireVerifiedConfig /\
  includes (formatScopeBlock verifiedScope requireVerifiedConfig)
           "gated: false" = true.
Proof.
  destruct (C8_formatScopeBlock_gating unverifiedScope requireVerifiedConfig)
    as [Hgated _].
  destruct (C8_formatScopeBlock_gating verifiedScope requireVerifiedConfig)
    as [_ Hopen].
  split.
  - destruct (Hgated eq_refl eq_refl) as [H _]. exact H.
  - destruct (Hopen (or_intror eq_refl)) as (_ & _ & _ & _ & _ & H). exact H.
Defined.

(** The expectations of [scope.test.ts] on the gated output. *)
Example gated_output_default_message :
  let out := formatScopeBlock unverifiedScope requireVerifiedConfig in
  includes out "[MEMORY_SCOPE]" = true /\
  includes out "gated: true" = true /\
  includes out "/verify <token>" = true /\
  includes out "scope_key:" = false /\
  includes out "user_id:" = false /\
  includes out "external_id:" = false /\
  includes out "verified:" = false.
Proof. vm_compute. repeat split. Qed.

Example open_output_unverified :
  let out := formatScopeBlock unverifiedScope defaultConfig in
  includes out "scope_key: uuid-456" = true /\
  includes out "external_id: none" = true /\
  includes out "verified: false" = true /\
  includes out "gated: false" = true.
Proof. vm_compute. repeat split. Qed.

End ScopeFacts.

(** ** [VARCHAR(n)] columns *)

Module PgFacts.
Import Pg.

(** A value that fits is stored as it is. *)
Lemma varchar_fits n s : fits n s = true -> varchar n s = Some s.
Proof. unfold varchar. intros ->. reflexivity. Qed.

Lemma varchar_opt_fits n s : fits_opt n s = true -> varchar_opt n s = Some s.
Proof.
  destruct s as [s|]; [|reflexivity]. cbn [fits_opt varchar_opt].
  intros H. rewrite (varchar_fits n s H). reflexivity.
Qed.

Lemma take_chars_fits n : forall s, fits n (take_chars n s) = true.
Proof.
  unfold fits. intros s. apply Nat.leb_le. revert n.
  induction s as [|c rest IH]; intros n; [simpl; lia|].
  cbn [take_chars]. destruct (is_continuation c) eqn:E.
  - cbn [char_length]. rewrite E. apply IH.
  - destruct n as [|n]; [simpl; lia|].
    cbn [char_length]. rewrite E. specialize (IH n). lia.
Qed.

(** What is stored fits, and is stored again as it is. *)
Lemma varchar_stored_fits n s v : varchar n s = Some v -> fits n v = true.
Proof.
  unfold varchar. destruct (fits n s) eqn:E.
  - intros [= <-]. exact E.
  - destruct (all_spaces (drop_chars n s)); [|discriminate].
    intros [= <-]. apply take_chars_fits.
Qed.

Lemma varchar_idempotent n s v : varchar n s = Some v -> varchar n v = Some v.
Proof. intros H. apply varchar_fits. exact (varchar_stored_fits n s v H). Qed.

(** A value is refused when it does not fit and the characters in excess
    are not all spaces. *)
Lemma varchar_refused n s :
  varchar n s = None <->
  fits n s = false /\ all_spaces (drop_chars n s) = false.
Proof.
  unfold varchar. destruct (fits n s).
  - split; [discriminate|intros [? _]; discriminate].
  - destruct (all_spaces (drop_chars n s)).
    + split; [discriminate|intros [_ ?]; discriminate].
    + split; auto.
Qed.

End PgFacts.

Module LedgerFacts.
Import Js Json Pg Ledger PgFacts.

(** Inserting a message leaves every conversation row, and so every
    [message_count], as it was. *)
Lemma insertMessage_keeps_conversations opts dbNow db :
  lp_conversations (store_of (insertMessage opts dbNow db)) = lp_conversations db.
Proof.
  unfold insertMessage, bind, get, put, throw, ret. simpl.
  destruct (varchar 20 (opt_role opts)); [|reflexivity].
  destruct (negb (existsb _ (lp_conversations db))); reflexivity.
Qed.

(** Touching an existing conversation adds one to its [message_count] and
    inserts no message row. *)
Lemma upsertConversation_conflict opts now db r :
  fits 512 (sessionKey opts) && fits 50 (opt_channel opts) = true ->
  conversation db (sessionKey opts) = Some r ->
  (message_count r < int4_max)%Z ->
  exists db',
    upsertConversation opts now db =
      Returned (on_conflict_update (nullish (lastMessageAt opts) now) r) db' /\
    message_count (on_conflict_update (nullish (lastMessageAt opts) now) r)
      = (message_count r + 1)%Z /\
    lp_messages db' = lp_messages db.
Proof.
  intros Hfit Hconv Hmax. unfold conversation in Hconv.
  apply andb_prop in Hfit. destruct Hfit as [Hk Hc].
  unfold upsertConversation, bind, get, put, throw, ret.
  rewrite (varchar_fits _ _ Hk), (varchar_fits _ _ Hc), Hconv. cbv iota.
  replace (int4_max <? message_count (on_conflict_update _ r))%Z with false.
  - eexists. split; [reflexivity|]. split; reflexivity.
  - symmetry. apply Z.ltb_ge. simpl. lia.
Qed.

(** C1 (the code departs from it): the counter is moved by the upsert and
    never by the insert. Two runs with an empty prompt leave
    [message_count = 1] on a conversation without any message row; one
    ordinary turn (a prompt and a reply) leaves [message_count = 1] on a
    conversation with two message rows. *)
Theorem C1_message_count_follows_upserts :
  let key := "agent:main:telegram:user123" in
  let touched := before_agent_start (Some key) None 2000
                   (before_agent_start (Some key) None 1000 empty) in
  let turn := agent_end (Some key)
                [{| msg_role := Some "user"; msg_content := "hi" |};
                 {| msg_role := Some "assistant"; msg_content := "hello" |}]
                2000
                (before_agent_start (Some key) (Some "hi") 1000 empty) in
  (option_map message_count (conversation touched key) = Some 1%Z /\
   option_map (fun r => List.length (messages_of touched (id r)))
              (conversation touched key) = Some 0%nat) /\
  (option_map message_count (conversation turn key) = Some 1%Z /\
   option_map (fun r => List.length (messages_of turn (id r)))
              (conversation turn key) = Some 2%nat).
Proof. vm_compute. repeat split. Qed.

End LedgerFacts.

Module NodeCryptoFacts.
Import NodeCrypto.
Local Open Scope list_scope.
Local Open Scope Z_scope.

(** Known answers: FIPS 180-4 ("abc") and RFC 4231 (test case 2). *)
Example sha256_abc :
  hex_of (sha256 (Buffer_from "abc")) =
  "ba7816bf8f01cfea414140de5dae2223b00361a396177a9cb410ff61f20015ad"%string.
Proof. vm_compute. reflexivity. Qed.

Example hmac_sha256_rfc4231_2 :
  hex_of (hmac_sha256 (Buffer_from "Jefe")
                      (Buffer_from "what do ya want for nothing?")) =
  "5bdcc146bf60754e6a042426089575c75a003f089d2739839dec58b964ec3843"%string.
Proof. vm_compute. reflexivity. Qed.

(** Node drops the unused low bits of the last character. *)
Example base64url_trailing_bits :
  Buffer_from_base64url "QQ" = [65] /\ Buffer_from_base64url "QR" = [65].
Proof. split; reflexivity. Qed.

(** *** Checking a property on every byte by evaluation *)

Lemma in_below n v : 0 <= v < Z.of_nat n -> In v (below n).
Proof.
  intros H. unfold below. apply in_map_iff. exists (Z.to_nat v). split.
  - lia.
  - apply in_seq. lia.
Qed.

Lemma check1 (n : nat) (P : Z -> bool) :
  forallb P (below n) = true ->
  forall a, 0 <= a < Z.of_nat n -> P a = true.
Proof.
  intros H a Ha. rewrite forallb_forall in H. apply H, in_below, Ha.
Qed.

Lemma check2 (n m : nat) (P : Z -> Z -> bool) :
  forallb (fun a => forallb (P a) (below m)) (below n) = true ->
  forall a b, 0 <= a < Z.of_nat n -> 0 <= b < Z.of_nat m -> P a b = true.
Proof.
  intros H a b Ha Hb.
  apply (check1 m (P a)); [|exact Hb].
  apply (check1 n (fun a => forallb (P a) (below m)) H a Ha).
Qed.

(** *** The alphabet *)

Lemma sextet_char v :
  is_sextet v ->
  Ascii.eqb (b64url_char v) "=" = false /\ unbase64 (b64url_char v) = Some v.
Proof.
  intros Hv.
  assert (H : (negb (Ascii.eqb (b64url_char v) "=")
               && match unbase64 (b64url_char v) with
                  | Some w => w =? v
                  | None => false
                  end)%bool = true).
  { apply (check1 64 (fun v => (negb (Ascii.eqb (b64url_char v) "=")
               && match unbase64 (b64url_char v) with
                  | Some w => w =? v
                  | None => false
                  end)%bool)); [vm_compute; reflexivity|exact Hv]. }
  apply andb_prop in H as [H1 H2]. split.
  - apply negb_true_iff, H1.
  - destruct (unbase64 (b64url_char v)); [|discriminate].
    apply Z.eqb_eq in H2. congruence.
Qed.

(** Decoding the characters of sextets gives the sextets back. *)
Lemma b64_sextets_chars vs :
  Forall is_sextet vs ->
  b64_sextets (string_of_list_ascii (map b64url_char vs)) = vs.
Proof.
  induction 1 as [|v vs Hv _ IH]; simpl; [reflexivity|].
  destruct (sextet_char v Hv) as [He Hu]. rewrite He, Hu, IH. reflexivity.
Qed.

(** *** The bit packing, checked on all bytes *)

Lemma in_range_sextet v : in_range 64 v = true -> is_sextet v.
Proof.
  unfold in_range, is_sextet. intros H. apply andb_prop in H as [A B]. lia.
Qed.

Ltac close_check :=
  first [apply in_range_sextet; assumption | apply Z.eqb_eq; assumption].

Lemma pack_first b0 b1 :
  is_byte b0 -> is_byte b1 ->
  is_sextet (enc0 b0) /\ is_sextet (enc1 b0 b1) /\
  dec0 (enc0 b0) (enc1 b0 b1) = b0 /\
  Z.land (enc1 b0 b1) 15 = Z.shiftr b1 4.
Proof.
  intros H0 H1.
  pose proof (check2 256 256
    (fun b0 b1 => in_range 64 (enc0 b0) && in_range 64 (enc1 b0 b1)
                  && (dec0 (enc0 b0) (enc1 b0 b1) =? b0)
                  && (Z.land (enc1 b0 b1) 15 =? Z.shiftr b1 4))%bool) as C.
  specialize (C ltac:(vm_compute; reflexivity) b0 b1 H0 H1). cbv beta in C.
  do 3 (apply andb_prop in C as [C ?]).
  refine (conj _ (conj _ (conj _ _))); close_check.
Qed.

Lemma pack_second b1 b2 :
  is_byte b1 -> is_byte b2 ->
  is_sextet (enc2 b1 b2) /\ is_sextet (enc3 b2) /\
  Z.lor (Z.shiftl (Z.shiftr b1 4) 4) (Z.shiftr (enc2 b1 b2) 2) = b1 /\
  dec2 (enc2 b1 b2) (enc3 b2) = b2.
Proof.
  intros H1 H2.
  pose proof (check2 256 256
    (fun b1 b2 => in_range 64 (enc2 b1 b2) && in_range 64 (enc3 b2)
                  && (Z.lor (Z.shiftl (Z.shiftr b1 4) 4)
                        (Z.shiftr (enc2 b1 b2) 2) =? b1)
                  && (dec2 (enc2 b1 b2) (enc3 b2) =? b2))%bool) as C.
  specialize (C ltac:(vm_compute; reflexivity) b1 b2 H1 H2). cbv beta in C.
  do 3 (apply andb_prop in C as [C ?]).
  refine (conj _ (conj _ (conj _ _))); close_check.
Qed.

Lemma pack_middle b0 b1 b2 :
  is_byte b0 -> is_byte b1 -> is_byte b2 ->
  dec1 (enc1 b0 b1) (enc2 b1 b2) = b1.
Proof.
  intros H0 H1 H2. unfold dec1.
  destruct (pack_first b0 b1 H0 H1) as (_ & _ & _ & E).
  destruct (pack_second b1 b2 H1 H2) as (_ & _ & F & _).
  rewrite E. exact F.
Qed.

Lemma zero_is_byte : is_byte 0.
Proof. unfold is_byte. lia. Qed.

(** *** Round trip *)

Lemma b64_encode_sextets_ok n :
  forall bs, (List.length bs <= n)%nat -> Forall is_byte bs ->
    Forall is_sextet (b64_encode_sextets bs) /\
    b64_bytes (b64_encode_sextets bs) = bs.
Proof.
  induction n as [|n IH]; intros bs Hlen Hb.
  - destruct bs; [|simpl in Hlen; lia]. split; [constructor|reflexivity].
  - destruct bs as [|b0 [|b1 [|b2 rest]]].
    + split; [constructor|reflexivity].
    + apply Forall_cons_iff in Hb as [H0 _].
      destruct (pack_first b0 0 H0 zero_is_byte) as (S0 & S1 & D0 & _).
      split; [simpl; auto using Forall_cons, Forall_nil|].
      simpl. rewrite D0. reflexivity.
    + apply Forall_cons_iff in Hb as [H0 Hb].
      apply Forall_cons_iff in Hb as [H1 _].
      destruct (pack_first b0 b1 H0 H1) as (S0 & S1 & D0 & _).
      destruct (pack_second b1 0 H1 zero_is_byte) as (S2 & _ & _ & _).
      pose proof (pack_middle b0 b1 0 H0 H1 zero_is_byte) as D1.
      split; [simpl; auto using Forall_cons, Forall_nil|].
      simpl. rewrite D0, D1. reflexivity.
    + apply Forall_cons_iff in Hb as [H0 Hb].
      apply Forall_cons_iff in Hb as [H1 Hb].
      apply Forall_cons_iff in Hb as [H2 Hb].
      destruct (pack_first b0 b1 H0 H1) as (S0 & S1 & D0 & _).
      destruct (pack_second b1 b2 H1 H2) as (S2 & S3 & _ & D2).
      pose proof (pack_middle b0 b1 b2 H0 H1 H2) as D1.
      destruct (IH rest ltac:(simpl in Hlen; lia) Hb) as [IHs IHb].
      split.
      * simpl. auto using Forall_cons.
      * simpl. rewrite D0, D1, D2, IHb. reflexivity.
Qed.

(** Decoding what [digest("base64url")] produced gives the digest back. *)
Theorem base64url_roundtrip bs :
  Forall is_byte bs -> Buffer_from_base64url (b64url_encode bs) = bs.
Proof.
  intros Hb.
  destruct (b64_encode_sextets_ok (List.length bs) bs (le_n _) Hb) as [Hs Hr].
  unfold Buffer_from_base64url, b64url_encode.
  rewrite (b64_sextets_chars _ Hs). exact Hr.
Qed.

(** *** The digest is a buffer of bytes *)

Lemma be_bytes_are_bytes n x : Forall is_byte (be_bytes n x).
Proof.
  unfold be_bytes. apply Forall_forall. intros b Hin.
  apply in_map_iff in Hin as (i & <- & _).
  change 255 with (Z.ones 8). rewrite Z.land_ones by lia.
  unfold is_byte. apply Z.mod_pos_bound. reflexivity.
Qed.

Lemma sha256_bytes msg : Forall is_byte (sha256 msg).
Proof.
  unfold sha256. apply Forall_forall. intros b Hin.
  apply in_flat_map in Hin as (w & _ & Hin).
  pose proof (be_bytes_are_bytes 4 w) as H.
  rewrite Forall_forall in H. apply H, Hin.
Qed.

Lemma hmac_sha256_bytes key msg : Forall is_byte (hmac_sha256 key msg).
Proof. unfold hmac_sha256. apply sha256_bytes. Qed.

(** [timingSafeEqual] decides equality. *)
Lemma timingSafeEqual_eq a b : timingSafeEqual a b = true <-> a = b.
Proof.
  revert b. induction a as [|x a IH]; intros [|y b]; simpl; split; intros H;
    try reflexivity; try discriminate.
  - apply andb_prop in H as [Hx Ha]. apply Z.eqb_eq in Hx.
    apply IH in Ha. congruence.
  - injection H as -> ->. rewrite Z.eqb_refl. apply IH. reflexivity.
Qed.

End NodeCryptoFacts.

Module JwtFacts.
Import Js Json NodeCrypto NodeCryptoFacts Jwt Samples.

Ltac by_evaluation := vm_compute; reflexivity.

Lemma token_sub_valid : otherwise_valid token_sub hs256 claims_sub "ext-42".
Proof.
  apply (OtherwiseValid _ _ _ _ header_b64 payload_sub signature_sub "s3cret");
    by_evaluation.
Qed.

(** Name, e-mail, issuer and audience of a token that carries them. *)
Example verifyHS256_full_token :
  (exists v,
     verifyHS256 token_full hs256_issuer_audience 1700000000000
     = Returns (Some v) /\
     (externalId v, firstName v, lastName v, emailAddress v)
     = ("ext-42", Some "Ana", Some "Maria Lopez", Some "ana@example.com")) /\
  verifyHS256 token_full
    {| mode := jwt_hs256; jwtSecret := Some "s3cret"; verifyEndpoint := None;
       issuer := Some "https://other.example"; audience := None |}
    1700000000000 = Returns None /\
  verifyHS256 token_full
    {| mode := jwt_hs256; jwtSecret := Some "s3cret"; verifyEndpoint := None;
       issuer := None; audience := Some "someone-else" |}
    1700000000000 = Returns None /\
  verifyHS256 token_full hs256_issuer_audience 1700000601000 = Returns None.
Proof.
  split; [|split; [|split]]; try by_evaluation.
  eexists. split; by_evaluation.
Qed.

Lemma token_exp0_valid : otherwise_valid token_exp0 hs256 claims_exp0 "ext-42".
Proof.
  apply (OtherwiseValid _ _ _ _ header_b64 "eyJzdWIiOiJleHQtNDIiLCJleHAiOjB9"
           "UfkdXCwxvvoyN5WemJg7J6I04w6UUBsH39MEBZre15s" "s3cret");
    by_evaluation.
Qed.

Lemma token_exp_later_valid :
  otherwise_valid token_exp_later hs256 claims_exp_later "ext-42".
Proof.
  apply (OtherwiseValid _ _ _ _ header_b64
           "eyJzdWIiOiJleHQtNDIiLCJleHAiOjE3MDAwMDAwMDF9"
           "ZUKOLJz5nyKZ5Oil3p8D4QBi3X0dGMZ_QCZ9CAGUlL8" "s3cret");
    by_evaluation.
Qed.

Lemma token_exp_earlier_valid :
  otherwise_valid token_exp_earlier hs256 claims_exp_earlier "ext-42".
Proof.
  apply (OtherwiseValid _ _ _ _ header_b64
           "eyJzdWIiOiJleHQtNDIiLCJleHAiOjE2OTk5OTk5OTl9"
           "HmdI5BPhBwh7D0_5ABIdBeN-2W6g7ee1j3rZpBaftAQ" "s3cret");
    by_evaluation.
Qed.

(** *** The signature check *)

(** The buffer that the code compares the supplied signature with is the
    keyed hash itself. *)
Lemma expected_buffer secret data :
  Buffer_from_base64url (createHmac_sha256_base64url secret data) =
  hmac_sha256 (Buffer_from secret) (Buffer_from data).
Proof.
  unfold createHmac_sha256_base64url.
  apply base64url_roundtrip, hmac_sha256_bytes.
Qed.

Lemma signature_check sigBuf expBuf :
  negb (len sigBuf =? len expBuf)%Z || negb (timingSafeEqual sigBuf expBuf) = false
  <-> sigBuf = expBuf.
Proof.
  split.
  - intros H. apply orb_false_iff in H as [_ H].
    apply negb_false_iff in H. apply timingSafeEqual_eq, H.
  - intros ->. rewrite Z.eqb_refl.
    rewrite (proj2 (timingSafeEqual_eq expBuf expBuf) eq_refl). reflexivity.
Qed.

(** C6 (amended): a token whose signature segment does not decode to the
    keyed hash of [header.payload] is not verified, whatever its payload
    and the time. *)
Theorem C6_signature_mismatch_rejected
  token header payload signature config secret nowMs :
  split "." token = [header; payload; signature] ->
  jwtSecret config = Some secret ->
  Buffer_from_base64url signature <>
    hmac_sha256 (Buffer_from secret) (Buffer_from (header ++ "." ++ payload)) ->
  verifyHS256 token config nowMs = Returns None.
Proof.
  intros Hsplit Hsecret Hsig. unfold verifyHS256.
  rewrite Hsplit, Hsecret, expected_buffer.
  destruct (negb (len (Buffer_from_base64url signature)
                  =? len (hmac_sha256 (Buffer_from secret)
                            (Buffer_from (header ++ "." ++ payload))))%Z
            || negb (timingSafeEqual (Buffer_from_base64url signature)
                       (hmac_sha256 (Buffer_from secret)
                          (Buffer_from (header ++ "." ++ payload))))) eqn:E.
  - reflexivity.
  - apply signature_check in E. contradiction.
Qed.

(** Conversely, a verified token has three segments and a signature that
    decodes to the keyed hash of its first two. *)
Lemma verifyHS256_verified_signature token config nowMs identity :
  verifyHS256 token config nowMs = Returns (Some identity) ->
  exists header payload signature secret,
    split "." token = [header; payload; signature] /\
    jwtSecret config = Some secret /\
    Buffer_from_base64url signature =
      hmac_sha256 (Buffer_from secret) (Buffer_from (header ++ "." ++ payload)).
Proof.
  intros H. unfold verifyHS256 in H.
  destruct (split "." token) as [|header [|payload [|signature [|extra rest]]]];
    try discriminate.
  destruct (jwtSecret config) as [secret|]; [|discriminate].
  exists header, payload, signature, secret.
  split; [reflexivity|]. split; [reflexivity|].
  rewrite expected_buffer in H.
  destruct (negb (len (Buffer_from_base64url signature)
                  =? len (hmac_sha256 (Buffer_from secret)
                            (Buffer_from (header ++ "." ++ payload))))%Z
            || negb (timingSafeEqual (Buffer_from_base64url signature)
                       (hmac_sha256 (Buffer_from secret)
                          (Buffer_from (header ++ "." ++ payload))))) eqn:E;
    [discriminate|].
  apply signature_check, E.
Qed.

(** The token of [claims_sub] with the second character of its signature
    changed: the signature decodes to other bytes. *)
Lemma C6_signature_mismatch_rejected_witness :
  verifyHS256 (header_b64 ++ "." ++ payload_sub ++ "."
               ++ signature_sub_second_changed)
              hs256 1700000000000 = Returns None.
Proof.
  apply (C6_signature_mismatch_rejected _ header_b64 payload_sub
           signature_sub_second_changed hs256 "s3cret").
  - vm_compute; reflexivity.
  - reflexivity.
  - vm_compute. discriminate.
Defined.

(** C6, as stated, fails: changing the last character of the signature
    segment from [c] to [d] changes only the two low bits that the decoder
    drops, and the tampered token is verified like the genuine one. *)
Lemma C6_tampered_signature_accepted :
  let token signature := header_b64 ++ "." ++ payload_sub ++ "." ++ signature in
  one_char_changed signature_sub signature_sub_last_changed = true /\
  Buffer_from_base64url signature_sub_last_changed
    = Buffer_from_base64url signature_sub /\
  verifyHS256 (token signature_sub) hs256 1700000000000
    = Returns (Some (identityOfClaims claims_sub "ext-42")) /\
  verifyHS256 (token signature_sub_last_changed) hs256 1700000000000
    = Returns (Some (identityOfClaims claims_sub "ext-42")).
Proof. split; [|split; [|split]]; vm_compute; reflexivity. Qed.

(** *** The checks after the signature *)

(** A payload that decodes to a claim set of the declared type is one
    that parses to a value of which that claim set is the typed view. *)
Lemma decodePayload_parsed payload decoded :
  decodePayload payload = Some decoded ->
  exists j, parsePayload payload = Returns j /\ asJWTPayload j = Some decoded.
Proof.
  unfold decodePayload. destruct (parsePayload payload) as [j|e|];
    try discriminate.
  intros H. exists j. split; [reflexivity|exact H].
Qed.

Lemma number_member_expired key j x now :
  number_member key j = Some x ->
  exp_expired (get key j) now = Some (expired x now).
Proof.
  unfold number_member, exp_expired.
  destruct (get key j) as [[| | | | |]|]; try discriminate;
    intros H; injection H as <-; reflexivity.
Qed.

Lemma text_value_truthy v subject :
  text_value v = Some (Some subject) ->
  truthy v = truthy_str subject /\ id_value v = Some (IdString subject).
Proof.
  unfold text_value. destruct v as [[| | | | |]|]; try discriminate.
  intros H. injection H as <-. split; reflexivity.
Qed.

(** On a decoded value of the declared type, the checks on the value are
    the checks on its typed view. *)
Lemma verifyClaims_typed j decoded config nowMs subject :
  asJWTPayload j = Some decoded ->
  issuer_mismatch config decoded = false ->
  audience_mismatch config decoded = false ->
  sub decoded = Some subject ->
  truthy_str subject = true ->
  verifyClaims j config nowMs =
    if expired (exp decoded) (nowSeconds nowMs) then Returns None
    else Returns (Some (identityOfClaims decoded subject)).
Proof.
  intros Hview Hiss Haud Hsub Ht.
  assert (Hfields :
    text_value (get "sub" j) = Some (sub decoded) /\
    text_value (get "given_name" j) = Some (given_name decoded) /\
    text_value (get "family_name" j) = Some (family_name decoded) /\
    text_value (get "name" j) = Some (name decoded) /\
    text_value (get "email" j) = Some (email decoded) /\
    number_member "exp" j = Some (exp decoded) /\
    iss decoded = get "iss" j /\ aud decoded = get "aud" j /\
    claims decoded = j /\
    j <> JNull /\ (forall s, j <> JStr s)).
  { unfold asJWTPayload, string_member in Hview.
    assert (Hkind : j <> JNull /\ (forall s, j <> JStr s))
      by (destruct j; try discriminate Hview; split; intros; discriminate).
    assert (Hrest :
      match text_value (get "sub" j), text_value (get "given_name" j),
            text_value (get "family_name" j), text_value (get "name" j),
            text_value (get "email" j), number_member "exp" j with
      | Some s, Some g, Some f, Some n, Some e, Some x =>
          Some {| sub := s; given_name := g; family_name := f; name := n;
                  email := e; exp := x;
                  iss := get "iss" j; aud := get "aud" j; claims := j |}
      | _, _, _, _, _, _ => None
      end = Some decoded)
      by (destruct j; try discriminate Hview; exact Hview).
    destruct (text_value (get "sub" j)) as [s|]; [|discriminate Hrest].
    destruct (text_value (get "given_name" j)) as [g|]; [|discriminate Hrest].
    destruct (text_value (get "family_name" j)) as [f|]; [|discriminate Hrest].
    destruct (text_value (get "name" j)) as [n|]; [|discriminate Hrest].
    destruct (text_value (get "email" j)) as [e|]; [|discriminate Hrest].
    destruct (number_member "exp" j) as [x|]; [|discriminate Hrest].
    injection Hrest as <-. cbn.
    repeat (split; [reflexivity|]). exact Hkind. }
  destruct Hfields as (Fsub & Fg & Ff & Fn & Fe & Fx & Fiss & Faud & Fc & Hnn & Hns).
  unfold issuer_mismatch in Hiss. unfold audience_mismatch in Haud.
  rewrite Fiss in Hiss. rewrite Faud in Haud.
  rewrite Hsub in Fsub.
  destruct (text_value_truthy _ _ Fsub) as [Htruthy Hid].
  rewrite Ht in Htruthy.
  assert (Hbody :
    match exp_expired (get "exp" j) (nowSeconds nowMs) with
    | None => Beyond
    | Some true => Returns None
    | Some false =>
        if iss_differs config (get "iss" j) then Returns None
        else if aud_lacks config (get "aud" j) then Returns None
        else
          if negb (truthy (get "sub" j)) then Returns None
          else
            match text_value (get "name" j) with
            | None => Throws TypeError
            | Some name =>
                match id_value (get "sub" j),
                      text_value (get "given_name" j),
                      text_value (get "family_name" j),
                      text_value (get "email" j) with
                | Some id, Some given, Some family, Some email =>
                    Returns (Some (identityOf id given family
                                     (nameParts_of name) email j))
                | _, _, _, _ => Beyond
                end
            end
    end
    = if expired (exp decoded) (nowSeconds nowMs) then Returns None
      else Returns (Some (identityOfClaims decoded subject))).
  { rewrite (number_member_expired _ _ _ _ Fx), Hiss, Haud, Htruthy.
    rewrite Fn, Hid, Fg, Ff, Fe. unfold identityOfClaims. rewrite Fc.
    cbn [negb]. reflexivity. }
  unfold verifyClaims.
  destruct j; try exact Hbody.
  - contradiction Hnn. reflexivity.
  - contradiction (Hns s). reflexivity.
Qed.

Lemma verifyHS256_otherwise_valid token config decoded subject nowMs :
  otherwise_valid token config decoded subject ->
  verifyHS256 token config nowMs =
    if expired (exp decoded) (nowSeconds nowMs) then Returns None
    else Returns (Some (identityOfClaims decoded subject)).
Proof.
  intros [header payload signature secret Hsplit Hsecret Hsig Hdec Hiss Haud Hsub Ht].
  destruct (decodePayload_parsed _ _ Hdec) as (j & Hparse & Hview).
  unfold verifyHS256.
  rewrite Hsplit, Hsecret, expected_buffer.
  rewrite (proj2 (signature_check _ _) Hsig).
  rewrite Hparse.
  exact (verifyClaims_typed j decoded config nowMs subject
           Hview Hiss Haud Hsub Ht).
Qed.

(** C7 (amended): for an otherwise valid token with a non-zero [exp]
    claim, verification fails exactly when [exp] is strictly before the
    current second; so [exp] one second earlier is not verified, and [exp]
    equal to the current second or one second later is verified. *)
Theorem C7_expiry_boundary token config decoded subject nowMs e :
  otherwise_valid token config decoded subject ->
  exp decoded = Some e ->
  e <> 0%Z ->
  let now := nowSeconds nowMs in
  (verifyHS256 token config nowMs = Returns None <-> (e < now)%Z) /\
  (e = (now - 1)%Z -> verifyHS256 token config nowMs = Returns None) /\
  (e = now -> verifyHS256 token config nowMs
                = Returns (Some (identityOfClaims decoded subject))) /\
  (e = (now + 1)%Z -> verifyHS256 token config nowMs
                        = Returns (Some (identityOfClaims decoded subject))).
Proof.
  intros Hvalid Hexp He now.
  rewrite (verifyHS256_otherwise_valid _ _ _ _ nowMs Hvalid), Hexp.
  unfold expired. fold now.
  apply Z.eqb_neq in He. rewrite He. simpl negb. cbv iota. rewrite andb_true_l.
  destruct (e <? now)%Z eqn:E.
  - apply Z.ltb_lt in E. repeat split; intros; try reflexivity; try assumption; lia.
  - apply Z.ltb_ge in E. repeat split; intros; try reflexivity; try discriminate; lia.
Qed.

Lemma C7_expiry_boundary_witness :
  verifyHS256 token_exp_earlier hs256 1700000000999 = Returns None /\
  verifyHS256 token_exp_later hs256 1700000000999
    = Returns (Some (identityOfClaims claims_exp_later "ext-42")).
Proof.
  split.
  - apply (C7_expiry_boundary token_exp_earlier hs256 claims_exp_earlier
             "ext-42" 1700000000999 1699999999 token_exp_earlier_valid
             eq_refl ltac:(discriminate)).
    reflexivity.
  - apply (C7_expiry_boundary token_exp_later hs256 claims_exp_later
             "ext-42" 1700000000999 1700000001 token_exp_later_valid
             eq_refl ltac:(discriminate)).
    reflexivity.
Defined.

(** C7, as stated, fails in the second that follows the epoch: the [exp]
    claim one second before the current time is then [0], which the expiry
    check takes for a missing claim, and the token is verified. *)
Lemma C7_exp_zero_one_second_ago_accepted :
  otherwise_valid token_exp0 hs256 claims_exp0 "ext-42" /\
  exp claims_exp0 = Some (nowSeconds 1000 - 1)%Z /\
  verifyHS256 token_exp0 hs256 1000
    = Returns (Some (identityOfClaims claims_exp0 "ext-42")).
Proof.
  split; [exact token_exp0_valid|]. split; vm_compute; reflexivity.
Qed.

(** C10: the expiry check is skipped for a token without [exp] claim and
    for a token whose [exp] claim is [0]: otherwise valid, it is verified
    at every time. *)
Theorem C10_exp_missing_or_zero_accepted token config decoded subject nowMs :
  otherwise_valid token config decoded subject ->
  exp decoded = None \/ exp decoded = Some 0%Z ->
  verifyHS256 token config nowMs
  = Returns (Some (identityOfClaims decoded subject)).
Proof.
  intros Hvalid Hexp.
  rewrite (verifyHS256_otherwise_valid _ _ _ _ nowMs Hvalid).
  destruct Hexp as [-> | ->]; reflexivity.
Qed.

Lemma C10_exp_missing_or_zero_accepted_witness :
  verifyHS256 token_exp0 hs256 1700000000000
    = Returns (Some (identityOfClaims claims_exp0 "ext-42")) /\
  verifyHS256 token_sub hs256 1700000000000
    = Returns (Some (identityOfClaims claims_sub "ext-42")).
Proof.
  split.
  - apply (C10_exp_missing_or_zero_accepted _ _ _ _ _ token_exp0_valid).
    right. reflexivity.
  - apply (C10_exp_missing_or_zero_accepted _ _ _ _ _ token_sub_valid).
    left. reflexivity.
Defined.

End JwtFacts.

Module IdentityDbFacts.
Import Js Pg IdentityDb PgFacts.
Local Open Scope list_scope.

(** *** Fresh identifiers *)

Lemma gen_random_uuid_inj n m :
  gen_random_uuid n = gen_random_uuid m -> n = m.
Proof.
  unfold gen_random_uuid. intros H. simpl in H.
  injection H as H.
  apply (f_equal NilEmpty.uint_of_string) in H.
  rewrite !NilEmpty.usu in H. injection H as H.
  apply (f_equal Nat.of_uint) in H.
  rewrite !Unsigned.of_to in H. exact H.
Qed.

(** *** Lists of rows with a unique key *)

Lemma filter_none {A} (f : A -> bool) (l : list A) :
  (forall y, In y l -> f y = false) -> filter f l = [].
Proof.
  induction l as [|a l IH]; intros H; [reflexivity|].
  simpl. rewrite (H a) by (left; reflexivity).
  apply IH. intros y Hy. apply H. right. exact Hy.
Qed.

Lemma filter_unique {A} (f : A -> bool) (l : list A) (x : A) :
  NoDup l -> In x l -> f x = true ->
  (forall y, In y l -> f y = true -> y = x) ->
  filter f l = [x].
Proof.
  induction l as [|a l IH]; intros Hnd Hin Hfx Huniq; [destruct Hin|].
  inversion Hnd as [|a' l' Hnotin Hnd']; subst.
  simpl. destruct (f a) eqn:Hfa.
  - assert (a = x) by (apply Huniq; [left; reflexivity|assumption]). subst a.
    f_equal. apply filter_none. intros y Hy.
    destruct (f y) eqn:Hfy; [|reflexivity].
    exfalso. apply Hnotin.
    rewrite <- (Huniq y (or_intror Hy) Hfy). exact Hy.
  - destruct Hin as [Hax|Hin]; [congruence|].
    apply IH; auto. intros y Hy. apply Huniq. right. exact Hy.
Qed.

Lemma same_peer_iff c p uc :
  same_peer c p uc = true <-> channel uc = c /\ channel_peer_id uc = p.
Proof.
  unfold same_peer. rewrite andb_true_iff, !String.eqb_eq. reflexivity.
Qed.

Lemma peer_key_inj (db : Db) uc uc' :
  NoDup (map (fun uc => (channel uc, channel_peer_id uc)) (lp_user_channels db)) ->
  In uc (lp_user_channels db) -> In uc' (lp_user_channels db) ->
  channel uc = channel uc' -> channel_peer_id uc = channel_peer_id uc' ->
  uc = uc'.
Proof.
  generalize (lp_user_channels db). intros l.
  induction l as [|a l IH]; intros Hnd Hin Hin' Hc Hp; [destruct Hin|].
  simpl in Hnd. inversion Hnd as [|k ks Hnotin Hnd']; subst.
  assert (Hkey : forall x, In x l ->
            In (channel x, channel_peer_id x)
               (map (fun uc => (channel uc, channel_peer_id uc)) l)).
  { intros x Hx. apply in_map_iff. exists x. split; [reflexivity|exact Hx]. }
  destruct Hin as [->|Hin], Hin' as [->|Hin'].
  - reflexivity.
  - exfalso. apply Hnotin. rewrite Hc, Hp. apply Hkey, Hin'.
  - exfalso. apply Hnotin. rewrite <- Hc, <- Hp. apply Hkey, Hin.
  - apply IH; assumption.
Qed.

Lemma user_id_inj (db : Db) u u' :
  NoDup (map id (lp_users db)) ->
  In u (lp_users db) -> In u' (lp_users db) -> id u = id u' -> u = u'.
Proof.
  generalize (lp_users db). intros l.
  induction l as [|a l IH]; intros Hnd Hin Hin' Hid; [destruct Hin|].
  simpl in Hnd. inversion Hnd as [|k ks Hnotin Hnd']; subst.
  destruct Hin as [->|Hin], Hin' as [->|Hin'].
  - reflexivity.
  - exfalso. apply Hnotin. rewrite Hid. apply in_map, Hin'.
  - exfalso. apply Hnotin. rewrite <- Hid. apply in_map, Hin.
  - apply IH; assumption.
Qed.

(** *** What the rows of a store satisfying the constraints look like *)

Section Constrained.
Variable db : Db.
Hypothesis Hc : constraints_hold db.

(** Exactly one link row for a linked peer. *)
Lemma links_of_peer_unique c p uc :
  In uc (lp_user_channels db) -> same_peer c p uc = true ->
  links_of_peer db c p = [uc].
Proof.
  intros Hin Hsame. unfold links_of_peer.
  apply filter_unique; try assumption.
  - apply (NoDup_map_inv _ _ (peer_unique db Hc)).
  - intros y Hy Hsy. apply same_peer_iff in Hsame as [C P].
    apply same_peer_iff in Hsy as [C' P'].
    apply (peer_key_inj db); try assumption; try congruence.
    apply (peer_unique db Hc).
Qed.

(** Exactly one user row for an external id in use. *)
Lemma users_with_external_id_unique e u :
  In u (lp_users db) -> external_id u = Some e ->
  users_with_external_id db e = [u].
Proof.
  intros Hin He. unfold users_with_external_id.
  apply filter_unique; try assumption.
  - apply (NoDup_map_inv _ _ (users_pk db Hc)).
  - unfold has_external_id. rewrite He. apply String.eqb_refl.
  - intros y Hy Hfy. unfold has_external_id in Hfy.
    destruct (external_id y) as [e'|] eqn:Ey; [|discriminate].
    apply String.eqb_eq in Hfy. subst e'.
    apply (external_id_unique db Hc y u e); assumption.
Qed.

Lemma findUserByExternalId_unique e u :
  In u (lp_users db) -> external_id u = Some e ->
  findUserByExternalId db e = Some u.
Proof.
  intros Hin He. unfold findUserByExternalId.
  destruct (find (has_external_id e) (lp_users db)) as [u'|] eqn:F.
  - apply find_some in F as [Hin' Hf]. unfold has_external_id in Hf.
    destruct (external_id u') as [e'|] eqn:Ee; [|discriminate].
    apply String.eqb_eq in Hf. subst e'.
    f_equal. apply (external_id_unique db Hc u' u e); assumption.
  - exfalso. pose proof (find_none _ _ F u Hin) as Hf.
    unfold has_external_id in Hf. rewrite He, String.eqb_refl in Hf.
    discriminate.
Qed.

(** The join of a linked peer is the user its link references. *)
Lemma findUserByChannelPeer_linked c p u uc :
  In u (lp_users db) -> In uc (lp_user_channels db) ->
  same_peer c p uc = true -> user_id uc = id u ->
  findUserByChannelPeer db c p =
    Some {| user := u;
            resolved_channel := channel uc;
            resolved_peer_id := channel_peer_id uc;
            verified := is_some (external_id u) |}.
Proof.
  intros Hu Huc Hsame Hid. unfold findUserByChannelPeer.
  pose proof (users_pk db Hc) as Hpk.
  assert (Hjoin : forall u', In u' (lp_users db) ->
            filter (fun x => String.eqb (user_id x) (id u') && same_peer c p x)
                   (lp_user_channels db)
            = if String.eqb (id u) (id u') then [uc] else []).
  { intros u' Hu'.
    destruct (String.eqb (id u) (id u')) eqn:E.
    - apply String.eqb_eq in E. apply filter_unique.
      + apply (NoDup_map_inv _ _ (peer_unique db Hc)).
      + exact Huc.
      + rewrite Hsame, Hid, E, String.eqb_refl. reflexivity.
      + intros y Hy Hfy. apply andb_prop in Hfy as [_ Hsy].
        apply same_peer_iff in Hsame as [C P].
        apply same_peer_iff in Hsy as [C' P'].
        apply (peer_key_inj db); try assumption; try congruence.
        apply (peer_unique db Hc).
    - apply filter_none. intros y Hy.
      destruct (same_peer c p y) eqn:Hsy; [|apply andb_false_r].
      assert (y = uc).
      { apply same_peer_iff in Hsame as [C P].
        apply same_peer_iff in Hsy as [C' P'].
        apply (peer_key_inj db); try assumption; try congruence.
        apply (peer_unique db Hc). }
      subst y. rewrite Hid, E. reflexivity. }
  revert Hu Hpk Hjoin. generalize (lp_users db) as us.
  induction us as [|a us IH]; intros Hu Hpk Hjoin; [destruct Hu|].
  simpl. rewrite (Hjoin a) by (left; reflexivity).
  simpl in Hpk. inversion Hpk as [|k ks Hnotin Hpk']; subst.
  destruct Hu as [->|Hu].
  - rewrite String.eqb_refl. reflexivity.
  - destruct (String.eqb (id u) (id a)) eqn:E.
    + exfalso. apply String.eqb_eq in E. apply Hnotin. rewrite <- E.
      apply in_map, Hu.
    + simpl. apply IH; auto. intros u' Hu'. apply Hjoin. right. exact Hu'.
Qed.

(** A resolved identity comes from a user row and a link row. *)
Lemma findUserByChannelPeer_some c p l :
  findUserByChannelPeer db c p = Some l ->
  In (user l) (lp_users db) /\
  exists uc, In uc (lp_user_channels db) /\ same_peer c p uc = true /\
             user_id uc = id (user l).
Proof.
  unfold findUserByChannelPeer. intros H.
  assert (Hin : In l (flat_map
         (fun u =>
            map (fun uc => {| user := u;
                              resolved_channel := channel uc;
                              resolved_peer_id := channel_peer_id uc;
                              verified := is_some (external_id u) |})
                (filter (fun uc => String.eqb (user_id uc) (id u)
                                   && same_peer c p uc)
                        (lp_user_channels db)))
         (lp_users db))).
  { destruct (flat_map _ _) as [|x xs]; [discriminate|].
    injection H as ->. left. reflexivity. }
  apply in_flat_map in Hin as (u & Hu & Hin).
  apply in_map_iff in Hin as (uc & <- & Huc).
  apply filter_In in Huc as [Huc Hf]. apply andb_prop in Hf as [Hid Hsame].
  apply String.eqb_eq in Hid. simpl. split; [exact Hu|].
  exists uc. auto.
Qed.

End Constrained.

(** *** The statements of the store keep the constraints *)

Lemma createUser_returned opts dbNow db u db' :
  createUser opts dbNow db = Returned u db' ->
  lp_users db' = lp_users db ++ [u] /\
  lp_user_channels db' = lp_user_channels db /\
  uuid_seq db' = S (uuid_seq db) /\
  id u = gen_random_uuid (uuid_seq db) /\
  varchar_opt 256 (externalId opts) = Some (external_id u) /\
  (forall e, external_id u = Some e ->
     existsb (has_external_id e) (lp_users db) = false).
Proof.
  unfold createUser, bind, get, put, throw, ret.
  destruct (varchar_opt 128 (firstName opts)) as [first|]; [|discriminate].
  destruct (varchar_opt 128 (lastName opts)) as [last|]; [|discriminate].
  destruct (varchar_opt 256 (externalId opts)) as [ext|]; [|discriminate].
  destruct (match ext with
            | Some e => existsb (has_external_id e) (lp_users db)
            | None => false
            end) eqn:E; [discriminate|].
  intros H. injection H as <- <-. simpl. repeat split.
  intros e He. rewrite He in E. exact E.
Qed.

Lemma createUser_constraints opts dbNow db u db' :
  constraints_hold db ->
  createUser opts dbNow db = Returned u db' ->
  constraints_hold db'.
Proof.
  intros Hc H.
  destruct (createUser_returned _ _ _ _ _ H) as (Hu & Hl & Hs & Hid & Hext & Hfree).
  constructor.
  - intros x Hx. rewrite Hu in Hx. rewrite Hs.
    apply in_app_iff in Hx as [Hx|[<-|[]]].
    + destruct (users_drawn db Hc x Hx) as (k & Hk & Hidk).
      exists k. split; [lia|exact Hidk].
    + exists (uuid_seq db). split; [lia|exact Hid].
  - rewrite Hu, map_app. apply NoDup_app.
    + apply (users_pk db Hc).
    + simpl. constructor; [intros []|constructor].
    + intros a Ha [Hb|[]]. simpl in Hb. subst a.
      apply in_map_iff in Ha as (x & Hxid & Hx).
      destruct (users_drawn db Hc x Hx) as (k & Hk & Hidk).
      rewrite Hid, Hidk in Hxid. apply gen_random_uuid_inj in Hxid. lia.
  - assert (Hnew : forall x e, In x (lp_users db) -> external_id x = Some e ->
                     external_id u = Some e -> False).
    { intros x e Hx Hxe Hue.
      pose proof (Hfree e Hue) as Hf.
      assert (Ht : existsb (has_external_id e) (lp_users db) = true).
      { apply existsb_exists. exists x. split; [exact Hx|].
        unfold has_external_id. rewrite Hxe. apply String.eqb_refl. }
      congruence. }
    intros x x' e Hx Hx' He He'. rewrite Hu in Hx, Hx'.
    apply in_app_iff in Hx as [Hx|[<-|[]]];
      apply in_app_iff in Hx' as [Hx'|[<-|[]]].
    + apply (external_id_unique db Hc x x' e); assumption.
    + exfalso. apply (Hnew x e); assumption.
    + exfalso. apply (Hnew x' e); assumption.
    + reflexivity.
  - rewrite Hl. apply (peer_unique db Hc).
  - intros uc Huc. rewrite Hl in Huc.
    destruct (links_fk db Hc uc Huc) as (x & Hx & Hxid).
    exists x. split; [|exact Hxid]. rewrite Hu. apply in_app_iff. left. exact Hx.
Qed.

Lemma relink_key uid dbNow c p (l : list UserChannelRow) :
  map (fun uc => (channel uc, channel_peer_id uc))
      (map (fun x => if same_peer c p x then relink uid dbNow x else x) l)
  = map (fun uc => (channel uc, channel_peer_id uc)) l.
Proof.
  rewrite map_map. apply map_ext. intros x.
  destruct (same_peer c p x); reflexivity.
Qed.

(** After the link upsert the store holds the same users and a link row
    from the peer to the given user. *)
Lemma linkChannelToUser_returned uid c p dbNow db uc db' :
  linkChannelToUser uid c p dbNow db = Returned uc db' ->
  lp_users db' = lp_users db /\
  (uuid_seq db <= uuid_seq db')%nat /\
  (exists u, In u (lp_users db) /\ id u = uid) /\
  In uc (lp_user_channels db') /\
  (varchar 50 c = Some (channel uc) /\
   varchar 512 p = Some (channel_peer_id uc)) /\
  user_id uc = uid /\
  (forall x, In x (lp_user_channels db') ->
     user_id x = uid \/ In x (lp_user_channels db)) /\
  (map (fun uc => (channel uc, channel_peer_id uc)) (lp_user_channels db')
     = map (fun uc => (channel uc, channel_peer_id uc)) (lp_user_channels db)
   \/ (lp_user_channels db' = lp_user_channels db ++ [uc] /\
       forall x, In x (lp_user_channels db) ->
         same_peer (channel uc) (channel_peer_id uc) x = false)).
Proof.
  unfold linkChannelToUser, bind, get, put, throw, ret.
  destruct (varchar 50 c) as [chan|]; [|discriminate].
  destruct (varchar 512 p) as [peer|]; [|discriminate].
  destruct (negb (existsb (fun u => String.eqb (id u) uid) (lp_users db))) eqn:Efk;
    [discriminate|].
  apply negb_false_iff, existsb_exists in Efk as (u & Hu & Hid).
  apply String.eqb_eq in Hid.
  destruct (find (same_peer chan peer) (lp_user_channels db)) as [old|] eqn:F.
  - intros H. injection H as <- <-. simpl.
    apply find_some in F as [Hold Hsame].
    split; [reflexivity|]. split; [lia|]. split; [exists u; auto|].
    split.
    { apply in_map_iff. exists old. rewrite Hsame. auto. }
    apply same_peer_iff in Hsame as Hkey. destruct Hkey as [Hkc Hkp].
    split; [rewrite Hkc, Hkp; split; reflexivity|].
    split; [reflexivity|]. split.
    { intros x Hx. apply in_map_iff in Hx as (y & <- & Hy).
      destruct (same_peer chan peer y); [left; reflexivity|right; exact Hy]. }
    left. apply relink_key.
  - intros H. injection H as <- <-. simpl.
    split; [reflexivity|]. split; [lia|]. split; [exists u; auto|].
    split; [apply in_app_iff; right; left; reflexivity|].
    split; [split; reflexivity|].
    split; [reflexivity|]. split.
    { intros x Hx. apply in_app_iff in Hx as [Hx|[<-|[]]];
        [right; exact Hx|left; reflexivity]. }
    right. split; [reflexivity|]. apply (find_none _ _ F).
Qed.

(** The link row of a peer whose channel and id fit their columns. *)
Lemma same_peer_stored c p uc :
  fits 50 c = true -> fits 512 p = true ->
  varchar 50 c = Some (channel uc) /\
  varchar 512 p = Some (channel_peer_id uc) ->
  same_peer c p uc = true /\ channel uc = c /\ channel_peer_id uc = p.
Proof.
  intros Hc Hp [Ec Ep].
  rewrite (varchar_fits _ _ Hc) in Ec. rewrite (varchar_fits _ _ Hp) in Ep.
  injection Ec as Ec. injection Ep as Ep.
  split; [|split; congruence].
  unfold same_peer. rewrite <- Ec, <- Ep, !String.eqb_refl. reflexivity.
Qed.

Lemma linkChannelToUser_constraints uid c p dbNow db uc db' :
  constraints_hold db ->
  linkChannelToUser uid c p dbNow db = Returned uc db' ->
  constraints_hold db'.
Proof.
  intros Hc H.
  destruct (linkChannelToUser_returned _ _ _ _ _ _ _ H)
    as (Hu & Hs & (u & Huin & Huid) & Hin & Hsame & Hid & Hfrom & Hkeys).
  constructor.
  - intros x Hx. rewrite Hu in Hx.
    destruct (users_drawn db Hc x Hx) as (k & Hk & Hidk).
    exists k. split; [lia|exact Hidk].
  - rewrite Hu. apply (users_pk db Hc).
  - rewrite Hu. apply (external_id_unique db Hc).
  - destruct Hkeys as [-> | [-> Hfree]]; [apply (peer_unique db Hc)|].
    rewrite map_app. apply NoDup_app.
    + apply (peer_unique db Hc).
    + simpl. constructor; [intros []|constructor].
    + intros k Hk [Hb|[]]. simpl in Hb. subst k.
      apply in_map_iff in Hk as (x & Hxk & Hx).
      injection Hxk as Hxc Hxp.
      pose proof (Hfree x Hx) as Hf.
      assert (Ht : same_peer (channel uc) (channel_peer_id uc) x = true)
        by (apply same_peer_iff; split; congruence).
      congruence.
  - intros x Hx. rewrite Hu.
    destruct (Hfrom x Hx) as [Hxid|Hxold].
    + exists u. split; [exact Huin|congruence].
    + apply (links_fk db Hc x Hxold).
Qed.

End IdentityDbFacts.

Module CommandsFacts.
Import Js Pg Jwt IdentityDb JsFacts PgFacts IdentityDbFacts Commands Samples.
Local Open Scope list_scope.

Ltac splits := repeat match goal with |- _ /\ _ => split end.

(** *** Lazy initialisation *)

Lemma ensureReady_db env st : db (snd (ensureReady env st)) = db st.
Proof.
  unfold ensureReady.
  destruct (schemaReady st), (initError st), (reachable env); reflexivity.
Qed.

Lemma ensureReady_ready env st :
  fst (ensureReady env st) = true -> schemaReady (snd (ensureReady env st)) = true.
Proof.
  unfold ensureReady.
  destruct (schemaReady st) eqn:E, (initError st), (reachable env);
    simpl; intros H; try discriminate; auto.
Qed.

Lemma ensureReady_again env st :
  schemaReady st = true -> ensureReady env st = (true, st).
Proof. unfold ensureReady. intros ->. reflexivity. Qed.

(** *** Linking a verified identity *)

Lemma has_external_id_iff e u :
  has_external_id e u = true <-> external_id u = Some e.
Proof.
  unfold has_external_id. destruct (external_id u) as [e'|].
  - rewrite String.eqb_eq. split; congruence.
  - split; discriminate.
Qed.

(** *** The text of the "already verified" reply *)


(** [===] on a stored external id and the id of a verified identity. *)
Lemma same_external_id_true v u :
  same_external_id v u = true ->
  external_id u = Some (Jwt.externalId v) /\
  externalIdValue v = IdString (Jwt.externalId v).
Proof.
  unfold same_external_id, Jwt.externalId.
  destruct (externalIdValue v) as [e|n]; [|discriminate].
  intros H. apply has_external_id_iff in H. split; [exact H|reflexivity].
Qed.



Lemma find_or_create env v (st : PluginState) u st' :
  constraints_hold (db st) ->
  fits 256 (Jwt.externalId v) = true ->
  match findUserByExternalId (db st) (Jwt.externalId v) with
  | Some u => Returned u st
  | None =>
      run (createUser {| externalId := Some (Jwt.externalId v);
                         firstName := Jwt.firstName v;
                         lastName := Jwt.lastName v |} (dbNow env)) st
  end = Returned u st' ->
  schemaReady st' = schemaReady st /\ initError st' = initError st /\
  constraints_hold (db st') /\
  In u (lp_users (db st')) /\ external_id u = Some (Jwt.externalId v) /\
  lp_user_channels (db st') = lp_user_channels (db st) /\
  ((st' = st /\ In u (lp_users (db st))) \/
   (findUserByExternalId (db st) (Jwt.externalId v) = None /\
    lp_users (db st') = lp_users (db st) ++ [u] /\
    id u = gen_random_uuid (uuid_seq (db st)))).
Proof.
  intros Hc Hfit.
  destruct (findUserByExternalId (db st) (Jwt.externalId v)) as [u0|] eqn:F.
  - intros H. injection H as <- <-.
    unfold findUserByExternalId in F. apply find_some in F as [Hin Hf].
    apply has_external_id_iff in Hf. splits; auto.
  - unfold run.
    destruct (createUser _ (dbNow env) (db st)) as [u0 d|e d] eqn:C;
      [|discriminate].
    intros H. injection H as <- <-.
    pose proof (createUser_constraints _ _ _ _ _ Hc C) as Hc'.
    destruct (createUser_returned _ _ _ _ _ C) as (Hu & Hl & Hs & Hid & Hext & _).
    cbn [externalId varchar_opt] in Hext.
    rewrite (varchar_fits _ _ Hfit) in Hext. injection Hext as Hext.
    simpl. splits; auto.
    rewrite Hu. apply in_app_iff. right. left. reflexivity.
Qed.

Lemma run_link uid c p now (st : PluginState) uc st' :
  constraints_hold (db st) ->
  fits 50 c = true -> fits 512 p = true ->
  run (linkChannelToUser uid c p now) st = Returned uc st' ->
  schemaReady st' = schemaReady st /\ initError st' = initError st /\
  constraints_hold (db st') /\
  lp_users (db st') = lp_users (db st) /\
  In uc (lp_user_channels (db st')) /\ same_peer c p uc = true /\
  user_id uc = uid.
Proof.
  intros Hc Hfc Hfp. unfold run.
  destruct (linkChannelToUser uid c p now (db st)) as [uc0 d|e d] eqn:L;
    [|discriminate].
  intros H. injection H as <- <-.
  pose proof (linkChannelToUser_constraints _ _ _ _ _ _ _ Hc L) as Hc'.
  destruct (linkChannelToUser_returned _ _ _ _ _ _ _ L)
    as (Hu & _ & _ & Hin & Hsame & Hid & _).
  apply (same_peer_stored c p uc0 Hfc Hfp) in Hsame as (Hsame & _).
  simpl. splits; auto.
Qed.

(** The merge step of the handler: with a user owning the external id in
    the store, [linkExternalId] links the peer to that user once more. *)
Lemma run_linkExternalId uid e c p now (st : PluginState) u r st' :
  constraints_hold (db st) ->
  fits 50 c = true -> fits 512 p = true ->
  In u (lp_users (db st)) -> external_id u = Some e ->
  run (linkExternalId uid e c p now) st = Returned r st' ->
  schemaReady st' = schemaReady st /\ initError st' = initError st /\
  constraints_hold (db st') /\
  lp_users (db st') = lp_users (db st) /\
  exists uc, In uc (lp_user_channels (db st')) /\ same_peer c p uc = true /\
             user_id uc = id u.
Proof.
  intros Hc Hfc Hfp Hin He. unfold run, linkExternalId, bind, get, ret.
  rewrite (findUserByExternalId_unique (db st) Hc e u Hin He).
  destruct (linkChannelToUser (id u) c p now (db st)) as [uc d|err d] eqn:L;
    [|discriminate].
  intros H. injection H as <- <-.
  pose proof (linkChannelToUser_constraints _ _ _ _ _ _ _ Hc L) as Hc'.
  destruct (linkChannelToUser_returned _ _ _ _ _ _ _ L)
    as (Hu & _ & _ & Huc & Hsame & Hid & _).
  apply (same_peer_stored c p uc Hfc Hfp) in Hsame as (Hsame & _).
  simpl. splits; auto. exists uc. auto.
Qed.

(** What a returning run of the linking step leaves in the store. *)
Lemma linkVerifiedIdentity_returned env v c p st r st1 :
  constraints_hold (db st) ->
  fits 50 c = true -> fits 512 p = true ->
  fits 256 (Jwt.externalId v) = true ->
  linkVerifiedIdentity env v c p st = Returned r st1 ->
  schemaReady st1 = schemaReady st /\ initError st1 = initError st /\
  constraints_hold (db st1) /\
  ((exists l, findUserByChannelPeer (db st) c p = Some l /\
              external_id (user l) = Some (Jwt.externalId v) /\
              st1 = st /\ r = {| text := already_verified l |}) \/
   (exists u, linked_to (db st1) c p u /\
              external_id u = Some (Jwt.externalId v) /\
              ((In u (lp_users (db st)) /\ lp_users (db st1) = lp_users (db st)) \/
               (findUserByExternalId (db st) (Jwt.externalId v) = None /\
                lp_users (db st1) = lp_users (db st) ++ [u] /\
                id u = gen_random_uuid (uuid_seq (db st)))))).
Proof.
  intros Hc Hfc Hfp Hfe H. unfold linkVerifiedIdentity in H.
  unfold bind at 1 in H. unfold query at 1 in H.
  destruct (match findUserByChannelPeer (db st) c p with
            | Some l => same_external_id v (user l)
            | None => false
            end) eqn:Ealready.
  - destruct (findUserByChannelPeer (db st) c p) as [l|] eqn:El; [|discriminate].
    unfold ret in H. injection H as <- <-.
    splits; auto. left. exists l.
    apply same_external_id_true in Ealready as [Ealready _]. auto.
  - unfold bind at 1 in H. unfold query at 1 in H.
    unfold bind at 1 in H.
    destruct (match findUserByExternalId (db st) (Jwt.externalId v) with
              | Some u => ret u
              | None => run (createUser _ (dbNow env))
              end st) as [u sA|e sA] eqn:Efc; [|discriminate].
    assert (Efc' : match findUserByExternalId (db st) (Jwt.externalId v) with
                   | Some u => Returned u st
                   | None => run (createUser
                                    {| externalId := Some (Jwt.externalId v);
                                       firstName := Jwt.firstName v;
                                       lastName := Jwt.lastName v |}
                                    (dbNow env)) st
                   end = Returned u sA).
    { destruct (findUserByExternalId (db st) (Jwt.externalId v)); exact Efc. }
    destruct (find_or_create env v st u sA Hc Hfe Efc')
      as (HrA & HiA & HcA & HuA & HeA & HlA & HfromA).
    unfold bind at 1 in H.
    destruct (run (linkChannelToUser (id u) c p (dbNow env)) sA)
      as [uc sB|e sB] eqn:Elink; [|discriminate].
    destruct (run_link _ _ _ _ _ _ _ HcA Hfc Hfp Elink)
      as (HrB & HiB & HcB & HuB & HucB & HsameB & HidB).
    assert (HuinB : In u (lp_users (db sB))) by (rewrite HuB; exact HuA).
    unfold bind at 1 in H.
    assert (Hmerge : forall (m : M PluginState unit) o,
              m sB = o ->
              (forall sC, o = Returned tt sC ->
                 schemaReady sC = schemaReady sB /\ initError sC = initError sB /\
                 constraints_hold (db sC) /\
                 lp_users (db sC) = lp_users (db sB) /\
                 exists uc, In uc (lp_user_channels (db sC)) /\
                            same_peer c p uc = true /\ user_id uc = id u) ->
              match o with
              | Returned _ sC =>
                  (channels <- query (fun d => listUserChannels d (id u)) ;;
                   ret {| text := verified_text u v channels |})%pg sC
              | Thrown e sC => Thrown e sC
              end = Returned r st1 ->
              schemaReady st1 = schemaReady st /\ initError st1 = initError st /\
              constraints_hold (db st1) /\ linked_to (db st1) c p u /\
              lp_users (db st1) = lp_users (db sA)).
    { intros m o Hm Hspec Hret. destruct o as [[] sC|e sC]; [|discriminate].
      destruct (Hspec sC eq_refl) as (HrC & HiC & HcC & HuC & HlinkC).
      unfold bind, query, ret in Hret. injection Hret as _ <-.
      split; [congruence|]. split; [congruence|]. split; [exact HcC|].
      split; [|congruence].
      split; [rewrite HuC; exact HuinB|exact HlinkC]. }
    assert (Hfinal : schemaReady st1 = schemaReady st /\
                     initError st1 = initError st /\
                     constraints_hold (db st1) /\ linked_to (db st1) c p u /\
                     lp_users (db st1) = lp_users (db sA)).
    { destruct (findUserByChannelPeer (db st) c p) as [l|] eqn:El.
      - destruct (negb (truthy_ostr (external_id (user l)))) eqn:Eunv.
        + refine (Hmerge _ _ eq_refl _ H).
          intros sC HsC. unfold bind, ret in HsC.
          destruct (run (linkExternalId (id (user l)) (Jwt.externalId v) c p
                           (dbNow env)) sB) as [r' sC'|e sC'] eqn:Ele;
            [|discriminate].
          injection HsC as <-.
          apply (run_linkExternalId _ _ _ _ _ _ u _ _ HcB Hfc Hfp HuinB HeA Ele).
        + refine (Hmerge (ret tt) _ eq_refl _ H).
          intros sC HsC. unfold ret in HsC. injection HsC as <-.
          splits; auto. exists uc. auto.
      - refine (Hmerge (ret tt) _ eq_refl _ H).
        intros sC HsC. unfold ret in HsC. injection HsC as <-.
        splits; auto. exists uc. auto. }
    destruct Hfinal as (Hr1 & Hi1 & Hc1 & Hlinked & Hu1).
    splits; auto. right. exists u. split; [exact Hlinked|].
    split; [exact HeA|].
    destruct HfromA as [[-> Hin]|(Hnone & Happ & Hid)].
    + left. split; [exact Hin|exact Hu1].
    + right. split; [exact Hnone|]. split; [congruence|exact Hid].
Qed.

(** *** Failed verification *)

(** A transport failure or a time-out of the remote peer is a failed
    verification. *)
Lemma verifyToken_fetch_rejected fetch token config nowMs endpoint :
  mode config = verify_endpoint ->
  verifyEndpoint config = Some endpoint ->
  fetch endpoint token = FetchRejected ->
  verifyToken fetch token config nowMs = Returns None.
Proof.
  intros Hm He Hf. unfold verifyToken, verifyViaEndpoint.
  rewrite Hm, He, Hf. destruct (truthy_str endpoint); reflexivity.
Qed.

(** So is a response that is not a success. *)
Lemma verifyToken_response_not_ok fetch token config nowMs endpoint body :
  mode config = verify_endpoint ->
  verifyEndpoint config = Some endpoint ->
  fetch endpoint token = FetchResponse false body ->
  verifyToken fetch token config nowMs = Returns None.
Proof.
  intros Hm He Hf. unfold verifyToken, verifyViaEndpoint.
  rewrite Hm, He, Hf. destruct (truthy_str endpoint); reflexivity.
Qed.

(** The remote verification never throws: its body is in a [try]. *)
Lemma verifyViaEndpoint_never_throws fetch token endpoint e :
  verifyViaEndpoint fetch token endpoint <> Throws e.
Proof.
  unfold verifyViaEndpoint.
  destruct (fetch endpoint token) as [|ok body]; [discriminate|].
  destruct (negb ok); [discriminate|].
  destruct (Json.JSON_parse body) as [data|e'|]; try discriminate.
  destruct data; try discriminate;
    (destruct (negb (truthy _)); [discriminate|]);
    destruct (id_value _); try discriminate;
    destruct (text_value _); try discriminate;
    destruct (text_value _); try discriminate;
    destruct (text_value _); discriminate.
Qed.

(** When [verifyToken] returns [null], the handler of [/verify] returns
    with the store as it was (no user row and no link row created,
    updated or re-linked), and its reply is the failure message whenever
    the handler got as far as verifying the token. The verifier itself is
    a function of the token, the configuration, the clock and the remote
    peer: the store is not among its arguments. *)
Lemma verify_rejected_changes_nothing config env ctx st :
  verifyToken (fetch env) (nullish (option_map trim (args ctx)) EmptyString)
              config (nowMs env) = Returns None ->
  exists reply st',
    verify (Some config) env ctx st = Returned reply st' /\
    db st' = db st /\
    In (text reply) [verify_usage; service_unavailable; verify_failed] /\
    (truthy_ostr (option_map trim (args ctx)) = true ->
     fst (ensureReady env st) = true ->
     text reply = verify_failed).
Proof.
  intros Hfail. unfold verify. cbv zeta.
  destruct (truthy_ostr (option_map trim (args ctx))) eqn:Etok;
    cbv beta iota delta [negb].
  - pose proof (ensureReady_db env st) as Hdb.
    destruct (ensureReady env st) as [ready sR]. simpl in Hdb.
    destruct ready; cbv beta iota delta [negb].
    + rewrite Hfail. exists {| text := verify_failed |}, sR.
      splits; auto. simpl. auto.
    + exists {| text := service_unavailable |}, sR.
      splits; auto.
      * simpl. auto.
      * intros _ Hready. discriminate Hready.
  - exists {| text := verify_usage |}, st. unfold ret.
    splits; auto.
    + simpl. auto.
    + intros Habs. discriminate Habs.
Qed.

(** When [verifyToken] throws, so does the handler, which has no [try]
    around the call: the exception reaches the caller of the handler, with
    the store as it was. *)
Lemma verify_thrown_changes_nothing config env ctx st e :
  truthy_ostr (option_map trim (args ctx)) = true ->
  fst (ensureReady env st) = true ->
  verifyToken (fetch env) (nullish (option_map trim (args ctx)) EmptyString)
              config (nowMs env) = Throws e ->
  verify (Some config) env ctx st
  = Thrown (Javascript e) (snd (ensureReady env st)) /\
  db (snd (ensureReady env st)) = db st.
Proof.
  intros Htok Hready Hthrows. split; [|apply ensureReady_db].
  unfold verify. cbv zeta. rewrite Htok. cbv beta iota delta [negb].
  destruct (ensureReady env st) as [ready sR]. simpl in Hready. subst ready.
  cbv beta iota delta [negb]. rewrite Hthrows. reflexivity.
Qed.

(** C9 (the code departs from it). A token that carries a valid signature
    and whose payload is the JSON text [null] is not a valid token, and
    its verification fails: [verifyHS256] reads [decoded.exp] of [null]
    outside its [try], and the [TypeError] leaves [verifyToken] and the
    handler of [/verify], which has no [try] around the call. No failure
    is reported in the reply: the caller of the handler gets the
    exception. So does it for a token whose [name] claim is a number, of
    which [split] is not a method. The store is left as it was in both
    cases; a token that [verifyToken] rejects by returning [null] gets the
    reply "Token verification failed..." (lemma
    [verify_rejected_changes_nothing]). *)
Theorem C9_invalid_token_throws :
  verifyToken (fetch sample_env) token_null hs256 (nowMs sample_env)
  = Throws TypeError /\
  verify (Some hs256) sample_env (whatsapp_verify_with token_null) registered
  = Thrown (Javascript TypeError) registered /\
  verifyToken (fetch sample_env) token_name_number hs256 (nowMs sample_env)
  = Throws TypeError /\
  verify (Some hs256) sample_env (whatsapp_verify_with token_name_number)
         registered
  = Thrown (Javascript TypeError) registered.
Proof. splits; vm_compute; reflexivity. Qed.

(** *** Verifying twice *)

Lemma verify_reaches_linking config env ctx st v :
  truthy_ostr (option_map trim (args ctx)) = true ->
  fst (ensureReady env st) = true ->
  verifyToken (fetch env) (nullish (option_map trim (args ctx)) EmptyString)
              config (nowMs env) = Returns (Some v) ->
  verify (Some config) env ctx st =
    linkVerifiedIdentity env v
      (nullish (ctx_channel ctx) "unknown")
      (nullish (senderId ctx) (nullish (from ctx) "unknown"))
      (snd (ensureReady env st)).
Proof.
  intros Htok Hready Hv. unfold verify. cbv zeta. rewrite Htok.
  cbv beta iota delta [negb].
  destruct (ensureReady env st) as [ready sR]. simpl in Hready. subst ready.
  cbv beta iota delta [negb]. rewrite Hv. reflexivity.
Qed.


Lemma constraints_hold_empty : constraints_hold IdentityDb.empty.
Proof.
  constructor; simpl; try constructor; intros; contradiction.
Qed.

(** The store after a registration satisfies the constraints. *)
Lemma constraints_hold_registered : constraints_hold (db registered).
Proof.
  pose (opts := {| firstName := Some "Ana"; lastName := Some "Lopez";
                   externalId := None |}).
  destruct (createUser opts 1000 IdentityDb.empty) as [u d1|e d1] eqn:C;
    [|discriminate C].
  pose proof (createUser_constraints _ _ _ _ _ constraints_hold_empty C) as H1.
  destruct (linkChannelToUser (id u) "whatsapp" "+15551230000" 1000 d1)
    as [uc d2|e d2] eqn:L.
  - pose proof (linkChannelToUser_constraints _ _ _ _ _ _ _ H1 L) as H2.
    vm_compute in C. injection C as <- <-.
    vm_compute in L. injection L as _ <-.
    exact H2.
  - vm_compute in C. injection C as <- <-. vm_compute in L. discriminate L.
Qed.

(** *** Verifying a registered, unverified peer *)

(** No run of the linking step upgrades the registered user of the peer:
    when nobody owns the external id yet, a new user row is inserted for it
    and the peer is re-linked to the new row. *)
Lemma linkVerifiedIdentity_never_upgrades env v c p st r st1 l :
  constraints_hold (db st) ->
  fits 50 c = true -> fits 512 p = true ->
  fits 256 (Jwt.externalId v) = true ->
  findUserByChannelPeer (db st) c p = Some l ->
  external_id (user l) = None ->
  findUserByExternalId (db st) (Jwt.externalId v) = None ->
  linkVerifiedIdentity env v c p st = Returned r st1 ->
  exists u,
    lp_users (db st1) = lp_users (db st) ++ [u] /\
    external_id u = Some (Jwt.externalId v) /\
    id u <> id (user l) /\
    linked_to (db st1) c p u.
Proof.
  intros Hc Hfc Hfp Hfe Hl Hunv Hnone Hrun.
  destruct (linkVerifiedIdentity_returned _ _ _ _ _ _ _ Hc Hfc Hfp Hfe Hrun)
    as (_ & _ & Hc1 & [(l' & Hl' & He & _)|(u & Hlinked & He & Hfrom)]).
  - rewrite Hl in Hl'. injection Hl' as <-. congruence.
  - destruct Hfrom as [[Hin _]|(_ & Happ & Hid)].
    + rewrite (findUserByExternalId_unique (db st) Hc _ u Hin He) in Hnone.
      discriminate.
    + exists u. splits; auto.
      destruct (findUserByChannelPeer_some (db st) c p l Hl) as (Hul & _).
      destruct (users_drawn (db st) Hc _ Hul) as (k & Hk & Hidk).
      rewrite Hid, Hidk. intros Heq. apply gen_random_uuid_inj in Heq. lia.
Qed.

(** C2 (the code departs from it): the peer is linked to the registered,
    unverified user [uuid-0] and nobody owns [ext-42]; after [/verify] with
    a token of subject [ext-42] the store holds a second user row [uuid-2]
    with that external id, the registered user is still unverified, and the
    peer is linked to the new row. *)
Theorem C2_verify_inserts_second_user :
  let st2 := store_of (verify (Some hs256) sample_env whatsapp_verify registered) in
  let summary := map (fun u => (id u, external_id u, first_name u)) in
  let linked st := option_map (fun l => id (user l))
                     (findUserByChannelPeer (db st) "whatsapp" "+15551230000") in
  summary (lp_users (db registered)) = [("uuid-0", None, Some "Ana")] /\
  linked registered = Some "uuid-0" /\
  findUserByExternalId (db registered) "ext-42" = None /\
  summary (lp_users (db st2))
    = [("uuid-0", None, Some "Ana"); ("uuid-2", Some "ext-42", None)] /\
  linked st2 = Some "uuid-2".
Proof. vm_compute. splits; reflexivity. Qed.

End CommandsFacts.

(** ** The constraints of the schema are an invariant of the commands *)

Module InvariantFacts.
Import Js Pg Jwt IdentityDb PgFacts IdentityDbFacts Commands CommandsFacts.
Local Open Scope list_scope.

(** *** Statements: a refused statement leaves the store as it was *)

Lemma createUser_keeps opts dbNow db :
  constraints_hold db ->
  constraints_hold (store_of (createUser opts dbNow db)).
Proof.
  intros Hc. destruct (createUser opts dbNow db) as [u d|e d] eqn:C.
  - apply (createUser_constraints _ _ _ _ _ Hc C).
  - unfold createUser, bind, get, put, throw, ret in C.
    destruct (varchar_opt 128 (firstName opts));
      [|injection C as _ <-; exact Hc].
    destruct (varchar_opt 128 (lastName opts));
      [|injection C as _ <-; exact Hc].
    destruct (varchar_opt 256 (externalId opts)) as [ext|];
      [|injection C as _ <-; exact Hc].
    destruct (match ext with Some _ => _ | None => _ end) in C;
      [injection C as _ <-; exact Hc|discriminate C].
Qed.

Lemma linkChannelToUser_keeps uid c p dbNow db :
  constraints_hold db ->
  constraints_hold (store_of (linkChannelToUser uid c p dbNow db)).
Proof.
  intros Hc. destruct (linkChannelToUser uid c p dbNow db) as [uc d|e d] eqn:L.
  - apply (linkChannelToUser_constraints _ _ _ _ _ _ _ Hc L).
  - unfold linkChannelToUser, bind, get, put, throw, ret in L.
    destruct (varchar 50 c) as [chan|]; [|injection L as _ <-; exact Hc].
    destruct (varchar 512 p) as [peer|]; [|injection L as _ <-; exact Hc].
    destruct (negb (existsb _ (lp_users db))) in L;
      [injection L as _ <-; exact Hc|].
    destruct (find (same_peer chan peer) (lp_user_channels db)) in L;
      discriminate L.
Qed.

(** Rewriting user rows in place, keeping their ids, and keeping their
    external ids or giving a free external id to the rows of one id. *)
Lemma update_users_keeps db (f : UserRow -> UserRow) :
  constraints_hold db ->
  (forall u, id (f u) = id u) ->
  (forall u u', In u (lp_users db) -> In u' (lp_users db) ->
     forall e, external_id (f u) = Some e -> external_id (f u') = Some e ->
     u = u') ->
  constraints_hold {| lp_users := map f (lp_users db);
                      lp_user_channels := lp_user_channels db;
                      uuid_seq := uuid_seq db |}.
Proof.
  intros Hc Hid Hext.
  assert (Hids : map id (map f (lp_users db)) = map id (lp_users db)).
  { rewrite map_map. apply map_ext. exact Hid. }
  constructor; simpl.
  - intros u Hu. apply in_map_iff in Hu as (u0 & <- & Hu0).
    rewrite Hid. apply (users_drawn db Hc u0 Hu0).
  - rewrite Hids. apply (users_pk db Hc).
  - intros u u' e Hu Hu' He He'.
    apply in_map_iff in Hu as (u0 & <- & Hu0).
    apply in_map_iff in Hu' as (u0' & <- & Hu0').
    f_equal. apply (Hext u0 u0' Hu0 Hu0' e); assumption.
  - apply (peer_unique db Hc).
  - intros uc Huc. destruct (links_fk db Hc uc Huc) as (u & Hu & Huid).
    exists (f u). split; [apply in_map, Hu|]. rewrite Hid. exact Huid.
Qed.

Lemma updateUserName_keeps uid firstName lastName dbNow db :
  constraints_hold db ->
  constraints_hold (store_of (updateUserName uid firstName lastName dbNow db)).
Proof.
  intros Hc. unfold updateUserName, bind, get, put, throw, ret.
  destruct (negb (existsb _ (lp_users db))); [exact Hc|].
  destruct (varchar 128 firstName) as [first|]; [|exact Hc].
  destruct (varchar 128 lastName) as [last|]; [|exact Hc].
  simpl. apply (update_users_keeps db _ Hc).
  - intros u. destruct (String.eqb (id u) uid); reflexivity.
  - intros u u' Hu Hu' e He He'.
    apply (external_id_unique db Hc u u' e Hu Hu').
    + destruct (String.eqb (id u) uid); exact He.
    + destruct (String.eqb (id u') uid); exact He'.
Qed.

Lemma linkExternalId_keeps uid e c p dbNow db :
  constraints_hold db ->
  constraints_hold (store_of (linkExternalId uid e c p dbNow db)).
Proof.
  intros Hc. unfold linkExternalId, bind, get, put, throw, ret.
  destruct (findUserByExternalId db e) as [existing|] eqn:F.
  - pose proof (linkChannelToUser_keeps (id existing) c p dbNow db Hc) as H.
    destruct (linkChannelToUser (id existing) c p dbNow db); exact H.
  - destruct (negb (existsb _ (lp_users db))); [exact Hc|].
    destruct (varchar 256 e) as [ext|]; [|exact Hc].
    destruct (existsb _ (lp_users db)) eqn:Eother; [exact Hc|].
    simpl. apply (update_users_keeps db _ Hc).
    + intros u. destruct (String.eqb (id u) uid); reflexivity.
    + assert (Hfree : forall u, In u (lp_users db) ->
                        String.eqb (id u) uid = false ->
                        external_id u <> Some ext).
      { intros u Hu Hid He.
        assert (Ht : existsb (fun u => has_external_id ext u
                                       && negb (String.eqb (id u) uid))
                             (lp_users db) = true).
        { apply existsb_exists. exists u. split; [exact Hu|].
          apply has_external_id_iff in He. rewrite He, Hid. reflexivity. }
        congruence. }
      intros u u' Hu Hu' e' He He'.
      destruct (String.eqb (id u) uid) eqn:Eu, (String.eqb (id u') uid) eqn:Eu'.
      * apply String.eqb_eq in Eu, Eu'.
        apply (user_id_inj db); try assumption; [apply (users_pk db Hc)|congruence].
      * simpl in He. exfalso. apply (Hfree u' Hu' Eu'). congruence.
      * simpl in He'. exfalso. apply (Hfree u Hu Eu). congruence.
      * apply (external_id_unique db Hc u u' e'); assumption.
Qed.

(** *** Handlers: the invariant goes through the sequencing of statements *)

Lemma keeps_ret {A} (a : A) : keeps (ret a).
Proof. intros st H. exact H. Qed.

Lemma keeps_query {A} (q : Db -> A) : keeps (query q).
Proof. intros st H. exact H. Qed.

Lemma keeps_bind {A B} (m : M PluginState A) (k : A -> M PluginState B) :
  keeps m -> (forall a, keeps (k a)) -> keeps (bind m k).
Proof.
  intros Hm Hk st H. unfold bind. specialize (Hm st H).
  destruct (m st) as [a st'|e st']; simpl in Hm.
  - apply Hk, Hm.
  - exact Hm.
Qed.

Lemma keeps_run {A} (m : M Db A) :
  (forall d, constraints_hold d -> constraints_hold (store_of (m d))) ->
  keeps (run m).
Proof.
  intros Hm st H. unfold run. specialize (Hm (db st) H).
  destruct (m (db st)); exact Hm.
Qed.

Create HintDb keeps.

#[local] Hint Resolve keeps_ret keeps_query keeps_run createUser_keeps
  linkChannelToUser_keeps updateUserName_keeps linkExternalId_keeps : keeps.

Ltac keeps_step :=
  first [ apply keeps_ret | apply keeps_query
        | apply keeps_run; auto with keeps
        | apply keeps_bind; [|intros ?] ].

Lemma linkVerifiedIdentity_keeps env v c p : keeps (linkVerifiedIdentity env v c p).
Proof.
  unfold linkVerifiedIdentity.
  apply keeps_bind; [apply keeps_query|intros existingLink].
  destruct (match existingLink with
            | Some l => same_external_id v (user l)
            | None => false
            end); [apply keeps_ret|].
  apply keeps_bind; [apply keeps_query|intros found].
  apply keeps_bind.
  { destruct found; [apply keeps_ret|apply keeps_run; auto with keeps]. }
  intros u. apply keeps_bind; [apply keeps_run; auto with keeps|intros _].
  apply keeps_bind.
  { destruct existingLink as [l|]; [|apply keeps_ret].
    destruct (negb (truthy_ostr (external_id (user l)))); [|apply keeps_ret].
    repeat keeps_step. }
  intros _. repeat keeps_step.
Qed.

Theorem verify_keeps authConfig env ctx : keeps (verify authConfig env ctx).
Proof.
  intros st H. unfold verify. cbv zeta.
  destruct (negb (truthy_ostr (option_map trim (args ctx)))); [exact H|].
  destruct authConfig as [config|]; [|exact H].
  pose proof (ensureReady_db env st) as Hdb.
  destruct (ensureReady env st) as [ready sR]. simpl in Hdb.
  assert (HR : constraints_hold (db sR)) by (rewrite Hdb; exact H).
  destruct (negb ready); [exact HR|].
  destruct (verifyToken _ _ config (nowMs env)) as [[v|]|e|];
    try exact HR.
  apply linkVerifiedIdentity_keeps, HR.
Qed.

Theorem register_keeps env ctx : keeps (register env ctx).
Proof.
  intros st H. unfold register. cbv zeta.
  destruct (negb (truthy_ostr (option_map trim (args ctx)))); [exact H|].
  destruct (negb (truthy_str _)); [exact H|].
  pose proof (ensureReady_db env st) as Hdb.
  destruct (ensureReady env st) as [ready sR]. simpl in Hdb.
  assert (HR : constraints_hold (db sR)) by (rewrite Hdb; exact H).
  destruct (negb ready); [exact HR|].
  refine (keeps_bind _ _ _ _ sR HR); [apply keeps_query|].
  intros [e|]; repeat keeps_step.
Qed.

(** Every state that the commands reach satisfies the constraints. *)
Theorem reachable_state_constraints st :
  reachable_state st -> constraints_hold (db st).
Proof.
  induction 1 as [ready failed|authConfig env ctx st _ IH|env ctx st _ IH].
  - apply constraints_hold_empty.
  - apply verify_keeps, IH.
  - apply register_keeps, IH.
Qed.

End InvariantFacts.

(** ** More on session-key parsing *)

Module SessionKeyFormsFacts.
Import Js SessionKey SessionKeyForms SessionKeyFacts.

(** *** [split] and [join] *)

(** Joining what was split gives the string back. *)
Lemma join_split sep s : join (String sep EmptyString) (split sep s) = s.
Proof.
  unfold join. induction s as [|c rest IH]; [reflexivity|].
  simpl split. destruct (Ascii.eqb c sep) eqn:E.
  - apply Ascii.eqb_eq in E. subst c.
    destruct (split sep rest) as [|seg segs] eqn:S.
    + exfalso. apply (split_nonempty sep rest S).
    + change (String.concat (String sep EmptyString) (EmptyString :: seg :: segs))
        with (String sep (String.concat (String sep EmptyString) (seg :: segs))).
      rewrite IH. reflexivity.
  - destruct (split sep rest) as [|seg segs] eqn:S.
    + exfalso. apply (split_nonempty sep rest S).
    + rewrite <- IH. destruct segs; reflexivity.
Qed.

Lemma indexOf_absent x xs :
  existsb (fun s => String.eqb s x) xs = false -> indexOf x xs = (-1)%Z.
Proof.
  induction xs as [|y ys IH]; simpl; intros H; [reflexivity|].
  apply orb_false_iff in H as [Hy Hys]. rewrite Hy, (IH Hys). reflexivity.
Qed.

Lemma len_split_pos sep s : (1 <= len (split sep s))%Z.
Proof.
  unfold len. pose proof (split_nonempty sep s) as H.
  destruct (split sep s); [contradiction|]. simpl List.length. lia.
Qed.

Lemma split_agent_key a rest :
  segment a = true ->
  split ":" ("agent:" ++ a ++ ":" ++ rest) = "agent" :: a :: split ":" rest.
Proof.
  intros Ha.
  change ("agent:" ++ a ++ ":" ++ rest)
    with ("agent" ++ String ":" (a ++ String ":" rest)).
  rewrite (split_segment_app "agent") by reflexivity.
  rewrite (split_segment_app a) by exact Ha. reflexivity.
Qed.

Lemma deriveChannel_of_parts key a c rest :
  split ":" key = "agent" :: a :: c :: rest -> deriveChannel key = c.
Proof.
  intros Hs. unfold deriveChannel. rewrite Hs.
  replace (3 <=? len ("agent" :: a :: c :: rest))%Z with true; [reflexivity|].
  symmetry. apply Z.leb_le. unfold len. simpl List.length. lia.
Qed.

(** *** Peer ids of any number of segments *)

(** X1. Colon-preserving peer ids: whatever follows the channel is the peer id,
    with its colons, as long as none of its segments is the marker
    "direct". *)
Theorem derivePeerId_rejoins_peer a c p :
  segment a = true -> segment c = true ->
  has_direct_segment p = false ->
  let key := "agent:" ++ a ++ ":" ++ c ++ ":" ++ p in
  deriveChannel key = c /\ derivePeerId key = p.
Proof.
  intros Ha Hc Hp key.
  assert (Hs : split ":" key = "agent" :: a :: c :: split ":" p).
  { unfold key. rewrite (split_agent_key a) by exact Ha.
    change (c ++ ":" ++ p) with (c ++ String ":" p).
    rewrite (split_segment_app c) by exact Hc. reflexivity. }
  split; [apply (deriveChannel_of_parts _ a c _ Hs)|].
  rewrite (derivePeerId_of_rest key a (c :: split ":" p) Hs) by discriminate.
  pose proof (len_split_pos ":" p) as Hlen.
  assert (Hlen' : len (c :: split ":" p) = (len (split ":" p) + 1)%Z).
  { unfold len. simpl List.length. lia. }
  cbv zeta.
  destruct (String.eqb c "direct") eqn:Ec.
  - assert (Hi : indexOf "direct" (c :: split ":" p) = 0%Z)
      by (cbn [indexOf]; rewrite Ec; reflexivity).
    rewrite Hi.
    replace (0 <? len (c :: split ":" p) - 1)%Z with true
      by (symmetry; apply Z.ltb_lt; lia).
    change (join ":" (split ":" p) = p). apply (join_split ":").
  - assert (Hi : indexOf "direct" (c :: split ":" p) = (-1)%Z).
    { cbn [indexOf]. rewrite Ec.
      rewrite (indexOf_absent "direct" (split ":" p) Hp). reflexivity. }
    rewrite Hi.
    replace (2 <=? len (c :: split ":" p))%Z with true
      by (symmetry; apply Z.leb_le; lia).
    change (join ":" (split ":" p) = p). apply (join_split ":").
Qed.

Lemma derivePeerId_rejoins_peer_witness :
  deriveChannel "agent:main:whatsapp:+1:234:5678" = "whatsapp" /\
  derivePeerId "agent:main:whatsapp:+1:234:5678" = "+1:234:5678".
Proof.
  apply (derivePeerId_rejoins_peer "main" "whatsapp" "+1:234:5678");
    reflexivity.
Defined.

(** X2. The "direct" marker: in [agent:{a}:{c}:direct:{p}] and in
    [agent:{a}:direct:{p}] the peer id is everything after the first
    marker, whatever it holds. *)
Theorem derivePeerId_after_direct a c p :
  segment a = true -> segment c = true -> c <> "direct" ->
  (deriveChannel ("agent:" ++ a ++ ":" ++ c ++ ":direct:" ++ p) = c /\
   derivePeerId ("agent:" ++ a ++ ":" ++ c ++ ":direct:" ++ p) = p) /\
  (deriveChannel ("agent:" ++ a ++ ":direct:" ++ p) = "direct" /\
   derivePeerId ("agent:" ++ a ++ ":direct:" ++ p) = p).
Proof.
  intros Ha Hc Hcd.
  pose proof (len_split_pos ":" p) as Hlen.
  split.
  - assert (Hs : split ":" ("agent:" ++ a ++ ":" ++ c ++ ":direct:" ++ p)
                 = "agent" :: a :: c :: "direct" :: split ":" p).
    { rewrite (split_agent_key a) by exact Ha.
      change (c ++ ":direct:" ++ p) with (c ++ String ":" ("direct" ++ String ":" p)).
      rewrite (split_segment_app c) by exact Hc.
      rewrite (split_segment_app "direct") by reflexivity. reflexivity. }
    split; [apply (deriveChannel_of_parts _ a c _ Hs)|].
    rewrite (derivePeerId_of_rest _ a (c :: "direct" :: split ":" p) Hs)
      by discriminate.
    apply String.eqb_neq in Hcd.
    assert (Hi : indexOf "direct" (c :: "direct" :: split ":" p) = 1%Z)
      by (cbn [indexOf]; rewrite Hcd; reflexivity).
    cbv zeta. rewrite Hi.
    replace (1 <? len (c :: "direct" :: split ":" p) - 1)%Z with true.
    + change (join ":" (split ":" p) = p). apply (join_split ":").
    + symmetry. apply Z.ltb_lt. unfold len in *. simpl List.length. lia.
  - assert (Hs : split ":" ("agent:" ++ a ++ ":direct:" ++ p)
                 = "agent" :: a :: "direct" :: split ":" p).
    { change ("agent:" ++ a ++ ":direct:" ++ p)
        with ("agent:" ++ a ++ ":" ++ ("direct" ++ String ":" p)).
      rewrite (split_agent_key a) by exact Ha.
      rewrite (split_segment_app "direct") by reflexivity. reflexivity. }
    split; [apply (deriveChannel_of_parts _ a "direct" _ Hs)|].
    rewrite (derivePeerId_of_rest _ a ("direct" :: split ":" p) Hs)
      by discriminate.
    assert (Hi : indexOf "direct" ("direct" :: split ":" p) = 0%Z)
      by reflexivity.
    cbv zeta. rewrite Hi.
    replace (0 <? len ("direct" :: split ":" p) - 1)%Z with true.
    + change (join ":" (split ":" p) = p). apply (join_split ":").
    + symmetry. apply Z.ltb_lt. unfold len in *. simpl List.length. lia.
Qed.

Lemma derivePeerId_after_direct_witness :
  derivePeerId "agent:main:telegram:direct:peer1" = "peer1" /\
  derivePeerId "agent:main:direct:peer1" = "peer1".
Proof.
  destruct (derivePeerId_after_direct "main" "telegram" "peer1")
    as [[_ H1] [_ H2]]; try reflexivity; [discriminate|].
  split; [exact H1|exact H2].
Defined.

(** X3. A key of three segments has no peer part: its third segment is
    returned both as channel and as peer id (the shared session
    [agent:{a}:main] gives "main"). *)
Theorem derivePeerId_three_segments a c :
  segment a = true -> segment c = true ->
  deriveChannel ("agent:" ++ a ++ ":" ++ c) = c /\
  derivePeerId ("agent:" ++ a ++ ":" ++ c) = c.
Proof.
  intros Ha Hc.
  assert (Hs : split ":" ("agent:" ++ a ++ ":" ++ c) = ["agent"; a; c]).
  { rewrite (split_agent_key a) by exact Ha.
    rewrite (split_segment c Hc). reflexivity. }
  split; [apply (deriveChannel_of_parts _ a c _ Hs)|].
  rewrite (derivePeerId_of_rest _ a [c] Hs) by discriminate.
  cbv zeta. simpl indexOf.
  destruct (String.eqb c "direct"); reflexivity.
Qed.

Lemma derivePeerId_three_segments_witness :
  deriveChannel "agent:main:main" = "main" /\
  derivePeerId "agent:main:main" = "main".
Proof.
  apply (derivePeerId_three_segments "main" "main"); reflexivity.
Defined.

(** *** Keys outside the format *)

Lemma prefix_agent_of_parts key q rest :
  split ":" key = "agent" :: q :: rest ->
  String.prefix "agent:" key = true.
Proof.
  intros Hs. rewrite <- (join_split ":" key), Hs.
  unfold join.
  change (String.concat ":" ("agent" :: q :: rest))
    with ("agent:" ++ String.concat ":" (q :: rest)).
  apply ScopeFacts.prefix_refl_app.
Qed.

(** X4. The parser degrades to the identity: a key that does not start with
    [agent:], and a key [agent:{x}] of two segments, give the channel
    "unknown" and the key itself as peer id. *)
Theorem derive_outside_format key :
  String.prefix "agent:" key = false \/
  (exists x, segment x = true /\ key = "agent:" ++ x) ->
  deriveChannel key = "unknown" /\ derivePeerId key = key.
Proof.
  intros H.
  assert (Hcond : (3 <=? len (split ":" key))%Z
                  && at_is 0 (split ":" key) "agent" = false).
  { destruct H as [Hp|(x & Hx & ->)].
    - destruct (split ":" key) as [|p0 [|q rest]] eqn:Hs; try reflexivity.
      destruct (at_is 0 (p0 :: q :: rest) "agent") eqn:E;
        [|apply andb_false_r].
      unfold at_is in E. simpl in E. apply String.eqb_eq in E. subst p0.
      rewrite (prefix_agent_of_parts key q rest Hs) in Hp. discriminate.
    - change ("agent:" ++ x) with ("agent" ++ String ":" x).
      rewrite (split_segment_app "agent") by reflexivity.
      rewrite (split_segment x Hx). reflexivity. }
  unfold deriveChannel, derivePeerId. cbv zeta.
  rewrite Hcond.
  apply andb_false_iff in Hcond as [Hl|Ha].
  - apply Z.leb_gt in Hl. apply Z.ltb_lt in Hl. rewrite Hl. auto.
  - rewrite Ha. rewrite orb_true_r. auto.
Qed.

Lemma derive_outside_format_witness :
  (deriveChannel "some-other-key" = "unknown" /\
   derivePeerId "some-other-key" = "some-other-key") /\
  (deriveChannel "agent:main" = "unknown" /\
   derivePeerId "agent:main" = "agent:main").
Proof.
  split.
  - apply derive_outside_format. left. reflexivity.
  - apply derive_outside_format. right. exists "main". split; reflexivity.
Defined.

End SessionKeyFormsFacts.

(** ** The memory scope gate *)

Module MemoryGateFacts.
Import IdentityPlugin.
Import Js SessionKey Scope MemoryGate.
Import JsFacts.

(** *** The custom gate message *)

(** X5. A gate message that is missing, empty or made of white space only
    (the white space that [trim] removes, in ASCII or not) gives the
    default two-line notice; any other one replaces the notice, trimmed,
    after the gated block and an empty line. *)
Theorem formatGatedMessage_custom_message config :
  (gateMessage config = None \/
   (exists s, gateMessage config = Some s /\ blank s = true) ->
   formatGatedMessage config =
     gatedBlock ++ nl ++ nl
     ++ "Memory retrieval is not available until identity is verified." ++ nl
     ++ "The user can verify by typing: /verify <token>") /\
  (forall s, gateMessage config = Some s -> blank s = false ->
     trim s <> EmptyString /\
     formatGatedMessage config = gatedBlock ++ nl ++ nl ++ trim s).
Proof.
  split.
  - intros [H|(s & H & Hs)]; unfold formatGatedMessage; rewrite H.
    + reflexivity.
    + cbn [option_map truthy_ostr]. rewrite (trim_blank s Hs). reflexivity.
  - intros s H Hs.
    pose proof (trim_not_blank s Hs) as Ht.
    split; [exact Ht|].
    unfold formatGatedMessage. rewrite H.
    cbn [option_map truthy_ostr nullish]. unfold truthy_str.
    apply String.eqb_neq in Ht. rewrite Ht. reflexivity.
Qed.

(** A message of a NO-BREAK SPACE and a SPACE, and a message with text. *)
Lemma formatGatedMessage_custom_message_witness :
  formatGatedMessage
    {| requireVerified := Some true; gateMessage := Some (nbsp ++ " ") |}
  = formatGatedMessage {| requireVerified := Some true; gateMessage := None |} /\
  formatGatedMessage {| requireVerified := Some true;
                        gateMessage := Some "  Custom message  " |}
  = gatedBlock ++ nl ++ nl ++ "Custom message".
Proof.
  split.
  - destruct (formatGatedMessage_custom_message
                {| requireVerified := Some true;
                   gateMessage := Some (nbsp ++ " ") |})
      as [H _].
    rewrite H; [reflexivity|].
    right. exists (nbsp ++ " "). split; reflexivity.
  - destruct (formatGatedMessage_custom_message
                {| requireVerified := Some true;
                   gateMessage := Some "  Custom message  " |})
      as [_ H].
    destruct (H "  Custom message  ") as [_ E]; [reflexivity|reflexivity|].
    rewrite E. reflexivity.
Defined.

(** *** The lookup of the gate *)

Lemma flat_map_map_map {A B C D} (h : C -> D) (f : A -> B -> C)
  (F : A -> list B) (l : list A) :
  flat_map (fun a => map (fun b => h (f a b)) (F a)) l
  = map h (flat_map (fun a => map (f a) (F a)) l).
Proof.
  induction l as [|a l IH]; simpl; [reflexivity|].
  rewrite IH, map_app, map_map. reflexivity.
Qed.

Lemma hd_error_map {A B} (h : A -> B) (l : list A) :
  hd_error (map h l) = option_map h (hd_error l).
Proof. destruct l; reflexivity. Qed.

(** The gate reads the row that the identity plugin reads. *)
Lemma gate_lookup d c p :
  findUserByChannelPeer d c p =
  option_map
    (fun l => {| id := IdentityDb.id (IdentityDb.user l);
                 external_id := IdentityDb.external_id (IdentityDb.user l);
                 first_name := IdentityDb.first_name (IdentityDb.user l);
                 last_name := IdentityDb.last_name (IdentityDb.user l);
                 row_channel := IdentityDb.resolved_channel l;
                 channel_peer_id := IdentityDb.resolved_peer_id l;
                 row_verified := IdentityDb.verified l |})
    (IdentityDb.findUserByChannelPeer d c p).
Proof.
  unfold findUserByChannelPeer, IdentityDb.findUserByChannelPeer.
  rewrite <- hd_error_map.
  rewrite <- (flat_map_map_map
                (fun l => {| id := IdentityDb.id (IdentityDb.user l);
                   external_id := IdentityDb.external_id (IdentityDb.user l);
                   first_name := IdentityDb.first_name (IdentityDb.user l);
                   last_name := IdentityDb.last_name (IdentityDb.user l);
                   row_channel := IdentityDb.resolved_channel l;
                   channel_peer_id := IdentityDb.resolved_peer_id l;
                   row_verified := IdentityDb.verified l |})).
  reflexivity.
Qed.

Lemma gate_lookup_none d c p :
  (forall uc, In uc (IdentityDb.lp_user_channels d) ->
     IdentityDb.same_peer c p uc = false) ->
  findUserByChannelPeer d c p = None.
Proof.
  intros H. unfold findUserByChannelPeer.
  replace (flat_map _ (IdentityDb.lp_users d)) with (@nil IdentityRow);
    [reflexivity|].
  symmetry. induction (IdentityDb.lp_users d) as [|u us IH]; [reflexivity|].
  cbn [flat_map]. rewrite IH, app_nil_r.
  rewrite IdentityDbFacts.filter_none; [reflexivity|].
  intros uc Huc. rewrite (H uc Huc). apply andb_false_r.
Qed.

(** *** The hook *)

(** X6. For a peer linked to a user of a store that satisfies the
    constraints of the schema, the hook prepends the gate message when
    verification is required and the user has no external id, and
    otherwise the scope block, whose scope key is the external id of the
    user or, without one, the user id. *)
Theorem gate_scope_of_linked_peer scopeConfig reachable d ctx st u uc :
  let sessionKey := nullish (ctx_sessionKey ctx) EmptyString in
  let channel := nullish (ctx_messageProvider ctx) (deriveChannel sessionKey) in
  let peerId := derivePeerId sessionKey in
  IdentityDb.constraints_hold d ->
  In u (IdentityDb.lp_users d) ->
  In uc (IdentityDb.lp_user_channels d) ->
  IdentityDb.same_peer channel peerId uc = true ->
  IdentityDb.user_id uc = IdentityDb.id u ->
  fst (ensureReady reachable st) = true ->
  no_peer peerId = false ->
  fst (before_agent_start scopeConfig reachable d ctx st) =
    Some (if truthy_obool (requireVerified scopeConfig)
             && negb (IdentityDb.is_some (IdentityDb.external_id u))
          then formatGatedMessage scopeConfig
          else join nl
                 ["[MEMORY_SCOPE]";
                  "scope_key: " ++ nullish (IdentityDb.external_id u)
                                           (IdentityDb.id u);
                  "user_id: " ++ IdentityDb.id u;
                  "external_id: " ++ nullish (IdentityDb.external_id u) "none";
                  "verified: " ++ string_of_bool
                                    (IdentityDb.is_some (IdentityDb.external_id u));
                  "gated: false";
                  "[/MEMORY_SCOPE]"]).
Proof.
  intros sessionKey channel peerId Hc Hu Huc Hpeer Hid Hready Hno.
  subst sessionKey channel peerId.
  unfold before_agent_start.
  destruct (ensureReady reachable st) as [ready st1]. simpl in Hready.
  subst ready. change (negb true) with false. cbv iota zeta.
  unfold no_peer in Hno. rewrite Hno.
  rewrite gate_lookup.
  rewrite (IdentityDbFacts.findUserByChannelPeer_linked d Hc _ _ u uc
             Hu Huc Hpeer Hid).
  reflexivity.
Qed.

Lemma gate_scope_of_linked_peer_witness :
  fst (before_agent_start (scopeConfigOf (Some true) None) true
         (Commands.db Samples.registered)
         (Some {| sessionKey := Some "agent:main:whatsapp:+15551230000";
                  messageProvider := None |})
         {| dbReady := false; initError := false |})
  = Some (formatGatedMessage (scopeConfigOf (Some true) None)) /\
  fst (before_agent_start (scopeConfigOf None None) true
         (Commands.db Samples.registered)
         (Some {| sessionKey := Some "agent:main:whatsapp:+15551230000";
                  messageProvider := None |})
         {| dbReady := false; initError := false |})
  = Some (join nl ["[MEMORY_SCOPE]"; "scope_key: uuid-0"; "user_id: uuid-0";
                   "external_id: none"; "verified: false"; "gated: false";
                   "[/MEMORY_SCOPE]"]).
Proof.
  assert (Hu : exists u uc,
             In u (IdentityDb.lp_users (Commands.db Samples.registered)) /\
             In uc (IdentityDb.lp_user_channels (Commands.db Samples.registered)) /\
             IdentityDb.same_peer "whatsapp" "+15551230000" uc = true /\
             IdentityDb.user_id uc = IdentityDb.id u /\
             IdentityDb.id u = "uuid-0" /\ IdentityDb.external_id u = None).
  { vm_compute. eexists. eexists.
    split; [left; reflexivity|].
    split; [left; reflexivity|].
    split; [reflexivity|]. split; [reflexivity|]. split; reflexivity. }
  destruct Hu as (u & uc & Hu & Huc & Hp & Hid & Hid0 & Hext).
  split.
  - rewrite (gate_scope_of_linked_peer (scopeConfigOf (Some true) None) true
               (Commands.db Samples.registered)
               (Some {| sessionKey := Some "agent:main:whatsapp:+15551230000";
                        messageProvider := None |})
               {| dbReady := false; initError := false |} u uc
               CommandsFacts.constraints_hold_registered Hu Huc Hp Hid
               eq_refl eq_refl).
    rewrite Hext. reflexivity.
  - rewrite (gate_scope_of_linked_peer (scopeConfigOf None None) true
               (Commands.db Samples.registered)
               (Some {| sessionKey := Some "agent:main:whatsapp:+15551230000";
                        messageProvider := None |})
               {| dbReady := false; initError := false |} u uc
               CommandsFacts.constraints_hold_registered Hu Huc Hp Hid
               eq_refl eq_refl).
    rewrite Hext, Hid0. reflexivity.
Defined.

(** X7. The hook adds nothing for a session without a peer (an empty
    peer id, "main" or "unknown") and for a peer that no row links to a
    user, whatever the configuration. *)
Theorem gate_adds_nothing_without_identity scopeConfig reachable d ctx st :
  let sessionKey := nullish (ctx_sessionKey ctx) EmptyString in
  let channel := nullish (ctx_messageProvider ctx) (deriveChannel sessionKey) in
  let peerId := derivePeerId sessionKey in
  no_peer peerId = true \/
  (forall uc, In uc (IdentityDb.lp_user_channels d) ->
     IdentityDb.same_peer channel peerId uc = false) ->
  fst (before_agent_start scopeConfig reachable d ctx st) = None.
Proof.
  intros sessionKey channel peerId H.
  subst sessionKey channel peerId.
  unfold before_agent_start.
  destruct (ensureReady reachable st) as [[|] st1]; [|reflexivity].
  change (negb true) with false. cbv iota zeta.
  destruct H as [H|H].
  - unfold no_peer in H. rewrite H. reflexivity.
  - rewrite (gate_lookup_none d _ _ H).
    destruct (_ || _); reflexivity.
Qed.

Lemma gate_adds_nothing_without_identity_witness :
  fst (before_agent_start (scopeConfigOf (Some true) None) true
         (Commands.db Samples.registered)
         (Some {| sessionKey := Some "agent:main:main";
                  messageProvider := None |})
         {| dbReady := false; initError := false |}) = None /\
  fst (before_agent_start (scopeConfigOf (Some true) None) true
         IdentityDb.empty
         (Some {| sessionKey := Some "agent:main:whatsapp:+15551230000";
                  messageProvider := None |})
         {| dbReady := false; initError := false |}) = None.
Proof.
  split.
  - apply gate_adds_nothing_without_identity. left. reflexivity.
  - apply gate_adds_nothing_without_identity. right.
    intros uc Huc. destruct Huc.
Defined.

(** X8. A failed initialisation is final: once a call of the hook has
    found the store unreachable, every later call returns the empty
    object and leaves the flags alone, also when the store answers again
    and the peer is linked. *)
Theorem gate_init_failure_is_final scopeConfig0 d0 ctx0 st :
  dbReady st = false ->
  let st1 := snd (before_agent_start scopeConfig0 false d0 ctx0 st) in
  forall scopeConfig reachable d ctx,
    before_agent_start scopeConfig reachable d ctx st1 = (None, st1).
Proof.
  intros Hnot st1 scopeConfig reachable d ctx.
  assert (H1 : dbReady st1 = false /\ initError st1 = true).
  { unfold st1, before_agent_start, ensureReady. rewrite Hnot.
    destruct (initError st) eqn:E; simpl; auto. }
  destruct H1 as [Hd He].
  unfold before_agent_start, ensureReady. rewrite Hd, He. reflexivity.
Qed.

Lemma gate_init_failure_is_final_witness :
  let st1 := snd (before_agent_start (scopeConfigOf None None) false
                    (Commands.db Samples.registered) None
                    {| dbReady := false; initError := false |}) in
  before_agent_start (scopeConfigOf None None) true
    (Commands.db Samples.registered)
    (Some {| sessionKey := Some "agent:main:whatsapp:+15551230000";
             messageProvider := None |}) st1 = (None, st1).
Proof.
  apply (gate_init_failure_is_final (scopeConfigOf None None)
           (Commands.db Samples.registered) None
           {| dbReady := false; initError := false |} eq_refl).
Defined.

End MemoryGateFacts.

(** ** The identity plugin: [/register], the lookup hook and [/whoami] *)

Module IdentityPluginFacts.
Import Js SessionKey Pg Jwt IdentityDb Commands IdentityPlugin.
Import JsFacts PgFacts IdentityDbFacts CommandsFacts.
Local Open Scope list_scope.

(** *** The words of [/register] *)

(** A text that does not start with white space starts with a piece. *)
Lemma split_ws_head a r :
  white_head (String a r) = false ->
  exists piece pieces, split_ws (String a r) = String a piece :: pieces.
Proof.
  cbn [white_head]. intros H.
  apply orb_false_elim in H. destruct H as [E1 H].
  assert (P : exists piece pieces,
            match split_ws_from false r with
            | piece :: pieces => String a piece :: pieces
            | [] => [String a EmptyString]
            end = String a piece :: pieces).
  { destruct (split_ws_from false r) as [|piece pieces].
    - exists EmptyString, []. reflexivity.
    - exists piece, pieces. reflexivity. }
  unfold split_ws. cbn [split_ws_from]. rewrite E1.
  destruct r as [|b r']; [exact P|].
  apply orb_false_elim in H. destruct H as [E2 H]. rewrite E2.
  destruct r' as [|c r'']; [exact P|].
  rewrite H. exact P.
Qed.

(** The words are separated by white space of any kind. *)
Example split_ws_no_break_space :
  split_ws (trim (" Ana" ++ nbsp ++ "Maria" ++ nbsp ++ " Lopez" ++ nbsp))
  = ["Ana"; "Maria"; "Lopez"].
Proof. reflexivity. Qed.

(** Arguments that are not blank have a first word. *)
Lemma first_name_present a :
  trim a <> EmptyString ->
  truthy_str (nullish (nth_error (split_ws (trim a)) 0) EmptyString) = true.
Proof.
  intros H. pose proof (trim_head a) as Hw.
  destruct (trim a) as [|c r]; [contradiction H; reflexivity|].
  destruct (split_ws_head c r Hw) as (piece & pieces & Hs). rewrite Hs.
  reflexivity.
Qed.

Lemma truthy_trim a : trim a <> EmptyString -> truthy_str (trim a) = true.
Proof.
  intros H. unfold truthy_str. apply String.eqb_neq in H. rewrite H.
  reflexivity.
Qed.

Lemma not_truthy_trim a : truthy_str (trim a) = false -> trim a = EmptyString.
Proof.
  unfold truthy_str. intros H. apply negb_false_iff in H.
  apply String.eqb_eq in H. exact H.
Qed.

(** The sample store of a verified peer satisfies the constraints. *)
Lemma constraints_hold_verified_on_whatsapp :
  constraints_hold (db Peers.verified_on_whatsapp).
Proof.
  assert (E : Peers.verified_on_whatsapp
              = store_of (verify (Some Samples.hs256) Samples.sample_env
                            Samples.whatsapp_verify Samples.registered))
    by (vm_compute; reflexivity).
  rewrite E.
  apply (InvariantFacts.verify_keeps (Some Samples.hs256) Samples.sample_env
           Samples.whatsapp_verify Samples.registered).
  exact constraints_hold_registered.
Qed.

(** Brings a run of [register] with arguments that are not blank, on a
    store that is or becomes ready, to its statements on the store. *)
Ltac enter_register Ha Ht Hr st1 :=
  unfold register; rewrite Ha;
  cbn [option_map truthy_ostr nullish];
  rewrite (truthy_trim _ Ht); cbv zeta;
  rewrite (first_name_present _ Ht);
  change (negb true) with false; cbv beta iota;
  match goal with
  | |- context [ensureReady ?env ?st] =>
      pose proof (ensureReady_db env st) as Hdb;
      pose proof (ensureReady_ready env st) as Hsr;
      destruct (ensureReady env st) as [ready st1];
      cbn [fst snd] in Hr, Hdb, Hsr; subst ready;
      specialize (Hsr eq_refl)
  end;
  change (negb true) with false; cbv iota;
  unfold bind at 1; unfold query at 1.

(** X9. [/register] never answers "Please provide at least a first name":
    arguments that are not blank always start with a word, so the check
    of the first name cannot fail. *)
Theorem register_never_asks_for_first_name env ctx st r st' :
  register env ctx st = Returned r st' ->
  text r <> register_no_first_name.
Proof.
  assert (Hhead : forall c (t : string) st0 r0 (s : PluginState),
            @Returned PluginState Reply {| text := String c t |} st0
              = Returned r0 s ->
            c <> "P"%char -> text r0 <> register_no_first_name).
  { intros c t st0 r0 s H Hc. injection H as <- _. simpl.
    unfold register_no_first_name. intros E. injection E as E _.
    exact (Hc E). }
  destruct (args ctx) as [a|] eqn:Ha.
  - destruct (truthy_str (trim a)) eqn:Ht.
    + assert (Hne : trim a <> EmptyString).
      { intros E. rewrite E in Ht. discriminate Ht. }
      destruct (fst (ensureReady env st)) eqn:Hr.
      * enter_register Ha Hne Hr st1.
        destruct (findUserByChannelPeer _ _ _) as [e|].
        -- unfold bind, ret.
           destruct (run _ st1) as [x s|x s]; [|discriminate].
           intros H. apply (Hhead _ _ _ _ _ H). discriminate.
        -- unfold bind, ret.
           destruct (run (createUser _ _) st1) as [u s|x s]; [|discriminate].
           destruct (run (linkChannelToUser _ _ _ _) s) as [uc s2|x s2];
             [|discriminate].
           intros H. apply (Hhead _ _ _ _ _ H). discriminate.
      * unfold register. rewrite Ha.
        cbn [option_map truthy_ostr nullish]. rewrite Ht. cbv zeta.
        rewrite (first_name_present a Hne).
        change (negb true) with false. cbv beta iota.
        destruct (ensureReady env st) as [ready st1]. simpl in Hr.
        subst ready. change (negb false) with true. cbv iota.
        intros H. apply (Hhead _ _ _ _ _ H). discriminate.
    + unfold register. rewrite Ha.
      cbn [option_map truthy_ostr nullish]. rewrite Ht.
      change (negb false) with true. cbv iota. unfold ret.
      intros H. apply (Hhead _ _ _ _ _ H). discriminate.
  - unfold register. rewrite Ha. cbn [option_map truthy_ostr].
    change (negb false) with true. cbv iota. unfold ret.
    intros H. apply (Hhead _ _ _ _ _ H). discriminate.
Qed.

Lemma register_never_asks_for_first_name_witness :
  text {| text := "Registered as Ana Lopez." ++ nl ++ "Your user ID: uuid-0"
                  ++ nl ++ verify_tip |}
  <> register_no_first_name.
Proof.
  apply (register_never_asks_for_first_name Samples.sample_env
           Samples.whatsapp_register Samples.fresh _ Samples.registered).
  vm_compute. reflexivity.
Defined.


(** *** The statements of [/register] on the store *)

Lemma createUser_unverified f l now d :
  fits 128 f = true -> fits 128 l = true ->
  createUser {| firstName := Some f; lastName := Some l; externalId := None |}
             now d
  = Returned
      {| id := gen_random_uuid (uuid_seq d); external_id := None;
         first_name := Some f; last_name := Some l;
         created_at := now; updated_at := now |}
      {| lp_users :=
           lp_users d ++
           [{| id := gen_random_uuid (uuid_seq d); external_id := None;
               first_name := Some f; last_name := Some l;
               created_at := now; updated_at := now |}];
         lp_user_channels := lp_user_channels d;
         uuid_seq := S (uuid_seq d) |}.
Proof.
  intros Hf Hl. unfold createUser, bind, get, put, ret.
  cbn [firstName lastName externalId varchar_opt].
  rewrite (varchar_fits _ _ Hf), (varchar_fits _ _ Hl). reflexivity.
Qed.

(** A name that its column refuses: too long, by more than spaces. *)
Lemma createUser_long_name f l now d :
  varchar 128 f = None \/ varchar 128 l = None ->
  createUser {| firstName := Some f; lastName := Some l; externalId := None |}
             now d
  = Thrown string_data_right_truncation d.
Proof.
  intros H. unfold createUser, bind, get, throw.
  cbn [firstName lastName externalId varchar_opt].
  destruct H as [H|H]; rewrite H; cbn [option_map];
    [|destruct (varchar 128 f)]; reflexivity.
Qed.

Lemma linkChannelToUser_new uid c p now d :
  fits 50 c = true -> fits 512 p = true ->
  existsb (fun u => String.eqb (id u) uid) (lp_users d) = true ->
  find (same_peer c p) (lp_user_channels d) = None ->
  linkChannelToUser uid c p now d
  = Returned
      {| link_id := gen_random_uuid (uuid_seq d); user_id := uid;
         channel := c; channel_peer_id := p; linked_at := now |}
      {| lp_users := lp_users d;
         lp_user_channels :=
           lp_user_channels d ++
           [{| link_id := gen_random_uuid (uuid_seq d); user_id := uid;
               channel := c; channel_peer_id := p; linked_at := now |}];
         uuid_seq := S (uuid_seq d) |}.
Proof.
  intros Hc Hp Hu Hf. unfold linkChannelToUser, bind, get, put, ret.
  rewrite (varchar_fits _ _ Hc), (varchar_fits _ _ Hp), Hu, Hf. reflexivity.
Qed.

Lemma linkChannelToUser_too_long uid c p now d :
  varchar 50 c = None \/ varchar 512 p = None ->
  linkChannelToUser uid c p now d = Thrown string_data_right_truncation d.
Proof.
  intros H. unfold linkChannelToUser, bind, get, throw.
  destruct H as [H|H]; rewrite H; [|destruct (varchar 50 c)]; reflexivity.
Qed.

(** A peer that the lookup does not find has no link row. *)
Lemma lookup_none_find d c p :
  constraints_hold d ->
  findUserByChannelPeer d c p = None ->
  find (same_peer c p) (lp_user_channels d) = None.
Proof.
  intros Hc Hnone.
  destruct (find (same_peer c p) (lp_user_channels d)) as [uc|] eqn:E;
    [|reflexivity].
  apply find_some in E as [Hin Hsame].
  destruct (links_fk d Hc uc Hin) as (u & Hu & Hid).
  rewrite (findUserByChannelPeer_linked d Hc c p u uc Hu Hin Hsame
             (eq_sym Hid)) in Hnone.
  discriminate Hnone.
Qed.

Lemma existsb_last_id (us : list UserRow) u :
  existsb (fun x => String.eqb (id x) (id u)) (us ++ [u]) = true.
Proof.
  rewrite existsb_app. simpl. rewrite String.eqb_refl.
  rewrite orb_true_r. reflexivity.
Qed.

(** The rows that [/register] leaves for a peer without a link. *)
Lemma register_new_peer_rows env ctx st a :
  let firstName := nullish (nth_error (split_ws (trim a)) 0) EmptyString in
  let lastName := join " " (slice 1 (split_ws (trim a))) in
  let channel := nullish (ctx_channel ctx) "unknown" in
  let peerId := nullish (senderId ctx) (nullish (from ctx) "unknown") in
  let u := {| id := gen_random_uuid (uuid_seq (db st)); external_id := None;
              first_name := Some firstName; last_name := Some lastName;
              created_at := dbNow env; updated_at := dbNow env |} in
  let uc := {| link_id := gen_random_uuid (S (uuid_seq (db st)));
               user_id := id u; channel := channel;
               channel_peer_id := peerId; linked_at := dbNow env |} in
  constraints_hold (db st) ->
  args ctx = Some a -> trim a <> EmptyString ->
  fst (ensureReady env st) = true ->
  findUserByChannelPeer (db st) channel peerId = None ->
  fits 128 firstName = true -> fits 128 lastName = true ->
  fits 50 channel = true -> fits 512 peerId = true ->
  register env ctx st
  = Returned
      {| text := "Registered as " ++ firstName ++ " " ++ lastName ++ "."
                 ++ nl ++ "Your user ID: " ++ id u ++ nl ++ verify_tip |}
      {| schemaReady := true;
         initError := initError (snd (ensureReady env st));
         db := {| lp_users := lp_users (db st) ++ [u];
                  lp_user_channels := lp_user_channels (db st) ++ [uc];
                  uuid_seq := S (S (uuid_seq (db st))) |} |}.
Proof.
  intros firstName lastName channel peerId u uc Hc Ha Ht Hr Hnone
         Hf Hl Hch Hp.
  pose proof (lookup_none_find _ _ _ Hc Hnone) as Hfind.
  subst u uc firstName lastName channel peerId.
  enter_register Ha Ht Hr st1.
  cbn [snd]. rewrite Hdb, Hnone.
  unfold bind, run, ret.
  rewrite Hdb, (createUser_unverified _ _ _ _ Hf Hl).
  cbn [with_db db].
  rewrite (linkChannelToUser_new _ _ _ _ _ Hch Hp); cbn [lp_users lp_user_channels uuid_seq id].
  - unfold with_db. cbn [schemaReady initError db]. rewrite Hsr. reflexivity.
  - exact (existsb_last_id (lp_users (db st))
             {| id := gen_random_uuid (uuid_seq (db st)); external_id := None;
                first_name :=
                  Some (nullish (nth_error (split_ws (trim a)) 0) EmptyString);
                last_name := Some (join " " (slice 1 (split_ws (trim a))));
                created_at := dbNow env; updated_at := dbNow env |}).
  - exact Hfind.
Qed.

(** X10. [/register] from a peer without a link, with names, channel and
    peer id that fit their columns and hold no NUL character: one user row
    without external id is added, carrying the first word as first name and the other words,
    joined by single spaces, as last name; one link row ties the peer to
    it; the lookup of the peer then gives that user, unverified. *)
Theorem register_new_peer env ctx st a :
  let firstName := nullish (nth_error (split_ws (trim a)) 0) EmptyString in
  let lastName := join " " (slice 1 (split_ws (trim a))) in
  let channel := nullish (ctx_channel ctx) "unknown" in
  let peerId := nullish (senderId ctx) (nullish (from ctx) "unknown") in
  constraints_hold (db st) ->
  args ctx = Some a -> trim a <> EmptyString ->
  fst (ensureReady env st) = true ->
  findUserByChannelPeer (db st) channel peerId = None ->
  fits 128 firstName = true -> fits 128 lastName = true ->
  fits 50 channel = true -> fits 512 peerId = true ->
  no_nul a = true -> no_nul channel = true -> no_nul peerId = true ->
  exists u uc st',
    register env ctx st
    = Returned
        {| text := "Registered as " ++ firstName ++ " " ++ lastName ++ "."
                   ++ nl ++ "Your user ID: " ++ id u ++ nl ++ verify_tip |}
        st' /\
    lp_users (db st') = lp_users (db st) ++ [u] /\
    lp_user_channels (db st') = lp_user_channels (db st) ++ [uc] /\
    first_name u = Some firstName /\ last_name u = Some lastName /\
    external_id u = None /\
    user_id uc = id u /\ IdentityDb.channel uc = channel /\
    channel_peer_id uc = peerId /\
    findUserByChannelPeer (db st') channel peerId
    = Some {| user := u; resolved_channel := channel;
              resolved_peer_id := peerId; verified := false |}.
Proof.
  intros firstName lastName channel peerId Hc Ha Ht Hr Hnone Hf Hl Hch Hp
         _ _ _.
  pose proof (register_new_peer_rows env ctx st a Hc Ha Ht Hr Hnone
                Hf Hl Hch Hp) as Hrun.
  cbv zeta in Hrun. fold firstName lastName channel peerId in Hrun.
  cbn [id] in Hrun.
  pose proof (InvariantFacts.register_keeps env ctx st Hc) as Hc'.
  rewrite Hrun in Hc'. cbn [store_of db] in Hc'.
  exists {| id := gen_random_uuid (uuid_seq (db st)); external_id := None;
            first_name := Some firstName; last_name := Some lastName;
            created_at := dbNow env; updated_at := dbNow env |},
         {| link_id := gen_random_uuid (S (uuid_seq (db st)));
            user_id := gen_random_uuid (uuid_seq (db st));
            channel := channel;
            channel_peer_id := peerId; linked_at := dbNow env |}.
  eexists.
  split; [exact Hrun|]. cbn [db lp_users lp_user_channels].
  split; [reflexivity|]. split; [reflexivity|].
  cbn [first_name last_name external_id user_id id channel channel_peer_id].
  do 6 (split; [reflexivity|]).
  rewrite (findUserByChannelPeer_linked _ Hc' channel peerId
             {| id := gen_random_uuid (uuid_seq (db st)); external_id := None;
                first_name := Some firstName; last_name := Some lastName;
                created_at := dbNow env; updated_at := dbNow env |}
             {| link_id := gen_random_uuid (S (uuid_seq (db st)));
                user_id := gen_random_uuid (uuid_seq (db st));
                channel := channel;
                channel_peer_id := peerId; linked_at := dbNow env |}).
  - reflexivity.
  - cbn [lp_users]. apply in_or_app. right. left. reflexivity.
  - cbn [lp_user_channels]. apply in_or_app. right. left. reflexivity.
  - unfold same_peer. cbn [IdentityDb.channel channel_peer_id].
    rewrite !String.eqb_refl. reflexivity.
  - reflexivity.
Qed.

Lemma register_new_peer_witness :
  exists u uc st',
    register Samples.sample_env Peers.telegram_register Samples.registered
    = Returned
        {| text := "Registered as Ana Lopez." ++ nl ++ "Your user ID: " ++ id u
                   ++ nl ++ verify_tip |} st' /\
    lp_users (db st') = lp_users (db Samples.registered) ++ [u] /\
    lp_user_channels (db st')
    = lp_user_channels (db Samples.registered) ++ [uc] /\
    first_name u = Some "Ana" /\ last_name u = Some "Lopez" /\
    external_id u = None /\
    findUserByChannelPeer (db st') "telegram" "tg-77"
    = Some {| user := u; resolved_channel := "telegram";
              resolved_peer_id := "tg-77"; verified := false |}.
Proof.
  destruct (register_new_peer Samples.sample_env Peers.telegram_register
              Samples.registered "  Ana   Lopez "
              constraints_hold_registered eq_refl)
    as (u & uc & st' & H1 & H2 & H3 & H4 & H5 & H6 & _ & _ & _ & H7);
    try reflexivity; [discriminate|].
  exists u, uc, st'.
  split; [exact H1|]. split; [exact H2|]. split; [exact H3|].
  split; [exact H4|]. split; [exact H5|]. split; [exact H6|exact H7].
Defined.


(** *** The lookup hook around a registration *)

Lemma ensureReady_false env st :
  schemaReady st = false -> initError st = true ->
  ensureReady env st = (false, st).
Proof. intros H1 H2. unfold ensureReady. rewrite H1, H2. reflexivity. Qed.

(** X11. Before a peer registers, the lookup hook prepends the block of an
    unregistered user with the hints on [/verify] and [/register]; after
    its [/register] the hook prepends the identity block of the new user:
    its id, no external id, the registered name, not verified. The names,
    the channel and the peer id fit their columns and hold no NUL
    character. *)
Theorem lookup_hook_around_register env ctx st a env' hctx :
  let firstName := nullish (nth_error (split_ws (trim a)) 0) EmptyString in
  let lastName := join " " (slice 1 (split_ws (trim a))) in
  let channel := nullish (ctx_channel ctx) "unknown" in
  let peerId := nullish (senderId ctx) (nullish (from ctx) "unknown") in
  let sessionKey := nullish (ctx_sessionKey hctx) EmptyString in
  constraints_hold (db st) ->
  args ctx = Some a -> trim a <> EmptyString ->
  fst (ensureReady env st) = true ->
  findUserByChannelPeer (db st) channel peerId = None ->
  fits 128 firstName = true -> fits 128 lastName = true ->
  fits 50 channel = true -> fits 512 peerId = true ->
  no_nul a = true -> no_nul channel = true -> no_nul peerId = true ->
  nullish (ctx_messageProvider hctx) (deriveChannel sessionKey) = channel ->
  derivePeerId sessionKey = peerId ->
  no_peer peerId = false ->
  fst (before_agent_start env hctx st)
  = Some (formatUnknownUserContext channel peerId) /\
  fst (before_agent_start env' hctx (store_of (register env ctx st)))
  = Some (join nl
            ["[USER_IDENTITY]";
             "user_id: " ++ gen_random_uuid (uuid_seq (db st));
             "external_id: none";
             "name: " ++ trim (firstName ++ " " ++ lastName);
             "channel: " ++ channel;
             "channel_peer_id: " ++ peerId;
             "verified: false";
             "status: new_session";
             "[/USER_IDENTITY]"]%string).
Proof.
  intros firstName lastName channel peerId sessionKey Hc Ha Ht Hr Hnone
         Hf Hl Hch Hp _ _ _ Hchan Hpeer Hno.
  unfold no_peer in Hno.
  split.
  - unfold before_agent_start.
    pose proof (ensureReady_db env st) as Hdb.
    destruct (ensureReady env st) as [ready st1]. cbn [fst snd] in Hr, Hdb.
    subst ready. change (negb true) with false. cbv iota zeta.
    fold sessionKey. rewrite Hchan, Hpeer, Hno, Hdb, Hnone. reflexivity.
  - pose proof (register_new_peer_rows env ctx st a Hc Ha Ht Hr Hnone
                  Hf Hl Hch Hp) as Hrun.
    cbv zeta in Hrun. fold firstName lastName channel peerId in Hrun.
    cbn [id] in Hrun.
    pose proof (InvariantFacts.register_keeps env ctx st Hc) as Hc'.
    rewrite Hrun in Hc'. rewrite Hrun. cbn [store_of db] in Hc' |- *.
    unfold before_agent_start, ensureReady. cbn [schemaReady].
    change (negb true) with false. cbv iota zeta.
    fold sessionKey. rewrite Hchan, Hpeer, Hno. cbn [db].
    rewrite (findUserByChannelPeer_linked _ Hc' channel peerId
               {| id := gen_random_uuid (uuid_seq (db st));
                  external_id := None;
                  first_name := Some firstName; last_name := Some lastName;
                  created_at := dbNow env; updated_at := dbNow env |}
               {| link_id := gen_random_uuid (S (uuid_seq (db st)));
                  user_id := gen_random_uuid (uuid_seq (db st));
                  channel := channel;
                  channel_peer_id := peerId; linked_at := dbNow env |}).
    + unfold formatIdentityContext.
      cbn [user first_name last_name external_id id resolved_channel
           resolved_peer_id verified truthy_ostr nullish is_some
           IdentityDb.channel channel_peer_id].
      unfold firstName at 1. rewrite (first_name_present a Ht).
      reflexivity.
    + cbn [lp_users]. apply in_or_app. right. left. reflexivity.
    + cbn [lp_user_channels]. apply in_or_app. right. left. reflexivity.
    + unfold same_peer. cbn [IdentityDb.channel channel_peer_id].
      rewrite !String.eqb_refl. reflexivity.
    + reflexivity.
Qed.

Lemma lookup_hook_around_register_witness :
  fst (before_agent_start Samples.sample_env (Some Peers.telegram_hook)
         Samples.registered)
  = Some (formatUnknownUserContext "telegram" "tg-77") /\
  fst (before_agent_start Samples.sample_env (Some Peers.telegram_hook)
         (store_of (register Samples.sample_env Peers.telegram_register
                      Samples.registered)))
  = Some (join nl
            ["[USER_IDENTITY]"; "user_id: uuid-2"; "external_id: none";
             "name: Ana Lopez"; "channel: telegram";
             "channel_peer_id: tg-77"; "verified: false";
             "status: new_session"; "[/USER_IDENTITY]"]).
Proof.
  apply (lookup_hook_around_register Samples.sample_env
           Peers.telegram_register Samples.registered "  Ana   Lopez "
           Samples.sample_env (Some Peers.telegram_hook)
           constraints_hold_registered eq_refl);
    try reflexivity.
  discriminate.
Defined.


(** *** [/register] from a peer that is linked already *)

Lemma updateUserName_existing uid f l now d :
  existsb (fun u => String.eqb (id u) uid) (lp_users d) = true ->
  fits 128 f = true -> fits 128 l = true ->
  exists r,
    updateUserName uid f l now d
    = Returned r
        {| lp_users :=
             map (fun u => if String.eqb (id u) uid
                           then {| id := id u; external_id := external_id u;
                                   first_name := Some f; last_name := Some l;
                                   created_at := created_at u;
                                   updated_at := now |}
                           else u) (lp_users d);
           lp_user_channels := lp_user_channels d;
           uuid_seq := uuid_seq d |}.
Proof.
  intros Hu Hf Hl. unfold updateUserName, bind, get, put, ret.
  rewrite Hu, (varchar_fits _ _ Hf), (varchar_fits _ _ Hl).
  eexists. reflexivity.
Qed.

Lemma updateUserName_long_name uid f l now d :
  existsb (fun u => String.eqb (id u) uid) (lp_users d) = true ->
  varchar 128 f = None \/ varchar 128 l = None ->
  updateUserName uid f l now d = Thrown string_data_right_truncation d.
Proof.
  intros Hu H. unfold updateUserName, bind, get, throw.
  rewrite Hu. cbn [negb].
  destruct H as [H|H]; rewrite H; [|destruct (varchar 128 f)]; reflexivity.
Qed.

Lemma lookup_user_exists d c p e :
  constraints_hold d ->
  findUserByChannelPeer d c p = Some e ->
  existsb (fun u => String.eqb (id u) (id (user e))) (lp_users d) = true.
Proof.
  intros _ H. destruct (findUserByChannelPeer_some d c p e H) as [Hin _].
  apply existsb_exists. exists (user e). split; [exact Hin|].
  apply String.eqb_refl.
Qed.

Lemma map_rename_keeps {A} (proj : UserRow -> A) (g : UserRow -> UserRow)
  (uid : uuid) (us : list UserRow) :
  (forall u, proj (g u) = proj u) ->
  map proj (map (fun u => if String.eqb (id u) uid then g u else u) us)
  = map proj us.
Proof.
  intros H. rewrite map_map. apply map_ext. intros u.
  destruct (String.eqb (id u) uid); [apply H|reflexivity].
Qed.

(** X12. [/register] from a peer that is linked to a user, with names
    that fit and arguments, channel and peer id without NUL character:
    only the names and the update time of that user change. No
    row is added, ids, external ids and links stay, and the lookup of the
    peer gives the same user under the new name, verified as before. *)
Theorem register_existing_peer env ctx st a e :
  let firstName := nullish (nth_error (split_ws (trim a)) 0) EmptyString in
  let lastName := join " " (slice 1 (split_ws (trim a))) in
  let channel := nullish (ctx_channel ctx) "unknown" in
  let peerId := nullish (senderId ctx) (nullish (from ctx) "unknown") in
  let renamed u := {| id := id u; external_id := external_id u;
                      first_name := Some firstName;
                      last_name := Some lastName;
                      created_at := created_at u;
                      updated_at := dbNow env |} in
  constraints_hold (db st) ->
  args ctx = Some a -> trim a <> EmptyString ->
  fst (ensureReady env st) = true ->
  findUserByChannelPeer (db st) channel peerId = Some e ->
  fits 128 firstName = true -> fits 128 lastName = true ->
  no_nul a = true -> no_nul channel = true -> no_nul peerId = true ->
  exists st',
    register env ctx st
    = Returned
        {| text := "Updated your name to " ++ firstName ++ " " ++ lastName
                   ++ "."
                   ++ (if truthy_ostr (external_id (user e))
                       then EmptyString else nl ++ verify_tip) |} st' /\
    lp_users (db st')
    = map (fun u => if String.eqb (id u) (id (user e)) then renamed u else u)
          (lp_users (db st)) /\
    map id (lp_users (db st')) = map id (lp_users (db st)) /\
    map external_id (lp_users (db st')) = map external_id (lp_users (db st)) /\
    lp_user_channels (db st') = lp_user_channels (db st) /\
    findUserByChannelPeer (db st') channel peerId
    = Some {| user := renamed (user e);
              resolved_channel := resolved_channel e;
              resolved_peer_id := resolved_peer_id e;
              verified := verified e |}.
Proof.
  intros firstName lastName channel peerId renamed Hc Ha Ht Hr Hsome Hf Hl
         _ _ _.
  pose proof (InvariantFacts.register_keeps env ctx st Hc) as Hc'.
  pose proof (lookup_user_exists _ _ _ _ Hc Hsome) as Hex.
  destruct (findUserByChannelPeer_some _ _ _ _ Hsome)
    as (Hin & uc & Huc & Hsame & Hid).
  pose proof (findUserByChannelPeer_linked _ Hc channel peerId (user e) uc
                Hin Huc Hsame Hid) as He.
  rewrite Hsome in He. injection He as He.
  destruct (updateUserName_existing (id (user e)) firstName lastName
              (dbNow env) (db st) Hex Hf Hl) as [r Hupd].
  assert (Hrun : register env ctx st
                 = Returned
                     {| text := "Updated your name to " ++ firstName ++ " "
                                ++ lastName ++ "."
                                ++ (if truthy_ostr (external_id (user e))
                                    then EmptyString else nl ++ verify_tip) |}
                     (with_db (snd (ensureReady env st))
                        {| lp_users :=
                             map (fun u => if String.eqb (id u) (id (user e))
                                           then renamed u else u)
                                 (lp_users (db st));
                           lp_user_channels := lp_user_channels (db st);
                           uuid_seq := uuid_seq (db st) |})).
  { clear Hc'. subst firstName lastName channel peerId.
    enter_register Ha Ht Hr st1.
    cbn [snd]. rewrite Hdb, Hsome.
    unfold bind, run, ret. rewrite Hdb, Hupd. reflexivity. }
  rewrite Hrun in Hc'. cbn [store_of] in Hc'.
  eexists. split; [exact Hrun|].
  unfold with_db in *. cbn [db lp_users lp_user_channels] in *.
  split; [reflexivity|].
  split; [apply map_rename_keeps; reflexivity|].
  split; [apply map_rename_keeps; reflexivity|].
  split; [reflexivity|].
  rewrite (findUserByChannelPeer_linked _ Hc' channel peerId
             (renamed (user e)) uc).
  - rewrite He. destruct e as [eu ec ep ev]. cbn in *.
    reflexivity.
  - cbn [lp_users].
    apply in_map_iff. exists (user e). rewrite String.eqb_refl.
    split; [reflexivity|exact Hin].
  - exact Huc.
  - exact Hsame.
  - exact Hid.
Qed.

Lemma register_existing_peer_witness :
  exists st',
    register Samples.sample_env
      {| args := Some "Anna Maria Lopez"; ctx_channel := Some "whatsapp";
         senderId := Some "+15551230000"; from := None |}
      Peers.verified_on_whatsapp
    = Returned {| text := "Updated your name to Anna Maria Lopez." |} st' /\
    map id (lp_users (db st'))
    = map id (lp_users (db Peers.verified_on_whatsapp)) /\
    map external_id (lp_users (db st'))
    = map external_id (lp_users (db Peers.verified_on_whatsapp)) /\
    lp_user_channels (db st')
    = lp_user_channels (db Peers.verified_on_whatsapp) /\
    option_map (fun l => (first_name (user l), last_name (user l), verified l))
      (findUserByChannelPeer (db st') "whatsapp" "+15551230000")
    = Some (Some "Anna", Some "Maria Lopez", true).
Proof.
  pose proof constraints_hold_verified_on_whatsapp as Hc.
  destruct (findUserByChannelPeer (db Peers.verified_on_whatsapp)
              "whatsapp" "+15551230000") as [e|] eqn:E;
    [|vm_compute in E; discriminate E].
  destruct (register_existing_peer Samples.sample_env
              {| args := Some "Anna Maria Lopez"; ctx_channel := Some "whatsapp";
                 senderId := Some "+15551230000"; from := None |}
              Peers.verified_on_whatsapp "Anna Maria Lopez" e Hc eq_refl)
    as (st' & H1 & _ & H2 & H3 & H4 & H5);
    try reflexivity; [discriminate|exact E|].
  assert (He : external_id (user e) = Some "ext-42" /\ verified e = true).
  { vm_compute in E. injection E as <-. split; reflexivity. }
  destruct He as [He Hv].
  exists st'. rewrite He in H1. split; [exact H1|].
  split; [exact H2|]. split; [exact H3|]. split; [exact H4|].
  cbn [nullish ctx_channel senderId from] in H5.
  rewrite H5, Hv. reflexivity.
Defined.

(** *** Values that do not fit their columns *)

(** X13. A first or last name that its column refuses (more than 128
    characters, those in excess not being spaces only) makes [/register]
    fail with the error of the store for a value too long, to the caller:
    the handler does not catch it. The rows are left as they were. (The
    arguments, the channel and the peer id hold no NUL character, which
    the store refuses with another error.) *)
Theorem register_name_too_long env ctx st a :
  let firstName := nullish (nth_error (split_ws (trim a)) 0) EmptyString in
  let lastName := join " " (slice 1 (split_ws (trim a))) in
  let channel := nullish (ctx_channel ctx) "unknown" in
  let peerId := nullish (senderId ctx) (nullish (from ctx) "unknown") in
  constraints_hold (db st) ->
  args ctx = Some a -> trim a <> EmptyString ->
  fst (ensureReady env st) = true ->
  no_nul a = true -> no_nul channel = true -> no_nul peerId = true ->
  varchar 128 firstName = None \/ varchar 128 lastName = None ->
  exists st',
    register env ctx st = Thrown string_data_right_truncation st' /\
    db st' = db st.
Proof.
  intros firstName lastName channel peerId Hc Ha Ht Hr _ _ _ Hlong.
  subst firstName lastName channel peerId.
  enter_register Ha Ht Hr st1.
  destruct (findUserByChannelPeer (db st1) _ _) as [e|] eqn:E.
  - rewrite Hdb in E. pose proof (lookup_user_exists _ _ _ _ Hc E) as Hex.
    unfold bind, run. rewrite Hdb.
    rewrite (updateUserName_long_name _ _ _ _ _ Hex Hlong).
    eexists. split; [reflexivity|]. unfold with_db. cbn [db]. reflexivity.
  - unfold bind, run. rewrite Hdb.
    rewrite (createUser_long_name _ _ _ _ Hlong).
    eexists. split; [reflexivity|]. unfold with_db. cbn [db]. reflexivity.
Qed.


Lemma register_name_too_long_witness :
  exists st',
    register Samples.sample_env
      {| args := Some ("Ana " ++ Peers.long_word)%string;
         ctx_channel := Some "telegram";
         senderId := Some "tg-77"; from := None |}
      Samples.registered
    = Thrown string_data_right_truncation st' /\
    db st' = db Samples.registered.
Proof.
  apply (register_name_too_long Samples.sample_env
           {| args := Some ("Ana " ++ Peers.long_word)%string;
              ctx_channel := Some "telegram";
              senderId := Some "tg-77"; from := None |}
           Samples.registered ("Ana " ++ Peers.long_word)%string
           constraints_hold_registered eq_refl).
  - vm_compute. discriminate.
  - reflexivity.
  - vm_compute. reflexivity.
  - reflexivity.
  - reflexivity.
  - right. vm_compute. reflexivity.
Defined.

(** X14. [/register] is not atomic. With names that fit, from a peer
    without a link whose channel or peer id is refused by its column (more
    than 50 and 512 characters, those in excess not being spaces only),
    none of them holding a NUL character,
    the user row is inserted, the insertion of the link then fails with
    the error of the store, and the user row stays: a user that no link
    refers to. *)
Theorem register_link_failure_leaves_user env ctx st a :
  let firstName := nullish (nth_error (split_ws (trim a)) 0) EmptyString in
  let lastName := join " " (slice 1 (split_ws (trim a))) in
  let channel := nullish (ctx_channel ctx) "unknown" in
  let peerId := nullish (senderId ctx) (nullish (from ctx) "unknown") in
  constraints_hold (db st) ->
  args ctx = Some a -> trim a <> EmptyString ->
  fst (ensureReady env st) = true ->
  findUserByChannelPeer (db st) channel peerId = None ->
  fits 128 firstName = true -> fits 128 lastName = true ->
  no_nul a = true -> no_nul channel = true -> no_nul peerId = true ->
  varchar 50 channel = None \/ varchar 512 peerId = None ->
  exists u st',
    register env ctx st = Thrown string_data_right_truncation st' /\
    lp_users (db st') = lp_users (db st) ++ [u] /\
    first_name u = Some firstName /\ last_name u = Some lastName /\
    external_id u = None /\
    lp_user_channels (db st') = lp_user_channels (db st) /\
    forall uc, In uc (lp_user_channels (db st')) -> user_id uc <> id u.
Proof.
  intros firstName lastName channel peerId Hc Ha Ht Hr Hnone Hf Hl
         _ _ _ Hlong.
  exists {| id := gen_random_uuid (uuid_seq (db st)); external_id := None;
            first_name := Some firstName; last_name := Some lastName;
            created_at := dbNow env; updated_at := dbNow env |}.
  assert (Hrun : register env ctx st
                 = Thrown string_data_right_truncation
                     (with_db (snd (ensureReady env st))
                        {| lp_users :=
                             lp_users (db st) ++
                             [{| id := gen_random_uuid (uuid_seq (db st));
                                 external_id := None;
                                 first_name := Some firstName;
                                 last_name := Some lastName;
                                 created_at := dbNow env;
                                 updated_at := dbNow env |}];
                           lp_user_channels := lp_user_channels (db st);
                           uuid_seq := S (uuid_seq (db st)) |})).
  { subst firstName lastName channel peerId.
    enter_register Ha Ht Hr st1.
    cbn [snd]. rewrite Hdb, Hnone.
    unfold bind, run. rewrite Hdb, (createUser_unverified _ _ _ _ Hf Hl).
    cbn [with_db db].
    rewrite (linkChannelToUser_too_long _ _ _ _ _ Hlong).
    unfold with_db. cbn [schemaReady initError db]. reflexivity. }
  eexists. split; [exact Hrun|].
  unfold with_db. cbn [db lp_users lp_user_channels first_name last_name
                       external_id id].
  do 5 (split; [reflexivity|]).
  intros uc Huc Hid.
  destruct (links_fk _ Hc uc Huc) as (u0 & Hu0 & Hid0).
  destruct (users_drawn _ Hc u0 Hu0) as (k & Hk & Hdrawn).
  rewrite Hid0, Hid in Hdrawn.
  apply gen_random_uuid_inj in Hdrawn. lia.
Qed.

(** A peer id of 512 digits and a space is no such peer id: the link row
    is inserted with the digits, under which the peer as given is not
    found. *)
Example register_padded_peer_id :
  let st' := store_of (register Samples.sample_env
                         {| args := Some "Ana Lopez";
                            ctx_channel := Some "telegram";
                            senderId := Some Peers.padded_digits;
                            from := None |}
                         Samples.registered) in
  map channel_peer_id (lp_user_channels (db st'))
  = ["+15551230000"; Peers.digits_512] /\
  findUserByChannelPeer (db st') "telegram" Peers.padded_digits = None /\
  option_map (fun l => first_name (user l))
    (findUserByChannelPeer (db st') "telegram" Peers.digits_512)
  = Some (Some "Ana").
Proof. cbv zeta. split; [|split]; vm_compute; reflexivity. Qed.

Lemma register_link_failure_leaves_user_witness :
  exists u st',
    register Samples.sample_env
      {| args := Some "Ana Lopez"; ctx_channel := Some "telegram";
         senderId := Some Peers.long_peer_id; from := None |}
      Samples.registered
    = Thrown string_data_right_truncation st' /\
    lp_users (db st') = lp_users (db Samples.registered) ++ [u] /\
    first_name u = Some "Ana" /\
    lp_user_channels (db st') = lp_user_channels (db Samples.registered) /\
    forall uc, In uc (lp_user_channels (db st')) -> user_id uc <> id u.
Proof.
  destruct (register_link_failure_leaves_user Samples.sample_env
              {| args := Some "Ana Lopez"; ctx_channel := Some "telegram";
                 senderId := Some Peers.long_peer_id; from := None |}
              Samples.registered "Ana Lopez"
              constraints_hold_registered eq_refl)
    as (u & st' & H1 & H2 & H3 & _ & _ & H4 & H5);
    try (vm_compute; reflexivity);
    [discriminate|right; vm_compute; reflexivity|].
  exists u, st'.
  split; [exact H1|]. split; [exact H2|]. split; [exact H3|].
  split; [exact H4|exact H5].
Defined.

(** *** A failed initialisation *)

(** X15. A failed initialisation is kept and never tried again: once a
    command has found the store unreachable, the lookup hook adds nothing
    and [/whoami], [/verify] and [/register] answer that the identity
    service is unavailable, leaving the state alone, also when the store
    answers again. *)
Theorem identity_init_failure_is_final env0 ctx0 st env :
  schemaReady st = false ->
  reachable env0 = false ->
  let st1 := store_of (whoami env0 ctx0 st) in
  (forall hctx, before_agent_start env hctx st1 = (None, st1)) /\
  (forall ctx,
     whoami env ctx st1 = Returned {| text := service_unavailable |} st1) /\
  (forall config ctx a, args ctx = Some a -> trim a <> EmptyString ->
     verify (Some config) env ctx st1
     = Returned {| text := service_unavailable |} st1) /\
  (forall ctx a, args ctx = Some a -> trim a <> EmptyString ->
     register env ctx st1 = Returned {| text := service_unavailable |} st1).
Proof.
  intros Hs Hreach st1.
  assert (H1 : schemaReady st1 = false /\ initError st1 = true).
  { unfold st1, whoami, ensureReady. rewrite Hs, Hreach.
    destruct (initError st) eqn:E; cbn; auto. }
  destruct H1 as [Hs1 He1].
  pose proof (ensureReady_false env st1 Hs1 He1) as Hready.
  split; [|split; [|split]].
  - intros hctx. unfold before_agent_start. rewrite Hready. reflexivity.
  - intros ctx. unfold whoami. rewrite Hready. reflexivity.
  - intros config ctx a Ha Ht. unfold verify. rewrite Ha.
    cbn [option_map truthy_ostr nullish]. rewrite (truthy_trim a Ht).
    cbv zeta. change (negb true) with false. cbv beta iota.
    rewrite Hready. reflexivity.
  - intros ctx a Ha Ht. unfold register. rewrite Ha.
    cbn [option_map truthy_ostr nullish]. rewrite (truthy_trim a Ht).
    cbv zeta. rewrite (first_name_present a Ht).
    change (negb true) with false. cbv beta iota.
    rewrite Hready. reflexivity.
Qed.

Lemma identity_init_failure_is_final_witness :
  let st1 := store_of (whoami Peers.unreachable_env Peers.telegram_whoami
                         Samples.fresh) in
  before_agent_start Samples.sample_env (Some Peers.telegram_hook) st1
  = (None, st1) /\
  register Samples.sample_env Samples.whatsapp_register st1
  = Returned {| text := service_unavailable |} st1.
Proof.
  destruct (identity_init_failure_is_final Peers.unreachable_env
              Peers.telegram_whoami Samples.fresh Samples.sample_env
              eq_refl eq_refl) as (H1 & _ & _ & H2).
  split; [apply H1|].
  apply (H2 Samples.whatsapp_register "Ana Lopez" eq_refl). discriminate.
Defined.


(** *** [/verify] from a peer without a link *)

Lemma find_none_existsb {A} (f : A -> bool) (l : list A) :
  find f l = None -> existsb f l = false.
Proof.
  induction l as [|x l IH]; simpl; [reflexivity|].
  destruct (f x); [discriminate|exact IH].
Qed.

Lemma createUser_verified ext fn ln now d :
  fits_opt 128 fn = true -> fits_opt 128 ln = true -> fits 256 ext = true ->
  findUserByExternalId d ext = None ->
  createUser {| firstName := fn; lastName := ln; externalId := Some ext |}
             now d
  = Returned
      {| id := gen_random_uuid (uuid_seq d); external_id := Some ext;
         first_name := fn; last_name := ln;
         created_at := now; updated_at := now |}
      {| lp_users :=
           lp_users d ++
           [{| id := gen_random_uuid (uuid_seq d); external_id := Some ext;
               first_name := fn; last_name := ln;
               created_at := now; updated_at := now |}];
         lp_user_channels := lp_user_channels d;
         uuid_seq := S (uuid_seq d) |}.
Proof.
  intros Hf Hl He Hnone. unfold createUser, bind, get, put, ret.
  cbn [firstName lastName externalId].
  rewrite (varchar_opt_fits _ _ Hf), (varchar_opt_fits _ _ Hl).
  cbn [varchar_opt]. rewrite (varchar_fits _ _ He). cbn [option_map].
  unfold findUserByExternalId in Hnone.
  rewrite (find_none_existsb _ _ Hnone). reflexivity.
Qed.

(** The linking step for a peer without a link: the user of the external
    id is found or created, and one link row is appended. *)
Lemma linkVerifiedIdentity_unlinked env v c p st :
  constraints_hold (db st) ->
  findUserByChannelPeer (db st) c p = None ->
  fits 50 c = true -> fits 512 p = true ->
  fits 256 (Jwt.externalId v) = true ->
  fits_opt 128 (Jwt.firstName v) = true ->
  fits_opt 128 (Jwt.lastName v) = true ->
  exists u k,
    let uc := {| link_id := gen_random_uuid k; user_id := id u; channel := c;
                 channel_peer_id := p; linked_at := dbNow env |} in
    let users' := match findUserByExternalId (db st) (Jwt.externalId v) with
                  | Some _ => lp_users (db st)
                  | None => lp_users (db st) ++ [u]
                  end in
    let d' := {| lp_users := users';
                 lp_user_channels := lp_user_channels (db st) ++ [uc];
                 uuid_seq := S k |} in
    linkVerifiedIdentity env v c p st
    = Returned {| text := verified_text u v (listUserChannels d' (id u)) |}
               (with_db st d') /\
    In u users' /\
    external_id u = Some (Jwt.externalId v) /\
    match findUserByExternalId (db st) (Jwt.externalId v) with
    | Some u0 => u = u0
    | None => first_name u = Jwt.firstName v /\
              last_name u = Jwt.lastName v /\
              id u = gen_random_uuid (uuid_seq (db st))
    end.
Proof.
  intros Hc Hnone Hch Hp He Hf Hl.
  pose proof (lookup_none_find _ _ _ Hc Hnone) as Hfind.
  unfold linkVerifiedIdentity.
  unfold bind at 1. unfold query at 1. rewrite Hnone. cbv iota.
  unfold bind at 1. unfold query at 1.
  destruct (findUserByExternalId (db st) (Jwt.externalId v)) as [u0|] eqn:E.
  - assert (Hin : In u0 (lp_users (db st))).
    { unfold findUserByExternalId in E. apply find_some in E as [H _].
      exact H. }
    assert (Hext : external_id u0 = Some (Jwt.externalId v)).
    { unfold findUserByExternalId in E. apply find_some in E as [_ H].
      apply has_external_id_iff in H. exact H. }
    exists u0, (uuid_seq (db st)). cbv zeta.
    split; [|split; [exact Hin|split; [exact Hext|reflexivity]]].
    unfold bind, ret, run, query.
    rewrite (linkChannelToUser_new (id u0) c p (dbNow env) (db st) Hch Hp);
      [reflexivity| |exact Hfind].
    apply existsb_exists. exists u0. split; [exact Hin|].
    apply String.eqb_refl.
  - exists {| id := gen_random_uuid (uuid_seq (db st));
              external_id := Some (Jwt.externalId v);
              first_name := Jwt.firstName v; last_name := Jwt.lastName v;
              created_at := dbNow env; updated_at := dbNow env |},
           (S (uuid_seq (db st))). cbv zeta.
    split; [|split; [apply in_or_app; right; left; reflexivity
                    |split; [reflexivity|auto]]].
    unfold bind, ret, run, query.
    rewrite (createUser_verified _ _ _ _ _ Hf Hl He E).
    cbn [with_db db id].
    rewrite (linkChannelToUser_new _ c p (dbNow env) _ Hch Hp);
      cbn [lp_users lp_user_channels uuid_seq].
    + reflexivity.
    + exact (existsb_last_id (lp_users (db st))
               {| id := gen_random_uuid (uuid_seq (db st));
                  external_id := Some (Jwt.externalId v);
                  first_name := Jwt.firstName v; last_name := Jwt.lastName v;
                  created_at := dbNow env; updated_at := dbNow env |}).
    + exact Hfind.
Qed.

(** X16. [/verify] with an accepted token, from a peer without a link and
    with values that fit their columns, links the peer to the user of the
    token's external id: the user that holds it already, so that a
    second channel of a person joins the first one and no user is added,
    or else a new user carrying the names of the token. The lookup of the
    peer then gives that user, verified. *)
Theorem verify_from_unlinked_peer config env ctx st v :
  let token := nullish (option_map trim (args ctx)) EmptyString in
  let channel := nullish (ctx_channel ctx) "unknown" in
  let peerId := nullish (senderId ctx) (nullish (from ctx) "unknown") in
  constraints_hold (db st) ->
  truthy_ostr (option_map trim (args ctx)) = true ->
  fst (ensureReady env st) = true ->
  verifyToken (fetch env) token config (nowMs env) = Returns (Some v) ->
  findUserByChannelPeer (db st) channel peerId = None ->
  fits 50 channel = true -> fits 512 peerId = true ->
  fits 256 (Jwt.externalId v) = true ->
  fits_opt 128 (Jwt.firstName v) = true ->
  fits_opt 128 (Jwt.lastName v) = true ->
  exists u uc st',
    verify (Some config) env ctx st
    = Returned
        {| text := verified_text u v (listUserChannels (db st') (id u)) |}
        st' /\
    external_id u = Some (Jwt.externalId v) /\
    lp_user_channels (db st') = lp_user_channels (db st) ++ [uc] /\
    user_id uc = id u /\ IdentityDb.channel uc = channel /\
    channel_peer_id uc = peerId /\
    findUserByChannelPeer (db st') channel peerId
    = Some {| user := u; resolved_channel := channel;
              resolved_peer_id := peerId; verified := true |} /\
    match findUserByExternalId (db st) (Jwt.externalId v) with
    | Some u0 => u = u0 /\ lp_users (db st') = lp_users (db st)
    | None => lp_users (db st') = lp_users (db st) ++ [u] /\
              first_name u = Jwt.firstName v /\
              last_name u = Jwt.lastName v
    end.
Proof.
  intros token channel peerId Hc Hargs Hr Hv Hnone Hch Hp He Hf Hl.
  pose proof (InvariantFacts.verify_keeps (Some config) env ctx st Hc) as Hc'.
  pose proof (verify_reaches_linking config env ctx st v Hargs Hr Hv) as Hrun.
  fold channel peerId in Hrun.
  pose proof (ensureReady_db env st) as Hdb.
  set (st1 := snd (ensureReady env st)) in *.
  rewrite <- Hdb in Hc, Hnone.
  destruct (linkVerifiedIdentity_unlinked env v channel peerId st1
              Hc Hnone Hch Hp He Hf Hl)
    as (u & k & Hlink & Hin & Hext & Hcase).
  cbv zeta in Hlink. rewrite Hlink in Hrun.
  rewrite Hrun in Hc'. cbn [store_of] in Hc'.
  rewrite Hdb in *.
  exists u,
    {| link_id := gen_random_uuid k; user_id := id u; channel := channel;
       channel_peer_id := peerId; linked_at := dbNow env |}.
  match type of Hrun with _ = Returned _ ?s => exists s end.
  split; [exact Hrun|].
  unfold with_db in *. cbn [db lp_users lp_user_channels] in *.
  split; [exact Hext|]. split; [reflexivity|].
  cbn [user_id IdentityDb.channel channel_peer_id].
  do 3 (split; [reflexivity|]).
  split.
  - rewrite (findUserByChannelPeer_linked _ Hc' channel peerId u
               {| link_id := gen_random_uuid k; user_id := id u;
                  channel := channel; channel_peer_id := peerId;
                  linked_at := dbNow env |}).
    + cbn [IdentityDb.channel channel_peer_id]. rewrite Hext. reflexivity.
    + exact Hin.
    + cbn [lp_user_channels]. apply in_or_app. right. left. reflexivity.
    + unfold same_peer. cbn [IdentityDb.channel channel_peer_id].
      rewrite !String.eqb_refl. reflexivity.
    + reflexivity.
  - destruct (findUserByExternalId (db st) (Jwt.externalId v)) as [u0|].
    + split; [exact Hcase|reflexivity].
    + destruct Hcase as (H1 & H2 & _). auto.
Qed.

Lemma verify_from_unlinked_peer_witness :
  exists u uc st',
    verify (Some Samples.hs256) Samples.sample_env Peers.telegram_verify
           Peers.verified_on_whatsapp
    = Returned
        {| text := verified_text u (identityOfClaims Samples.claims_sub "ext-42")
                     (listUserChannels (db st') (id u)) |} st' /\
    findUserByExternalId (db Peers.verified_on_whatsapp) "ext-42" = Some u /\
    lp_users (db st') = lp_users (db Peers.verified_on_whatsapp) /\
    lp_user_channels (db st')
    = lp_user_channels (db Peers.verified_on_whatsapp) ++ [uc] /\
    user_id uc = id u /\
    findUserByChannelPeer (db st') "telegram" "tg-77"
    = Some {| user := u; resolved_channel := "telegram";
              resolved_peer_id := "tg-77"; verified := true |}.
Proof.
  pose proof constraints_hold_verified_on_whatsapp as Hc.
  assert (Hv : verifyToken (fetch Samples.sample_env)
                 (nullish (option_map trim (args Peers.telegram_verify))
                          EmptyString)
                 Samples.hs256 (nowMs Samples.sample_env)
               = Returns (Some (identityOfClaims Samples.claims_sub "ext-42"))).
  { vm_compute. reflexivity. }
  destruct (verify_from_unlinked_peer Samples.hs256 Samples.sample_env
              Peers.telegram_verify Peers.verified_on_whatsapp _ Hc
              eq_refl eq_refl Hv)
    as (u & uc & st' & H1 & _ & H3 & H4 & _ & _ & H7 & H8);
    try (vm_compute; reflexivity).
  destruct (findUserByExternalId (db Peers.verified_on_whatsapp)
              (Jwt.externalId (identityOfClaims Samples.claims_sub "ext-42")))
    as [u0|] eqn:E; [|vm_compute in E; discriminate E].
  destruct H8 as [-> H8].
  exists u0, uc, st'.
  split; [exact H1|]. split; [exact E|]. split; [exact H8|].
  split; [exact H3|]. split; [exact H4|exact H7].
Defined.


(** *** The channels of a user and [/whoami] *)

Lemma insert_by_linked_at_perm uc l :
  Permutation (insert_by_linked_at uc l) (uc :: l).
Proof.
  induction l as [|x rest IH]; simpl; [apply Permutation_refl|].
  destruct (linked_at uc <=? linked_at x)%Z; [apply Permutation_refl|].
  apply perm_trans with (x :: uc :: rest);
    [apply perm_skip, IH|apply perm_swap].
Qed.

Lemma insert_by_linked_at_sorted uc l :
  Sorted (fun a b => (linked_at a <= linked_at b)%Z) l ->
  Sorted (fun a b => (linked_at a <= linked_at b)%Z) (insert_by_linked_at uc l).
Proof.
  induction l as [|x rest IH]; simpl; intros Hs.
  - constructor; constructor.
  - destruct (linked_at uc <=? linked_at x)%Z eqn:E.
    + apply Z.leb_le in E. constructor; [exact Hs|].
      constructor. exact E.
    + apply Z.leb_gt in E. inversion Hs as [|? ? Hrest Hhd]; subst.
      constructor; [apply IH, Hrest|].
      destruct rest as [|y rest']; simpl.
      * constructor. lia.
      * destruct (linked_at uc <=? linked_at y)%Z.
        -- constructor. lia.
        -- inversion Hhd; subst. constructor. assumption.
Qed.

Lemma listUserChannels_perm d userId :
  Permutation (listUserChannels d userId)
    (filter (fun uc => String.eqb (user_id uc) userId) (lp_user_channels d)).
Proof.
  unfold listUserChannels.
  induction (filter _ (lp_user_channels d)) as [|x rest IH]; simpl;
    [apply Permutation_refl|].
  apply perm_trans with (x :: fold_right insert_by_linked_at [] rest);
    [apply insert_by_linked_at_perm|apply perm_skip, IH].
Qed.

Lemma listUserChannels_members d userId uc :
  In uc (lp_user_channels d) /\ user_id uc = userId ->
  In uc (listUserChannels d userId).
Proof.
  intros [Hin Hid].
  apply (Permutation_in _ (Permutation_sym (listUserChannels_perm d userId))).
  apply filter_In. split; [exact Hin|]. apply String.eqb_eq. exact Hid.
Qed.

(** X17. [listUserChannels] returns the link rows of the user, each one
    once and no other row, in ascending order of [linked_at]. *)
Theorem listUserChannels_sorted_links d userId :
  Permutation (listUserChannels d userId)
    (filter (fun uc => String.eqb (user_id uc) userId) (lp_user_channels d)) /\
  Sorted (fun a b => (linked_at a <= linked_at b)%Z)
         (listUserChannels d userId) /\
  (forall uc, In uc (listUserChannels d userId) <->
              In uc (lp_user_channels d) /\ user_id uc = userId).
Proof.
  split; [apply listUserChannels_perm|]. split.
  - unfold listUserChannels.
    induction (filter _ (lp_user_channels d)) as [|x rest IH]; simpl;
      [constructor|].
    apply insert_by_linked_at_sorted, IH.
  - intros uc. split; [|apply listUserChannels_members].
    intros H. apply (Permutation_in _ (listUserChannels_perm d userId)) in H.
    apply filter_In in H as [Hin Hid]. apply String.eqb_eq in Hid. auto.
Qed.


Lemma lookup_verified d c p l :
  findUserByChannelPeer d c p = Some l ->
  verified l = is_some (external_id (user l)).
Proof.
  unfold findUserByChannelPeer. intros H.
  assert (Hin : In l (flat_map
            (fun u => map (fun uc => {| user := u;
                              resolved_channel := IdentityDb.channel uc;
                              resolved_peer_id := channel_peer_id uc;
                              verified := is_some (external_id u) |})
                        (filter (fun uc => String.eqb (user_id uc) (id u)
                                           && same_peer c p uc)
                                (lp_user_channels d)))
            (lp_users d))).
  { destruct (flat_map _ _) as [|x xs]; [discriminate H|].
    injection H as ->. left. reflexivity. }
  apply in_flat_map in Hin as (u & _ & Hin).
  apply in_map_iff in Hin as (uc & <- & _). reflexivity.
Qed.






Lemma found_user_exists d x u :
  findUserByExternalId d x = Some u ->
  existsb (fun y => String.eqb (id y) (id u)) (lp_users d) = true.
Proof.
  unfold findUserByExternalId. intros H. apply find_some in H as [Hin _].
  apply existsb_exists. exists u. split; [exact Hin|apply String.eqb_refl].
Qed.

(** *** What [/verify] establishes *)

(** X28. Whenever [/verify] returns after its token was accepted, for a
    channel, a peer id and an external id that fit their columns (50, 512
    and 256 characters), the peer is linked to a user that holds the
    external id of the token, the lookup of the peer reports it as
    verified, and no other user holds that external id. *)
Theorem verify_links_peer_to_token_user config env ctx st v r st' :
  let token := nullish (option_map trim (args ctx)) EmptyString in
  let channel := nullish (ctx_channel ctx) "unknown" in
  let peerId := nullish (senderId ctx) (nullish (from ctx) "unknown") in
  constraints_hold (db st) ->
  truthy_ostr (option_map trim (args ctx)) = true ->
  fst (ensureReady env st) = true ->
  verifyToken (fetch env) token config (nowMs env) = Returns (Some v) ->
  fits 50 channel = true -> fits 512 peerId = true ->
  fits 256 (Jwt.externalId v) = true ->
  verify (Some config) env ctx st = Returned r st' ->
  exists l,
    findUserByChannelPeer (db st') channel peerId = Some l /\
    external_id (user l) = Some (Jwt.externalId v) /\
    verified l = true /\
    users_with_external_id (db st') (Jwt.externalId v) = [user l].
Proof.
  intros token channel peerId Hc Hargs Hr Hv Hfc Hfp Hfe Hrun.
  rewrite (verify_reaches_linking config env ctx st v Hargs Hr Hv) in Hrun.
  fold channel peerId in Hrun.
  pose proof (ensureReady_db env st) as Hdb.
  set (st1 := snd (ensureReady env st)) in *.
  rewrite <- Hdb in Hc.
  destruct (linkVerifiedIdentity_returned env v channel peerId st1 r st'
              Hc Hfc Hfp Hfe Hrun) as (_ & _ & Hc' & Hcase).
  destruct Hcase as [(l & Hl & Hext & -> & _)|(u & Hlinked & Hext & _)].
  - exists l. split; [exact Hl|]. split; [exact Hext|].
    split.
    + rewrite (lookup_verified _ _ _ _ Hl), Hext. reflexivity.
    + destruct (findUserByChannelPeer_some _ _ _ _ Hl) as [Hin _].
      exact (users_with_external_id_unique _ Hc' _ _ Hin Hext).
  - destruct Hlinked as (Hin & uc & Huc & Hsame & Hid).
    eexists. split.
    + exact (findUserByChannelPeer_linked _ Hc' channel peerId u uc
               Hin Huc Hsame Hid).
    + cbn [user verified]. split; [exact Hext|].
      split; [rewrite Hext; reflexivity|].
      exact (users_with_external_id_unique _ Hc' _ _ Hin Hext).
Qed.

Lemma verify_links_peer_to_token_user_witness :
  exists l,
    findUserByChannelPeer (db Peers.verified_on_whatsapp)
      "whatsapp" "+15551230000" = Some l /\
    external_id (user l) = Some "ext-42" /\
    verified l = true /\
    users_with_external_id (db Peers.verified_on_whatsapp) "ext-42"
    = [user l].
Proof.
  assert (Hv : verifyToken (fetch Samples.sample_env)
                 (nullish (option_map trim (args Samples.whatsapp_verify))
                          EmptyString)
                 Samples.hs256 (nowMs Samples.sample_env)
               = Returns (Some (identityOfClaims Samples.claims_sub "ext-42")))
    by (vm_compute; reflexivity).
  assert (Hrun : exists r,
             verify (Some Samples.hs256) Samples.sample_env
               Samples.whatsapp_verify Samples.registered
             = Returned r Peers.verified_on_whatsapp)
    by (vm_compute; eexists; reflexivity).
  destruct Hrun as [r Hrun].
  exact (verify_links_peer_to_token_user Samples.hs256 Samples.sample_env
           Samples.whatsapp_verify Samples.registered _ r
           Peers.verified_on_whatsapp constraints_hold_registered
           eq_refl eq_refl Hv eq_refl eq_refl eq_refl Hrun).
Defined.


(** *** Verifying twice *)



End IdentityPluginFacts.

(** ** More on token verification *)

Module JwtMoreFacts.
Import Js Json NodeCrypto Jwt DisplayName JwtFacts.


(** *** The names of the verified identity *)

Lemma split_word w : word w = true -> split " " w = [w].
Proof.
  induction w as [|c rest IH]; simpl; intros H; [reflexivity|].
  apply andb_prop in H as [Hc Hrest].
  apply negb_true_iff in Hc. rewrite Hc, (IH Hrest). reflexivity.
Qed.

Lemma split_word_app w t :
  word w = true -> split " " (w ++ String " " t) = w :: split " " t.
Proof.
  induction w as [|c rest IH]; simpl; intros H; [reflexivity|].
  apply andb_prop in H as [Hc Hrest].
  apply negb_true_iff in Hc. rewrite Hc, (IH Hrest). reflexivity.
Qed.

(** X21. The names of a verified identity: [given_name] and [family_name]
    are taken when present. A missing one is read off [name], split at
    its first space: the first word is the first name and everything
    after that space, further spaces included, is the last name, or no
    last name when nothing follows. Without [name] the missing one stays
    undefined. *)
Theorem identityOfClaims_names decoded subject :
  let v := identityOfClaims decoded subject in
  externalId v = subject /\
  (forall g, given_name decoded = Some g -> firstName v = Some g) /\
  (forall f, family_name decoded = Some f -> lastName v = Some f) /\
  (forall first rest,
     name decoded = Some (first ++ " " ++ rest) -> word first = true ->
     (given_name decoded = None -> firstName v = Some first) /\
     (family_name decoded = None ->
      lastName v = if truthy_str rest then Some rest else None)) /\
  (forall w,
     name decoded = Some w -> word w = true ->
     (given_name decoded = None -> firstName v = Some w) /\
     (family_name decoded = None -> lastName v = None)) /\
  (name decoded = None ->
     (given_name decoded = None -> firstName v = None) /\
     (family_name decoded = None -> lastName v = None)).
Proof.
  cbv zeta. unfold identityOfClaims, identityOf, externalId, nameParts_of.
  cbn [externalIdValue id_text firstName lastName].
  split; [reflexivity|].
  split; [intros g ->; reflexivity|].
  split; [intros f ->; reflexivity|].
  split; [|split].
  - intros first rest Hn Hw. rewrite Hn.
    change (first ++ " " ++ rest) with (first ++ String " " rest).
    rewrite (split_word_app first rest Hw).
    split; intros ->; [reflexivity|].
    change (slice 1 (first :: split " " rest)) with (split " " rest).
    rewrite (SessionKeyFormsFacts.join_split " " rest). reflexivity.
  - intros w Hn Hw. rewrite Hn, (split_word w Hw).
    split; intros ->; reflexivity.
  - intros Hn. rewrite Hn. split; intros ->; reflexivity.
Qed.

End JwtMoreFacts.

(** ** The ledger: upserts, hooks and the query of conversations *)

Module LedgerMoreFacts.
Import Js Json Pg Ledger LedgerQueries PgFacts.
Local Open Scope list_scope.

(** *** Upsert and lookup *)

Lemma find_replaced k r' (l : list PgSessionRow) :
  session_key r' = k ->
  find (fun r => String.eqb (session_key r) k)
       (map (fun x => if String.eqb (session_key x) k then r' else x) l)
  = option_map (fun _ => r') (find (fun r => String.eqb (session_key r) k) l).
Proof.
  intros Hk. induction l as [|x l IH]; simpl; [reflexivity|].
  destruct (String.eqb (session_key x) k) eqn:E.
  - rewrite Hk, String.eqb_refl. reflexivity.
  - rewrite E. exact IH.
Qed.

Lemma find_other_replaced k k' r' (l : list PgSessionRow) :
  session_key r' = k -> k' <> k ->
  find (fun r => String.eqb (session_key r) k')
       (map (fun x => if String.eqb (session_key x) k then r' else x) l)
  = find (fun r => String.eqb (session_key r) k') l.
Proof.
  intros Hk Hne. apply not_eq_sym in Hne. apply String.eqb_neq in Hne.
  induction l as [|x l IH]; simpl; [reflexivity|].
  destruct (String.eqb (session_key x) k) eqn:E.
  - apply String.eqb_eq in E. rewrite Hk, E, Hne. exact IH.
  - destruct (String.eqb (session_key x) k'); [reflexivity|exact IH].
Qed.

Lemma find_appended {A} (f : A -> bool) (l : list A) (x : A) :
  find f (l ++ [x]) = match find f l with
                      | Some y => Some y
                      | None => if f x then Some x else None
                      end.
Proof.
  induction l as [|y l IH]; simpl; [reflexivity|].
  destruct (f y); [reflexivity|exact IH].
Qed.

(** What a successful upsert returns and leaves, in terms of the key as
    it is stored. *)
Lemma upsertConversation_returned opts now db r db' :
  upsertConversation opts now db = Returned r db' ->
  varchar 512 (sessionKey opts) = Some (session_key r) /\
  conversation db' (session_key r) = Some r /\
  (forall k, k <> session_key r -> conversation db' k = conversation db k) /\
  lp_messages db' = lp_messages db /\
  last_message_at r = nullish (lastMessageAt opts) now /\
  match conversation db (session_key r) with
  | Some old =>
      id r = id old /\ channel r = channel old /\
      started_at r = started_at old /\
      message_count r = (message_count old + 1)%Z /\
      List.length (lp_conversations db') = List.length (lp_conversations db)
  | None =>
      id r = gen_random_uuid (uuid_seq db) /\
      varchar 50 (opt_channel opts) = Some (channel r) /\
      started_at r = nullish (startedAt opts) now /\
      message_count r = 0%Z /\
      lp_conversations db' = lp_conversations db ++ [r]
  end.
Proof.
  unfold upsertConversation, conversation, bind, get, put, ret, throw.
  destruct (varchar 512 (sessionKey opts)) as [key|]; [|discriminate].
  destruct (varchar 50 (opt_channel opts)) as [chan|]; [|discriminate].
  destruct (find _ (lp_conversations db)) as [old|] eqn:F.
  - destruct (int4_max <? _)%Z; [discriminate|].
    intros H. injection H as <- <-. cbn [lp_conversations lp_messages].
    assert (Hkey : session_key old = key).
    { apply find_some in F as [_ H]. apply String.eqb_eq in H. exact H. }
    cbn [on_conflict_update session_key]. rewrite Hkey.
    split; [reflexivity|]. split.
    { rewrite find_replaced by exact Hkey. rewrite F. reflexivity. }
    split.
    { intros k Hk. apply find_other_replaced; [exact Hkey|exact Hk]. }
    split; [reflexivity|]. split; [reflexivity|].
    rewrite F.
    cbn [on_conflict_update id channel started_at message_count].
    do 4 (split; [reflexivity|]). apply length_map.
  - intros H. injection H as <- <-. cbn [lp_conversations lp_messages].
    cbn [session_key].
    split; [reflexivity|]. split.
    { rewrite find_appended, F. cbn [session_key].
      rewrite String.eqb_refl. reflexivity. }
    split.
    { intros k Hk. rewrite find_appended. cbn [session_key].
      apply not_eq_sym in Hk. apply String.eqb_neq in Hk. rewrite Hk.
      destruct (find (fun r => String.eqb (session_key r) k)
                     (lp_conversations db)); reflexivity. }
    split; [reflexivity|]. split; [reflexivity|].
    rewrite F.
    cbn [id channel started_at message_count session_key last_message_at].
    repeat (split; [reflexivity|]). reflexivity.
Qed.

(** X22. A successful upsert and the lookup by session key. The key of
    the returned row is the key given as its column stores it: the key
    itself when it has at most 512 characters, and the key cut to 512
    characters when those in excess are spaces. The returned row is the
    row of that key afterwards, the rows of other keys and all messages
    are untouched. For a key that had a row, the row keeps its id, channel
    and start time, whatever the options say, and only its last-message
    time and counter change; otherwise a row with counter 0 is
    appended. *)
Theorem upsertConversation_lookup opts now db r db' :
  upsertConversation opts now db = Returned r db' ->
  varchar 512 (sessionKey opts) = Some (session_key r) /\
  (fits 512 (sessionKey opts) = true -> session_key r = sessionKey opts) /\
  conversation db' (session_key r) = Some r /\
  (forall k, k <> session_key r -> conversation db' k = conversation db k) /\
  lp_messages db' = lp_messages db /\
  last_message_at r = nullish (lastMessageAt opts) now /\
  match conversation db (session_key r) with
  | Some old =>
      id r = id old /\ channel r = channel old /\
      started_at r = started_at old /\
      message_count r = (message_count old + 1)%Z /\
      List.length (lp_conversations db') = List.length (lp_conversations db)
  | None =>
      id r = gen_random_uuid (uuid_seq db) /\
      varchar 50 (opt_channel opts) = Some (channel r) /\
      started_at r = nullish (startedAt opts) now /\
      message_count r = 0%Z /\
      lp_conversations db' = lp_conversations db ++ [r]
  end.
Proof.
  intros H.
  destruct (upsertConversation_returned opts now db r db' H)
    as (Hkey & Hrest).
  split; [exact Hkey|]. split; [|exact Hrest].
  intros Hfit. rewrite (varchar_fits _ _ Hfit) in Hkey.
  injection Hkey as Hkey. symmetry. exact Hkey.
Qed.

(** An upsert on the key of a conversation that a hook created, and an
    upsert of a key of 512 digits and a space: the row holds the digits. *)
Lemma upsertConversation_lookup_witness :
  let opts := {| sessionKey := "agent:main:telegram:user123";
                 opt_channel := "other"; startedAt := Some 5%Z;
                 lastMessageAt := None |} in
  let db := before_agent_start (Some "agent:main:telegram:user123")
              (Some "hi") 1000 empty in
  (exists r db',
     upsertConversation opts 2000 db = Returned r db' /\
     conversation db' "agent:main:telegram:user123" = Some r /\
     channel r = "gateway" /\ started_at r = 1000%Z /\
     last_message_at r = 2000%Z /\ message_count r = 1%Z) /\
  (exists r db',
     upsertConversation {| sessionKey := LedgerSamples.padded_key;
                           opt_channel := "gateway"; startedAt := None;
                           lastMessageAt := None |} 2000 empty
     = Returned r db' /\
     session_key r = LedgerSamples.key_512 /\
     conversation db' LedgerSamples.key_512 = Some r /\
     conversation db' LedgerSamples.padded_key = None).
Proof.
  cbv zeta. split.
  - destruct (upsertConversation
                {| sessionKey := "agent:main:telegram:user123";
                   opt_channel := "other"; startedAt := Some 5%Z;
                   lastMessageAt := None |} 2000
                (before_agent_start (Some "agent:main:telegram:user123")
                   (Some "hi") 1000 empty)) as [r db'|e db'] eqn:E;
      [|vm_compute in E; discriminate E].
    exists r, db'. split; [reflexivity|].
    destruct (upsertConversation_lookup _ _ _ _ _ E)
      as (_ & Hk & H1 & _ & _ & H5 & H6).
    specialize (Hk eq_refl). cbn [sessionKey] in Hk. rewrite Hk in H1, H6.
    split; [exact H1|].
    assert (Hold : conversation
                     (before_agent_start (Some "agent:main:telegram:user123")
                        (Some "hi") 1000 empty)
                     "agent:main:telegram:user123"
                   = Some {| id := "uuid-0";
                             session_key := "agent:main:telegram:user123";
                             channel := "gateway"; started_at := 1000;
                             last_message_at := 1000; message_count := 0 |})
      by (vm_compute; reflexivity).
    rewrite Hold in H6.
    destruct H6 as (_ & H7 & H8 & H9 & _).
    split; [exact H7|]. split; [exact H8|]. split; [exact H5|exact H9].
  - destruct (upsertConversation
                {| sessionKey := LedgerSamples.padded_key;
                   opt_channel := "gateway"; startedAt := None;
                   lastMessageAt := None |} 2000 empty)
      as [r db'|e db'] eqn:E; [|vm_compute in E; discriminate E].
    exists r, db'. split; [reflexivity|].
    destruct (upsertConversation_lookup _ _ _ _ _ E)
      as (Hk & _ & H1 & Hother & _).
    cbn [sessionKey] in Hk.
    assert (Hv : varchar 512 LedgerSamples.padded_key
                 = Some LedgerSamples.key_512) by (vm_compute; reflexivity).
    rewrite Hv in Hk. injection Hk as Hk. rewrite <- Hk in H1, Hother.
    split; [symmetry; exact Hk|]. split; [exact H1|].
    rewrite Hother; [reflexivity|].
    vm_compute. discriminate.
Defined.


(** *** What the hooks store *)

Lemma upsertConversation_succeeds key now db :
  fits 512 key = true ->
  (forall old, conversation db key = Some old ->
     (message_count old < int4_max)%Z) ->
  exists conv db1,
    upsertConversation {| sessionKey := key; opt_channel := "gateway";
                          startedAt := None; lastMessageAt := Some now |}
                       now db
    = Returned conv db1.
Proof.
  intros Hk Hcount.
  unfold upsertConversation, bind, get, put, ret, throw.
  cbn [sessionKey opt_channel startedAt lastMessageAt nullish].
  rewrite (varchar_fits _ _ Hk).
  change (varchar 50 "gateway") with (Some "gateway").
  unfold conversation in Hcount.
  destruct (find _ (lp_conversations db)) as [old|].
  - specialize (Hcount old eq_refl).
    cbn [on_conflict_update message_count].
    replace (int4_max <? message_count old + 1)%Z with false
      by (symmetry; apply Z.ltb_ge; lia).
    eexists. eexists. reflexivity.
  - eexists. eexists. reflexivity.
Qed.

Lemma insertMessage_attached convId role content now db :
  fits 20 role = true ->
  existsb (fun r => String.eqb (id r) convId) (lp_conversations db) = true ->
  insertMessage {| conversationId := convId; opt_role := role;
                   opt_content := content; opt_metadata := None |} now db
  = Returned
      {| message_id := gen_random_uuid (uuid_seq db);
         conversation_id := convId; role := role; content := content;
         created_at := now; metadata := JObj [] |}
      {| lp_conversations := lp_conversations db;
         lp_messages :=
           lp_messages db ++
           [{| message_id := gen_random_uuid (uuid_seq db);
               conversation_id := convId; role := role; content := content;
               created_at := now; metadata := JObj [] |}];
         uuid_seq := S (uuid_seq db) |}.
Proof.
  intros Hr Hex. unfold insertMessage, bind, get, put, ret, throw.
  cbn [conversationId opt_role opt_content opt_metadata nullish].
  rewrite (varchar_fits _ _ Hr), Hex. reflexivity.
Qed.

(** The two statements that every hook runs to store a message. *)
Lemma persist_message key role content now db :
  fits 512 key = true -> fits 20 role = true ->
  (forall old, conversation db key = Some old ->
     (message_count old < int4_max)%Z) ->
  exists conv m db1,
    upsertConversation {| sessionKey := key; opt_channel := "gateway";
                          startedAt := None; lastMessageAt := Some now |}
                       now db
    = Returned conv db1 /\
    insertMessage {| conversationId := id conv; opt_role := role;
                     opt_content := content; opt_metadata := None |} now db1
    = Returned m {| lp_conversations := lp_conversations db1;
                    lp_messages := lp_messages db ++ [m];
                    uuid_seq := S (uuid_seq db1) |} /\
    conversation db1 key = Some conv /\
    (forall k, k <> key -> conversation db1 k = conversation db k) /\
    conversation_id m = id conv /\ Ledger.role m = role /\
    Ledger.content m = content /\ created_at m = now /\
    message_count conv = match conversation db key with
                         | Some old => (message_count old + 1)%Z
                         | None => 0%Z
                         end /\
    id conv = match conversation db key with
              | Some old => id old
              | None => gen_random_uuid (uuid_seq db)
              end.
Proof.
  intros Hk Hr Hcount.
  destruct (upsertConversation_succeeds key now db Hk Hcount)
    as (conv & db1 & Hup).
  destruct (upsertConversation_returned _ _ _ _ _ Hup)
    as (Hkey & Hconv & Hother & Hmsgs & _ & Hold).
  cbn [sessionKey] in Hkey. rewrite (varchar_fits _ _ Hk) in Hkey.
  injection Hkey as Hkey. rewrite <- Hkey in Hconv, Hother, Hold.
  assert (Hex : existsb (fun r => String.eqb (id r) (id conv))
                        (lp_conversations db1) = true).
  { unfold conversation in Hconv. apply find_some in Hconv as [Hin _].
    apply existsb_exists. exists conv.
    split; [exact Hin|apply String.eqb_refl]. }
  pose proof (insertMessage_attached (id conv) role content now db1 Hr Hex)
    as Hins.
  rewrite Hmsgs in Hins.
  eexists. eexists. eexists.
  split; [exact Hup|]. split; [exact Hins|].
  split; [exact Hconv|]. split; [exact Hother|].
  cbn [conversation_id Ledger.role Ledger.content created_at].
  do 4 (split; [reflexivity|]).
  destruct (conversation db key) as [old|].
  - destruct Hold as (Hid & _ & _ & H & _). split; [exact H|exact Hid].
  - destruct Hold as (Hid & _ & _ & H & _). split; [exact H|exact Hid].
Qed.



(** X24. [agent_end] stores the last message of role [assistant] of the
    run, and only that one, as an [assistant] message of the conversation
    of the key: its content when that is a string, and else the text that
    [JSON.stringify] gives for it, for a key and a text without NUL
    character. When there is no such text (the entry has no content), or
    when the run has no message of role [assistant], no message is
    added. *)
Theorem agent_end_stores_last_assistant sessionKey messages now db :
  let key := nullish sessionKey "unknown" in
  let db' := agent_end sessionKey messages now db in
  fits 512 key = true ->
  (forall old, conversation db key = Some old ->
     (message_count old < int4_max)%Z) ->
  (forall pre m post,
     messages = pre ++ m :: post ->
     msg_role m = Some "assistant" ->
     (forall x, In x post -> msg_role x <> Some "assistant") ->
     (forall text, content_text (msg_content m) = Some text ->
        no_nul key = true -> no_nul text = true ->
        exists conv row,
          conversation db' key = Some conv /\
          lp_messages db' = lp_messages db ++ [row] /\
          conversation_id row = id conv /\ role row = "assistant" /\
          content row = text /\ created_at row = now) /\
     (content_text (msg_content m) = None ->
      lp_messages db' = lp_messages db)) /\
  ((forall x, In x messages -> msg_role x <> Some "assistant") ->
   lp_messages db' = lp_messages db).
Proof.
  intros key db' Hk Hcount.
  assert (Hskip : forall l rest,
            (forall x, In x l -> msg_role x <> Some "assistant") ->
            find (fun m => match msg_role m with
                           | Some r => String.eqb r "assistant"
                           | None => false
                           end) (l ++ rest)
            = find (fun m => match msg_role m with
                             | Some r => String.eqb r "assistant"
                             | None => false
                             end) rest).
  { induction l as [|x l IH]; intros rest Hl; [reflexivity|].
    simpl. destruct (msg_role x) as [r|] eqn:E.
    - destruct (String.eqb r "assistant") eqn:Er.
      + apply String.eqb_eq in Er. subst r.
        exfalso. apply (Hl x); [left; reflexivity|exact E].
      + apply IH. intros y Hy. apply Hl. right. exact Hy.
    - apply IH. intros y Hy. apply Hl. right. exact Hy. }
  split.
  - intros pre m post Hm Hrole Hpost. split.
    + intros text Htext _ _.
      destruct (persist_message key "assistant" text now db
                  Hk eq_refl Hcount)
        as (conv & row & db1 & Hup & Hins & Hconv & _ & H1 & H2 & H3 & H4 & _).
      assert (Hdb' : db' = {| lp_conversations := lp_conversations db1;
                              lp_messages := lp_messages db ++ [row];
                              uuid_seq := S (uuid_seq db1) |}).
      { unfold db', agent_end, caught. fold key.
        unfold bind at 1. rewrite Hup. cbv zeta.
        rewrite Hm, rev_app_distr. cbn [rev]. rewrite <- app_assoc.
        rewrite Hskip.
        - cbn [app find]. rewrite Hrole. cbn [String.eqb Ascii.eqb Bool.eqb].
          rewrite Htext. unfold bind, ret. rewrite Hins. reflexivity.
        - intros x Hx. apply in_rev in Hx. exact (Hpost x Hx). }
      exists conv, row. rewrite Hdb'.
      split; [exact Hconv|]. split; [reflexivity|].
      split; [exact H1|]. split; [exact H2|]. split; [exact H3|exact H4].
    + intros Hnotext.
      destruct (upsertConversation_succeeds key now db Hk Hcount)
        as (conv & db1 & Hup).
      destruct (upsertConversation_returned _ _ _ _ _ Hup)
        as (_ & _ & _ & Hmsgs & _).
      unfold db', agent_end, caught. fold key.
      unfold bind at 1. rewrite Hup. cbv zeta.
      rewrite Hm, rev_app_distr. cbn [rev]. rewrite <- app_assoc.
      rewrite Hskip.
      * cbn [app find]. rewrite Hrole. cbn [String.eqb Ascii.eqb Bool.eqb].
        rewrite Hnotext. unfold throw. cbn [store_of]. exact Hmsgs.
      * intros x Hx. apply in_rev in Hx. exact (Hpost x Hx).
  - intros Hnone.
    destruct (upsertConversation_succeeds key now db Hk Hcount)
      as (conv & db1 & Hup).
    destruct (upsertConversation_returned _ _ _ _ _ Hup)
      as (_ & _ & _ & Hmsgs & _).
    unfold db', agent_end, caught. fold key.
    unfold bind at 1. rewrite Hup. cbv zeta.
    rewrite <- (app_nil_r (rev messages)), Hskip.
    + cbn [find]. unfold ret. cbn [store_of]. exact Hmsgs.
    + intros x Hx. apply in_rev in Hx. exact (Hnone x Hx).
Qed.

(** A run whose last assistant message is a string, and the same run
    with an assistant entry without content after it. *)
Lemma agent_end_stores_last_assistant_witness :
  let run :=
    [{| msg_role := Some "assistant"; msg_content := "draft" |};
     {| msg_role := Some "user"; msg_content := "hi" |};
     {| msg_role := Some "assistant"; msg_content := "hello" |};
     {| msg_role := Some "tool"; msg_content := Other (Some "{}") |}] in
  let db' := agent_end (Some "agent:main:telegram:user123") run 2000 empty in
  let db'' := agent_end (Some "agent:main:telegram:user123")
                (run ++ [{| msg_role := Some "assistant";
                            msg_content := Other None |}]) 2000 empty in
  (exists conv row,
     conversation db' "agent:main:telegram:user123" = Some conv /\
     lp_messages db' = [row] /\
     conversation_id row = id conv /\ role row = "assistant" /\
     content row = "hello") /\
  lp_messages db'' = [].
Proof.
  cbv zeta. split.
  - destruct (agent_end_stores_last_assistant
                (Some "agent:main:telegram:user123")
                [{| msg_role := Some "assistant"; msg_content := "draft" |};
                 {| msg_role := Some "user"; msg_content := "hi" |};
                 {| msg_role := Some "assistant"; msg_content := "hello" |};
                 {| msg_role := Some "tool";
                    msg_content := Other (Some "{}") |}]
                2000 empty) as [H _].
    + reflexivity.
    + intros old H. discriminate H.
    + destruct (H [{| msg_role := Some "assistant";
                      msg_content := "draft" |};
                   {| msg_role := Some "user"; msg_content := "hi" |}]
                  {| msg_role := Some "assistant"; msg_content := "hello" |}
                  [{| msg_role := Some "tool";
                      msg_content := Other (Some "{}") |}]
                  eq_refl eq_refl) as [Htext _].
      * intros x [<-|[]]. discriminate.
      * destruct (Htext "hello" eq_refl eq_refl eq_refl)
          as (conv & row & H1 & H2 & H3 & H4 & H5 & _).
        exists conv, row. split; [exact H1|]. split; [exact H2|].
        split; [exact H3|]. split; [exact H4|exact H5].
  - destruct (agent_end_stores_last_assistant
                (Some "agent:main:telegram:user123")
                [{| msg_role := Some "assistant"; msg_content := "draft" |};
                 {| msg_role := Some "user"; msg_content := "hi" |};
                 {| msg_role := Some "assistant"; msg_content := "hello" |};
                 {| msg_role := Some "tool";
                    msg_content := Other (Some "{}") |};
                 {| msg_role := Some "assistant";
                    msg_content := Other None |}]
                2000 empty) as [H _].
    + reflexivity.
    + intros old H. discriminate H.
    + destruct (H [{| msg_role := Some "assistant";
                      msg_content := "draft" |};
                   {| msg_role := Some "user"; msg_content := "hi" |};
                   {| msg_role := Some "assistant";
                      msg_content := "hello" |};
                   {| msg_role := Some "tool";
                      msg_content := Other (Some "{}") |}]
                  {| msg_role := Some "assistant";
                     msg_content := Other None |}
                  [] eq_refl eq_refl) as [_ Hnone].
      * intros x [].
      * exact (Hnone eq_refl).
Defined.


(** *** The counter at its bound *)

Lemma upsertConversation_at_limit key now db old :
  fits 512 key = true ->
  conversation db key = Some old ->
  message_count old = int4_max ->
  upsertConversation {| sessionKey := key; opt_channel := "gateway";
                        startedAt := None; lastMessageAt := Some now |}
                     now db
  = Thrown numeric_value_out_of_range db.
Proof.
  intros Hk Hold Hmax.
  unfold upsertConversation, bind, get, put, ret, throw.
  cbn [sessionKey opt_channel startedAt lastMessageAt nullish].
  rewrite (varchar_fits _ _ Hk).
  change (varchar 50 "gateway") with (Some "gateway").
  unfold conversation in Hold. rewrite Hold.
  cbn [on_conflict_update message_count]. rewrite Hmax. reflexivity.
Qed.

(** The counter bounds the ledger: once the [message_count] of a
    conversation has reached 2147483647, the largest [INTEGER], the
    upsert of its key fails in every hook, which logs the error and
    stores nothing: prompts and replies of that conversation are no
    longer recorded. *)
Theorem hooks_stop_at_count_limit key old now db prompt messages content :
  fits 512 key = true ->
  conversation db key = Some old ->
  message_count old = int4_max ->
  before_agent_start (Some key) prompt now db = db /\
  agent_end (Some key) messages now db = db /\
  message_received key content now db = db /\
  message_sent key content now db = db.
Proof.
  intros Hk Hold Hmax.
  pose proof (upsertConversation_at_limit key now db old Hk Hold Hmax) as Hup.
  unfold before_agent_start, agent_end, message_received, message_sent,
    caught.
  cbn [nullish]. unfold bind at 1 3 5 7. rewrite Hup.
  cbn [store_of]. auto.
Qed.

Lemma hooks_stop_at_count_limit_witness :
  before_agent_start (Some "agent:main:telegram:user123") (Some "hi") 3000
    LedgerSamples.full_ledger = LedgerSamples.full_ledger /\
  message_received "agent:main:telegram:user123" "hi" 3000
    LedgerSamples.full_ledger = LedgerSamples.full_ledger.
Proof.
  destruct (hooks_stop_at_count_limit "agent:main:telegram:user123"
              {| id := "uuid-0"; session_key := "agent:main:telegram:user123";
                 channel := "gateway"; started_at := 1000;
                 last_message_at := 2000; message_count := int4_max |}
              3000 LedgerSamples.full_ledger (Some "hi") [] "hi"
              eq_refl eq_refl eq_refl) as (H1 & _ & H3 & _).
  split; [exact H1|exact H3].
Defined.

(** *** One inbound message, two hooks *)




(** *** The query of conversations *)












End LedgerMoreFacts.

(** ** The identity store: what is stored is found *)

Module IdentityStoreFacts.
Import Js Pg IdentityDb.
Import PgFacts IdentityDbFacts CommandsFacts InvariantFacts IdentityPluginFacts.
Local Open Scope list_scope.

Lemma find_unique_id (d : Db) u :
  constraints_hold d -> In u (lp_users d) ->
  find (fun y => String.eqb (id y) (id u)) (lp_users d) = Some u.
Proof.
  intros Hc Hin.
  destruct (find _ (lp_users d)) as [y|] eqn:F.
  - apply find_some in F as [Hy He]. apply String.eqb_eq in He.
    f_equal. apply (user_id_inj d); try assumption.
    apply (users_pk d Hc).
  - pose proof (find_none _ _ F u Hin) as H. cbv beta in H.
    rewrite String.eqb_refl in H. discriminate H.
Qed.

Lemma find_upgraded x now uid (us : list UserRow) u :
  (forall y, In y us -> has_external_id x y = false) ->
  (forall y, In y us -> id y = uid -> y = u) ->
  In u us -> id u = uid ->
  find (has_external_id x)
       (map (fun y => if String.eqb (id y) uid
                      then set_external_id x now y else y) us)
  = Some (set_external_id x now u).
Proof.
  intros Hfree Huniq Hin Hid.
  induction us as [|y us IH]; [destruct Hin|].
  cbn [map find].
  destruct (String.eqb (id y) uid) eqn:E.
  - apply String.eqb_eq in E.
    rewrite (Huniq y (or_introl eq_refl) E).
    unfold has_external_id at 1. cbn [set_external_id external_id].
    rewrite String.eqb_refl. reflexivity.
  - rewrite (Hfree y (or_introl eq_refl)).
    destruct Hin as [->|Hin].
    + rewrite Hid, String.eqb_refl in E. discriminate E.
    + apply IH; [| |exact Hin].
      * intros z Hz. apply Hfree. right. exact Hz.
      * intros z Hz. apply Huniq. right. exact Hz.
Qed.

Lemma linkChannelToUser_succeeds uid c p now d :
  fits 50 c = true -> fits 512 p = true ->
  existsb (fun u => String.eqb (id u) uid) (lp_users d) = true ->
  exists uc d', linkChannelToUser uid c p now d = Returned uc d'.
Proof.
  intros Hc Hp Hu. unfold linkChannelToUser, bind, get, put, ret.
  rewrite (varchar_fits _ _ Hc), (varchar_fits _ _ Hp), Hu. cbn [andb negb].
  destruct (find _ _); eexists; eexists; reflexivity.
Qed.

(** The peer of a link that was just written, as the link holds it,
    resolves to its user. *)
Lemma link_then_lookup uid c p now d uc d' :
  constraints_hold d ->
  linkChannelToUser uid c p now d = Returned uc d' ->
  exists u,
    In u (lp_users d) /\ id u = uid /\
    findUserByChannelPeer d' (channel uc) (channel_peer_id uc)
    = Some {| user := u; resolved_channel := channel uc;
              resolved_peer_id := channel_peer_id uc;
              verified := is_some (external_id u) |}.
Proof.
  intros Hc Hrun.
  pose proof (linkChannelToUser_constraints _ _ _ _ _ _ _ Hc Hrun) as Hc'.
  destruct (linkChannelToUser_returned _ _ _ _ _ _ _ Hrun)
    as (Husers & _ & (u & Hu & Hid) & Huc & _ & Huid & _).
  exists u. split; [exact Hu|]. split; [exact Hid|].
  rewrite <- Husers in Hu.
  assert (Hsame : same_peer (channel uc) (channel_peer_id uc) uc = true)
    by (apply same_peer_iff; split; reflexivity).
  exact (findUserByChannelPeer_linked d' Hc' _ _ u uc Hu Huc Hsame
           (eq_trans Huid (eq_sym Hid))).
Qed.

(** X29. What is stored is found. A user created with an external id is
    the user that [findUserByExternalId] returns for the id that its row
    holds, and the other rows stay. A link written by [linkChannelToUser]
    makes [findUserByChannelPeer] resolve the channel and peer id that the
    link row holds to the user of the link, also when that peer was linked
    to another user before: the link is moved, not doubled. The rows hold
    the values as their columns store them: the external id, channel and
    peer id given when they have at most 256, 50 and 512 characters, and
    cut to that length when the characters in excess are spaces. *)
Theorem stored_identity_is_found d :
  constraints_hold d ->
  (forall opts now u d' e,
     createUser opts now d = Returned u d' ->
     external_id u = Some e ->
     (exists given, externalId opts = Some given /\
                    varchar 256 given = Some e /\
                    (fits 256 given = true -> e = given)) /\
     findUserByExternalId d' e = Some u /\
     lp_users d' = lp_users d ++ [u] /\
     lp_user_channels d' = lp_user_channels d) /\
  (forall uid c p now uc d',
     linkChannelToUser uid c p now d = Returned uc d' ->
     varchar 50 c = Some (channel uc) /\
     varchar 512 p = Some (channel_peer_id uc) /\
     (fits 50 c = true -> fits 512 p = true ->
      channel uc = c /\ channel_peer_id uc = p) /\
     (exists u,
        In u (lp_users d) /\ id u = uid /\
        findUserByChannelPeer d' (channel uc) (channel_peer_id uc)
        = Some {| user := u; resolved_channel := channel uc;
                  resolved_peer_id := channel_peer_id uc;
                  verified := is_some (external_id u) |}) /\
     links_of_peer d' (channel uc) (channel_peer_id uc) = [uc] /\
     user_id uc = uid /\
     lp_users d' = lp_users d).
Proof.
  intros Hc. split.
  - intros opts now u d' e Hrun He.
    destruct (createUser_returned _ _ _ _ _ Hrun)
      as (Husers & Hlinks & _ & _ & Hext & Hfree).
    split.
    { rewrite He in Hext. destruct (externalId opts) as [given|];
        [|discriminate Hext].
      cbn [varchar_opt] in Hext.
      destruct (varchar 256 given) as [e'|] eqn:V; [|discriminate Hext].
      injection Hext as ->. exists given.
      split; [reflexivity|]. split; [exact V|].
      intros Hfit. rewrite (varchar_fits _ _ Hfit) in V. congruence. }
    split; [|split; [exact Husers|exact Hlinks]].
    unfold findUserByExternalId. rewrite Husers.
    rewrite LedgerMoreFacts.find_appended.
    destruct (find (has_external_id e) (lp_users d)) as [y|] eqn:F.
    + apply find_some in F as [Hy Hhas].
      pose proof (Hfree e He) as Hnone.
      assert (Hex : existsb (has_external_id e) (lp_users d) = true)
        by (apply existsb_exists; exists y; auto).
      rewrite Hex in Hnone. discriminate Hnone.
    + unfold has_external_id. rewrite He, String.eqb_refl.
      reflexivity.
  - intros uid c p now uc d' Hrun.
    pose proof (linkChannelToUser_constraints _ _ _ _ _ _ _ Hc Hrun) as Hc'.
    destruct (linkChannelToUser_returned _ _ _ _ _ _ _ Hrun)
      as (Husers & _ & _ & Huc & [Hsc Hsp] & Huid & _).
    split; [exact Hsc|]. split; [exact Hsp|].
    split.
    { intros Hfc Hfp.
      destruct (same_peer_stored c p uc Hfc Hfp (conj Hsc Hsp)) as (_ & H).
      exact H. }
    split; [exact (link_then_lookup _ _ _ _ _ _ _ Hc Hrun)|].
    split.
    { apply (links_of_peer_unique d' Hc' _ _ uc Huc).
      apply same_peer_iff. split; reflexivity. }
    split; [exact Huid|exact Husers].
Qed.

Lemma stored_identity_is_found_witness :
  exists uc d',
    linkChannelToUser "uuid-2" "whatsapp" "+15551230000" 3000
      (Commands.db Peers.verified_on_whatsapp) = Returned uc d' /\
    option_map (fun l => id (user l))
      (findUserByChannelPeer (Commands.db Peers.verified_on_whatsapp)
         "whatsapp" "+15551230000") = Some "uuid-2" /\
    links_of_peer d' "whatsapp" "+15551230000" = [uc] /\
    user_id uc = "uuid-2".
Proof.
  pose proof constraints_hold_verified_on_whatsapp as Hc.
  destruct (linkChannelToUser "uuid-2" "whatsapp" "+15551230000" 3000
              (Commands.db Peers.verified_on_whatsapp))
    as [uc d'|e d'] eqn:E; [|vm_compute in E; discriminate E].
  exists uc, d'. split; [reflexivity|].
  split; [vm_compute; reflexivity|].
  destruct (stored_identity_is_found _ Hc) as [_ H].
  destruct (H _ _ _ _ _ _ E) as (_ & _ & Hk & _ & H1 & H2 & _).
  destruct (Hk eq_refl eq_refl) as [Hkc Hkp]. rewrite Hkc, Hkp in H1.
  split; [exact H1|exact H2].
Defined.

(** X30. [linkExternalId] on a user without external id. When no user
    holds the external id yet, the user is upgraded in place: it keeps
    its id and names, holds the external id afterwards and is the user
    found for it; no row is added and the links stay. When another user
    holds the external id, nothing is upgraded: the peer is linked to
    that user and the users stay as they were. For an id that no user
    has, nothing changes and nothing is returned. *)
Theorem linkExternalId_upgrade_or_merge userId x c p now d :
  constraints_hold d ->
  (forall u,
     findUserByExternalId d x = None ->
     In u (lp_users d) -> id u = userId -> fits 256 x = true ->
     exists d',
       linkExternalId userId x c p now d
       = Returned (Some (set_external_id x now u)) d' /\
       findUserByExternalId d' x = Some (set_external_id x now u) /\
       map id (lp_users d') = map id (lp_users d) /\
       lp_user_channels d' = lp_user_channels d /\
       (forall y, In y (lp_users d) -> id y <> userId -> In y (lp_users d'))) /\
  (forall existing,
     findUserByExternalId d x = Some existing ->
     fits 50 c = true -> fits 512 p = true ->
     exists d',
       linkExternalId userId x c p now d = Returned (Some existing) d' /\
       lp_users d' = lp_users d /\
       findUserByChannelPeer d' c p
       = Some {| user := existing; resolved_channel := c;
                 resolved_peer_id := p; verified := true |}) /\
  (findUserByExternalId d x = None ->
   (forall y, In y (lp_users d) -> id y <> userId) ->
   linkExternalId userId x c p now d = Returned None d).
Proof.
  intros Hc. split; [|split].
  - intros u Hnone Hin Hid Hfit.
    assert (Hex : existsb (fun y => String.eqb (id y) userId) (lp_users d)
                  = true).
    { apply existsb_exists. exists u. split; [exact Hin|].
      apply String.eqb_eq. exact Hid. }
    assert (Hfree : forall y, In y (lp_users d) -> has_external_id x y = false).
    { intros y Hy. unfold findUserByExternalId in Hnone.
      exact (find_none _ _ Hnone y Hy). }
    assert (Huniq : forall y, In y (lp_users d) -> id y = userId -> y = u).
    { intros y Hy Hyid. apply (user_id_inj d); try assumption.
      - apply (users_pk d Hc).
      - congruence. }
    eexists. split.
    + unfold linkExternalId, bind, get, put, ret, throw.
      rewrite Hnone, Hex, (varchar_fits _ _ Hfit).
      cbn [negb].
      replace (existsb (fun y => has_external_id x y
                                 && negb (String.eqb (id y) userId))
                       (lp_users d)) with false.
      * rewrite <- Hid, (find_unique_id d u Hc Hin). reflexivity.
      * symmetry. apply not_true_is_false. intros H.
        apply existsb_exists in H as (y & Hy & H).
        rewrite (Hfree y Hy) in H. discriminate H.
    + cbn [lp_users lp_user_channels].
      split.
      { unfold findUserByExternalId. cbn [lp_users]. rewrite Hid.
        exact (find_upgraded x now userId (lp_users d) u Hfree Huniq Hin Hid). }
      split.
      { rewrite Hid. apply map_rename_keeps. reflexivity. }
      split; [reflexivity|].
      intros y Hy Hne. apply in_map_iff. exists y. rewrite Hid.
      apply String.eqb_neq in Hne. rewrite Hne. auto.
  - intros existing Hsome Hfc Hfp.
    destruct (linkChannelToUser_succeeds (id existing) c p now d Hfc Hfp
                (found_user_exists _ _ _ Hsome)) as (uc & d' & Hrun).
    exists d'. split.
    + unfold linkExternalId. unfold bind at 1. unfold get. rewrite Hsome.
      unfold bind, ret. rewrite Hrun. reflexivity.
    + destruct (linkChannelToUser_returned _ _ _ _ _ _ _ Hrun)
        as (Husers & _).
      split; [exact Husers|].
      destruct (link_then_lookup _ _ _ _ _ _ _ Hc Hrun)
        as (u & Hu & Hid & Hfound).
      destruct (linkChannelToUser_returned _ _ _ _ _ _ _ Hrun)
        as (_ & _ & _ & _ & Hstored & _).
      destruct (same_peer_stored c p uc Hfc Hfp Hstored) as (_ & Hkc & Hkp).
      rewrite Hkc, Hkp in Hfound.
      assert (u = existing).
      { apply (user_id_inj d); try assumption.
        - apply (users_pk d Hc).
        - unfold findUserByExternalId in Hsome.
          apply find_some in Hsome as [H _]. exact H. }
      subst u. rewrite Hfound.
      unfold findUserByExternalId in Hsome. apply find_some in Hsome as [_ H].
      apply has_external_id_iff in H. rewrite H. reflexivity.
  - intros Hnone Hmissing.
    unfold linkExternalId, bind, get, put, ret. rewrite Hnone.
    replace (existsb (fun u => String.eqb (id u) userId) (lp_users d))
      with false; [reflexivity|].
    symmetry. apply not_true_is_false. intros H.
    apply existsb_exists in H as (y & Hy & He). apply String.eqb_eq in He.
    exact (Hmissing y Hy He).
Qed.

Lemma linkExternalId_upgrade_or_merge_witness :
  exists u d',
    linkExternalId "uuid-0" "ext-42" "whatsapp" "+15551230000" 3000
      (Commands.db Samples.registered)
    = Returned (Some u) d' /\
    id u = "uuid-0" /\ external_id u = Some "ext-42" /\
    first_name u = Some "Ana" /\
    findUserByExternalId d' "ext-42" = Some u /\
    lp_user_channels d' = lp_user_channels (Commands.db Samples.registered).
Proof.
  destruct (linkExternalId_upgrade_or_merge "uuid-0" "ext-42" "whatsapp"
              "+15551230000" 3000 (Commands.db Samples.registered)
              constraints_hold_registered) as [H _].
  destruct (H {| id := "uuid-0"; external_id := None;
                 first_name := Some "Ana"; last_name := Some "Lopez";
                 created_at := 1000; updated_at := 1000 |})
    as (d' & H1 & H2 & _ & H4 & _).
  - reflexivity.
  - left. reflexivity.
  - reflexivity.
  - reflexivity.
  - eexists. exists d'. split; [exact H1|].
    cbn [set_external_id id external_id first_name].
    do 3 (split; [reflexivity|]). split; [exact H2|exact H4].
Defined.

End IdentityStoreFacts.

(** ** The memory plugin and the gate agree on the scope key *)

Module GroupIdentityFacts.
Import IdentityPlugin.
Import Js SessionKey Scope MemoryGate GroupIdentity MemoryGateFacts.

Lemma resolve_lookup d c p :
  hd_error
    (flat_map
       (fun u =>
          map (fun uc => (IdentityDb.id u, IdentityDb.external_id u))
              (filter (fun uc =>
                         String.eqb (IdentityDb.user_id uc) (IdentityDb.id u)
                         && IdentityDb.same_peer c p uc)
                      (IdentityDb.lp_user_channels d)))
       (IdentityDb.lp_users d))
  = option_map (fun row => (id row, external_id row))
      (findUserByChannelPeer d c p).
Proof.
  unfold findUserByChannelPeer. rewrite <- hd_error_map.
  rewrite <- (flat_map_map_map (fun row => (id row, external_id row))).
  reflexivity.
Qed.

(** X25. The group id that the memory plugin resolves for a session is
    the scope key of the gate: when the gate finds an identity for the
    session, [resolveIdentityScopeKey] returns the [scopeKey] of the
    scope that the gate formats, the external id of the user or else its
    id; it returns nothing exactly when the gate, once ready, prepends
    nothing. Unlike the block of the gate, it is returned to unverified
    users also when verification is required. *)
Theorem group_id_is_gate_scope_key scopeConfig reachable d key provider st :
  let ctx := Some {| IdentityPlugin.sessionKey := key;
                     IdentityPlugin.messageProvider := provider |} in
  let sessionKey := nullish key EmptyString in
  let channel := nullish provider (deriveChannel sessionKey) in
  let peerId := derivePeerId sessionKey in
  fst (ensureReady reachable st) = true ->
  match resolveIdentityScopeKey d {| GroupIdentity.sessionKey := key;
                                     GroupIdentity.messageProvider := provider |}
  with
  | None => fst (before_agent_start scopeConfig reachable d ctx st) = None
  | Some k =>
      exists identity,
        findUserByChannelPeer d channel peerId = Some identity /\
        k = scopeKey (resolveScope identity channel peerId) /\
        k = nullish (external_id identity) (id identity) /\
        fst (before_agent_start scopeConfig reachable d ctx st)
        = Some (formatScopeBlock (resolveScope identity channel peerId)
                  scopeConfig)
  end.
Proof.
  intros ctx sessionKey channel peerId Hr.
  unfold resolveIdentityScopeKey, before_agent_start.
  destruct (ensureReady reachable st) as [ready st1]. cbn [fst] in Hr.
  subst ready. change (negb true) with false. cbv iota zeta.
  cbn [GroupIdentity.sessionKey GroupIdentity.messageProvider ctx
       ctx_sessionKey ctx_messageProvider IdentityPlugin.sessionKey
       IdentityPlugin.messageProvider].
  fold sessionKey. fold channel. fold peerId.
  destruct (negb (truthy_str peerId) || String.eqb peerId "main"
            || String.eqb peerId "unknown"); [reflexivity|].
  rewrite resolve_lookup.
  destruct (findUserByChannelPeer d channel peerId) as [identity|];
    [|reflexivity].
  cbn [option_map]. exists identity.
  split; [reflexivity|]. split; [reflexivity|]. split; reflexivity.
Qed.

Lemma group_id_is_gate_scope_key_witness :
  resolveIdentityScopeKey (Commands.db Peers.verified_on_whatsapp)
    {| GroupIdentity.sessionKey := Some "agent:main:whatsapp:+15551230000";
       GroupIdentity.messageProvider := None |} = Some "ext-42" /\
  resolveIdentityScopeKey (Commands.db Samples.registered)
    {| GroupIdentity.sessionKey := Some "agent:main:whatsapp:+15551230000";
       GroupIdentity.messageProvider := None |} = Some "uuid-0" /\
  fst (before_agent_start (scopeConfigOf (Some true) None) true
         (Commands.db Samples.registered)
         (Some {| IdentityPlugin.sessionKey :=
                    Some "agent:main:whatsapp:+15551230000";
                  IdentityPlugin.messageProvider := None |})
         {| dbReady := true; initError := false |})
  = Some (formatGatedMessage (scopeConfigOf (Some true) None)).
Proof.
  split; [vm_compute; reflexivity|]. split; [vm_compute; reflexivity|].
  pose proof (group_id_is_gate_scope_key (scopeConfigOf (Some true) None) true
                (Commands.db Samples.registered)
                (Some "agent:main:whatsapp:+15551230000") None
                {| dbReady := true; initError := false |} eq_refl) as H.
  cbv zeta in H.
  assert (E : resolveIdentityScopeKey (Commands.db Samples.registered)
                {| GroupIdentity.sessionKey :=
                     Some "agent:main:whatsapp:+15551230000";
                   GroupIdentity.messageProvider := None |} = Some "uuid-0")
    by (vm_compute; reflexivity).
  rewrite E in H.
  destruct H as (identity & Hfind & _ & _ & Hout).
  rewrite Hout. vm_compute in Hfind. injection Hfind as <-. reflexivity.
Defined.

End GroupIdentityFacts.
